(** * Term-sheet validation: extraction, normalisation and rule validation

    A shallow embedding of [backend/data_structurer.py] (class
    [DataStructurer]) and [backend/validator.py] (class [TermValidator]),
    and of what [backend/input_handler.py], [backend/ocr_extractor.py],
    [backend/api.py] and [backend/reporter.py] compute without reading a
    file: the type of an upload, the reader it gets, the master sheet read
    from text and the summary counts.  The properties of the specification
    come first, further properties of the code after them.

    Conventions of the embedding.
    - A Python [str] is a [string] holding its UTF-8 bytes.  Case mapping,
      whitespace and character classes are the ASCII ones; bytes above 127
      are left alone by [lower], [title] and [strip].
    - A Python [dict] is an association list in insertion order whose keys
      are pairwise distinct; assignment keeps the position of a key that is
      already there.
    - A Python [float] that comes out of a decimal literal is kept as the
      rational the literal denotes.  [np.isclose] is computed as numpy does,
      in IEEE binary64 arithmetic on the doubles nearest to its arguments
      (round to nearest, ties to even; a value too large becomes an
      infinity); the comparisons with the bounds of a range are made on
      the rationals.
    - The libraries the code calls (fuzzywuzzy, spaCy, dateutil, dateparser)
      are the fields of the class [Collaborators]. *)

From Stdlib Require Import Bool List Arith ZArith QArith Qabs Lia Ascii String.
From Stdlib Require Import DecimalString.
From Stdlib Require SpecFloat.
Import ListNotations.
Open Scope string_scope.
Open Scope nat_scope.

(** ** Python strings *)

Module PyStr.

Definition code (c : ascii) : nat := nat_of_ascii c.

Definition in_range (lo hi : nat) (c : ascii) : bool :=
  (lo <=? code c) && (code c <=? hi).

Definition is_digit (c : ascii) : bool := in_range 48 57 c.
Definition is_upper (c : ascii) : bool := in_range 65 90 c.
Definition is_lower (c : ascii) : bool := in_range 97 122 c.
Definition is_alpha (c : ascii) : bool := is_upper c || is_lower c.

(** [str.isspace] on the ASCII range: tab, line feed, vertical tab, form
    feed, carriage return, the four separators 28..31 and the space. *)
Definition is_space (c : ascii) : bool :=
  in_range 9 13 c || in_range 28 32 c.

Definition lower_ascii (c : ascii) : ascii :=
  if is_upper c then ascii_of_nat (code c + 32) else c.
Definition upper_ascii (c : ascii) : ascii :=
  if is_lower c then ascii_of_nat (code c - 32) else c.

Fixpoint map_str (f : ascii -> ascii) (s : string) : string :=
  match s with
  | EmptyString => EmptyString
  | String c s' => String (f c) (map_str f s')
  end.

(** [s.lower()] *)
Definition lower (s : string) : string := map_str lower_ascii s.

Fixpoint rev_app (s acc : string) : string :=
  match s with
  | EmptyString => acc
  | String c s' => rev_app s' (String c acc)
  end.
Definition rev (s : string) : string := rev_app s EmptyString.

Fixpoint lstrip (s : string) : string :=
  match s with
  | EmptyString => EmptyString
  | String c s' => if is_space c then lstrip s' else s
  end.

(** [s.strip()] *)
Definition strip (s : string) : string := rev (lstrip (rev (lstrip s))).

(** [s.replace(a, b)] for one-character [a] and [b] *)
Definition replace_char (a b : ascii) (s : string) : string :=
  map_str (fun c => if Ascii.eqb c a then b else c) s.

Fixpoint filter_str (keep : ascii -> bool) (s : string) : string :=
  match s with
  | EmptyString => EmptyString
  | String c s' =>
      if keep c then String c (filter_str keep s') else filter_str keep s'
  end.

(** [s.replace(a, '')] for a one-character [a] *)
Definition remove_char (a : ascii) (s : string) : string :=
  filter_str (fun c => negb (Ascii.eqb c a)) s.

Fixpoint drop (n : nat) (s : string) : string :=
  match n, s with
  | O, _ => s
  | S _, EmptyString => EmptyString
  | S n', String _ s' => drop n' s'
  end.

Fixpoint take (n : nat) (s : string) : string :=
  match n, s with
  | O, _ => EmptyString
  | S _, EmptyString => EmptyString
  | S n', String c s' => String c (take n' s')
  end.

(** [s[i:j]] for [0 <= i] *)
Definition slice (i j : nat) (s : string) : string := take (j - i) (drop i s).

(** [s.startswith(p)] *)
Fixpoint startswith (p s : string) : bool :=
  match p, s with
  | EmptyString, _ => true
  | String _ _, EmptyString => false
  | String a p', String b s' => Ascii.eqb a b && startswith p' s'
  end.

(** [sub in s] *)
Fixpoint contains (sub s : string) : bool :=
  startswith sub s ||
  match s with
  | EmptyString => false
  | String _ s' => contains sub s'
  end.

(** [s.split(sep, 1)] when [sep in s]: the text before the first
    occurrence of [sep] and the text after it; [None] when [sep] does not
    occur (Python then returns the one-element list [[s]]). *)
Fixpoint split_once (sep s : string) : option (string * string) :=
  if startswith sep s then Some (EmptyString, drop (String.length sep) s)
  else
    match s with
    | EmptyString => None
    | String c s' =>
        match split_once sep s' with
        | Some (a, b) => Some (String c a, b)
        | None => None
        end
    end.

(** [s.split(sep)] for a non-empty [sep]: [skip] counts the characters of
    a separator that was just recognised and [cur] is the piece being
    read, last character first. *)
Fixpoint split_aux (sep s : string) (skip : nat) (cur : string) : list string :=
  match s with
  | EmptyString => [rev cur]
  | String c s' =>
      match skip with
      | S k => split_aux sep s' k cur
      | O =>
          if startswith sep s
          then rev cur :: split_aux sep s' (String.length sep - 1) EmptyString
          else split_aux sep s' 0 (String c cur)
      end
  end.
Definition split (sep s : string) : list string := split_aux sep s 0 EmptyString.

(** [s.title()]: a letter is upper-cased after a character that is not a
    letter and lower-cased after a letter. *)
Fixpoint title_aux (after_letter : bool) (s : string) : string :=
  match s with
  | EmptyString => EmptyString
  | String c s' =>
      if is_alpha c
      then String (if after_letter then lower_ascii c else upper_ascii c)
                  (title_aux true s')
      else String c (title_aux false s')
  end.
Definition title (s : string) : string := title_aux false s.

(** [re.sub(p, '', s)] for a pattern [p] that is an alternation of
    literal strings: scanning from the left, the first literal that
    starts here is dropped. *)
Fixpoint first_prefix (lits : list string) (s : string) : option nat :=
  match lits with
  | [] => None
  | l :: lits' =>
      if startswith l s then Some (String.length l) else first_prefix lits' s
  end.

Fixpoint remove_lits_aux (lits : list string) (s : string) (skip : nat) : string :=
  match s with
  | EmptyString => EmptyString
  | String c s' =>
      match skip with
      | S k => remove_lits_aux lits s' k
      | O =>
          match first_prefix lits s with
          | Some (S k) => remove_lits_aux lits s' k
          | _ => String c (remove_lits_aux lits s' 0)
          end
      end
  end.
Definition remove_lits (lits : list string) (s : string) : string :=
  remove_lits_aux lits s 0.

End PyStr.

(** ** Ordered dictionaries *)

Module Dict.

Definition t (V : Type) : Type := list (string * V).

Section Ops.
Context {V : Type}.

Fixpoint get (d : t V) (k : string) : option V :=
  match d with
  | [] => None
  | (k', v) :: d' => if String.eqb k' k then Some v else get d' k
  end.

(** [k in d] *)
Definition mem (k : string) (d : t V) : bool :=
  match get d k with Some _ => true | None => false end.

(** [d[k] = v] *)
Fixpoint set (d : t V) (k : string) (v : V) : t V :=
  match d with
  | [] => [(k, v)]
  | (k', v') :: d' =>
      if String.eqb k' k then (k', v) :: d' else (k', v') :: set d' k v
  end.

Definition keys (d : t V) : list string := map fst d.

(** a sequence of assignments, oldest first *)
Definition set_all (d : t V) (ws : list (string * V)) : t V :=
  fold_left (fun acc w => set acc (fst w) (snd w)) ws d.
End Ops.

End Dict.

(** ** Regular expressions

    The fragment of Python's [re] that the eight extraction patterns use,
    with its backtracking semantics: alternatives are tried from the left,
    [*] is greedy, and a search returns the match at the leftmost start. *)

Module Regex.
Import PyStr.

Inductive re : Type :=
  | Eps
  | Chr (p : ascii -> bool)
  | Seq (r1 r2 : re)
  | Alt (r1 r2 : re)
  | Star (r : re)
  | Group (r : re).

Definition Plus (r : re) : re := Seq r (Star r).
Definition Opt (r : re) : re := Alt r Eps.

(** a literal under [re.IGNORECASE] *)
Fixpoint lit (s : string) : re :=
  match s with
  | EmptyString => Eps
  | String c s' =>
      Seq (Chr (fun x => Ascii.eqb (lower_ascii x) (lower_ascii c))) (lit s')
  end.

Definition one_of (cs : string) : re :=
  Chr (fun x => contains (String x EmptyString) cs).

(** [run r s g k]: match [r] at the front of [s], then hand the rest of
    the input and the text of group 1 to [k]; a [None] from [k] makes the
    matcher backtrack.  An iteration of [Star] that consumes nothing is
    refused, so the length of the input bounds the number of iterations. *)
Fixpoint run {A : Type} (r : re) (s : string) (g : option string)
         (k : string -> option string -> option A) : option A :=
  match r with
  | Eps => k s g
  | Chr p =>
      match s with
      | String c s' => if p c then k s' g else None
      | EmptyString => None
      end
  | Seq r1 r2 => run r1 s g (fun s' g' => run r2 s' g' k)
  | Alt r1 r2 =>
      match run r1 s g k with
      | Some x => Some x
      | None => run r2 s g k
      end
  | Star r1 =>
      (fix loop (n : nat) (s : string) (g : option string) : option A :=
         match n with
         | O => k s g
         | S n' =>
             match run r1 s g (fun s' g' =>
                                 if String.length s' <? String.length s
                                 then loop n' s' g' else None) with
             | Some x => Some x
             | None => k s g
             end
         end) (String.length s) s g
  | Group r1 =>
      run r1 s g (fun s' _ =>
                    k s' (Some (take (String.length s - String.length s') s)))
  end.

(** [pattern.match(s)]: group 1 and the input left after the match *)
Definition match_here (r : re) (s : string) : option (string * string) :=
  run r s None (fun rest g =>
                  Some (match g with Some x => x | None => EmptyString end, rest)).

(** [pattern.finditer(text)], as the list of [match.group(1)].  None of
    the patterns below matches the empty string. *)
Fixpoint finditer_aux (r : re) (s : string) (skip : nat) : list string :=
  match s with
  | EmptyString => []
  | String _ s' =>
      match skip with
      | S k => finditer_aux r s' k
      | O =>
          match match_here r s with
          | Some (g, rest) =>
              g :: finditer_aux r s' (String.length s - String.length rest - 1)
          | None => finditer_aux r s' 0
          end
      end
  end.
Definition finditer (r : re) (text : string) : list string :=
  finditer_aux r text 0.

End Regex.

(** ** [DataStructurer]: the vocabulary and the patterns *)

Import PyStr Regex.

Definition financial_terms : list string :=
  [ "interest rate"; "maturity date"; "principal"; "coupon";
    "governing law"; "counterparty"; "collateral"; "amortization";
    "default rate"; "prepayment penalty"; "term"; "closing date";
    "loan amount"; "borrower"; "lender"; "facility"; "commitment";
    "pricing"; "margin"; "fee"; "documentation"; "security"; "covenant";
    "debt"; "equity"; "currency"; "payment date"; "repayment"; "default" ].

Definition ws : re := Star (Chr is_space).
Definition sep_opt : re := Opt (one_of ":=-").
Definition currency_opt : re := Opt (Alt (lit "$") (Alt (lit "£") (lit "€"))).
Definition alnum (c : ascii) : bool := is_alpha c || is_digit c.
Definition cls (extra : string) (base : ascii -> bool) : re :=
  Chr (fun c => base c || contains (String c EmptyString) extra).

(** [[a-zA-Z0-9\s\-\.,&]+] *)
Definition name_chars : re :=
  Plus (cls "-.,&" (fun c => alnum c || is_space c)).

(** the concatenation of a sequence of expressions *)
Definition cat (rs : list re) : re := fold_right Seq Eps rs.

Definition patterns : list (string * re) :=
  [ ("interest_rate",
      cat [lit "interest"; ws; lit "rate"; ws; sep_opt; ws;
           Group (Plus (cls "." is_digit)); ws; lit "%"]);
    ("maturity_date",
      cat [lit "maturity"; ws; lit "date"; ws; sep_opt; ws;
           Group (Plus (cls "-.,/" (fun c => alnum c || is_space c)))]);
    ("principal",
      cat [lit "principal"; ws; sep_opt; ws; currency_opt; ws;
           Group (Plus (cls ",." is_digit))]);
    ("counterparty",
      cat [Alt (lit "counterparty")
             (Alt (cat [lit "counter"; Opt (one_of "/- "); lit "party"])
                  (lit "counter-party"));
           ws; sep_opt; ws; Group name_chars]);
    ("governing_law",
      cat [lit "governing"; ws; lit "law"; ws; sep_opt; ws;
           Group (Plus (Chr (fun c => is_alpha c || is_space c)))]);
    ("loan_amount",
      cat [Alt (lit "loan") (lit "facility"); ws; lit "amount"; ws; sep_opt;
           ws; currency_opt; ws;
           Group (cat [Plus (cls ",." is_digit); ws;
                       Opt (Alt (lit "million") (Alt (lit "billion")
                           (Alt (lit "m") (lit "b"))))])]);
    ("borrower", cat [lit "borrower"; ws; sep_opt; ws; Group name_chars]);
    ("lender", cat [lit "lender"; ws; sep_opt; ws; Group name_chars]) ].

Definition LF : string := String (ascii_of_nat 10) EmptyString.

(** ** Values handed over by the collaborators *)

(** A span of [doc.ents]. *)
Record Ent : Type := mkEnt { label_ : string; ent_text : string; start_char : nat }.

(** A [datetime]: a calendar day and the time of day in microseconds. *)
Record datetime : Type :=
  mkDatetime { year : Z; month : Z; day : Z; time_of_day : Z }.

Definition datetime_key (d : datetime) : list Z :=
  [year d; month d; day d; time_of_day d].

Fixpoint lex_compare (a b : list Z) : comparison :=
  match a, b with
  | x :: a', y :: b' =>
      match Z.compare x y with Eq => lex_compare a' b' | c => c end
  | [], [] => Eq
  | [], _ :: _ => Lt
  | _ :: _, [] => Gt
  end.

Definition datetime_compare (a b : datetime) : comparison :=
  lex_compare (datetime_key a) (datetime_key b).

(** [a <= b] and [a == b] on two datetimes *)
Definition datetime_le (a b : datetime) : bool :=
  match datetime_compare a b with Gt => false | _ => true end.
Definition datetime_eq (a b : datetime) : bool :=
  match datetime_compare a b with Eq => true | _ => false end.

Definition digits (n : Z) : string :=
  DecimalString.NilZero.string_of_uint (N.to_uint (Z.to_N n)).

Fixpoint zeros (n : nat) : string :=
  match n with O => EmptyString | S n' => String "0" (zeros n') end.

Definition zero_pad (width : nat) (n : Z) : string :=
  let s := digits n in zeros (width - String.length s) ++ s.

(** [d.strftime('%Y-%m-%d')] *)
Definition strftime_ymd (d : datetime) : string :=
  zero_pad 4 (year d) ++ "-" ++ zero_pad 2 (month d) ++ "-" ++ zero_pad 2 (day d).

(** A cell of the master sheet as pandas reads it: empty ([NaN], also what
    the code puts for a missing column), text, or a number. *)
Inductive cell : Type :=
| NaN
| Str (s : string)
| Num (x : Q).

(** [pd.isna] and [pd.notna] *)
Definition isna (c : cell) : bool := match c with NaN => true | _ => false end.
Definition notna (c : cell) : bool := negb (isna c).

(** A row of the master sheet. *)
Record Row : Type :=
  mkRow { Term : string; Expected_Value : cell; Allowed_Range : cell }.

(** The library functions the code calls.
    - [fuzz_ratio a b] is [fuzz.ratio(a, b)], an integer from 0 to 100;
    - [nlp_ents text] is [nlp(text).ents];
    - [date_parse s] tells whether [dateutil.parser.parse(s)] returns
      (the code only looks at whether it raises);
    - [dateparser_parse s] is [dateparser.parse(s)], [None] when the
      library finds no date;
    - [float_str x] is [str(x)] for a numeric cell [x]. *)
Class Collaborators : Type := {
  fuzz_ratio : string -> string -> Z;
  nlp_ents : string -> list Ent;
  date_parse : string -> bool;
  dateparser_parse : string -> option datetime;
  float_str : Q -> string
}.

(** [str(c)] for a cell that is not empty *)
Definition cell_str `{Collaborators} (c : cell) : string :=
  match c with
  | NaN => "nan"
  | Str s => s
  | Num x => float_str x
  end.

(** [text[:100000]] *)
Definition nlp_limit : nat := Z.to_nat 100000.

(** ** [DataStructurer.structure_data] *)

Section Extraction.
Context `{Collaborators}.

(** Lines 48-52: every match of every pattern is visited, and a match is
    recorded only while its key is absent. *)
Definition apply_pattern (text : string) (terms : Dict.t string)
           (kp : string * re) : Dict.t string :=
  fold_left
    (fun d g => if Dict.mem (fst kp) d then d else Dict.set d (fst kp) (strip g))
    (finditer (snd kp) text) terms.

Definition pattern_stage (text : string) : Dict.t string :=
  fold_left (apply_pattern text) patterns [].

(** [any(w in text[max(0, start-width):start].lower() for w in words)] *)
Definition context_has (text : string) (width start : nat)
           (words : list string) : bool :=
  let ctx := lower (slice (start - width) start text) in
  existsb (fun w => contains w ctx) words.

(** Lines 58-68 *)
Definition entity_maturity (text : string) (ents : list Ent)
           (terms : Dict.t string) : Dict.t string :=
  if Dict.mem "maturity_date" terms then terms
  else
    match find (fun e => String.eqb (label_ e) "DATE" &&
                         context_has text 40 (start_char e)
                                     ["maturity"; "matures"; "due"]) ents with
    | Some e =>
        Dict.set terms "maturity_date"
                 (match dateparser_parse (ent_text e) with
                  | Some d => strftime_ymd d
                  | None => ent_text e
                  end)
    | None => terms
    end.

(** Lines 71-76 *)
Definition entity_rate (text : string) (ents : list Ent)
           (terms : Dict.t string) : Dict.t string :=
  if Dict.mem "interest_rate" terms then terms
  else
    match find (fun e => String.eqb (label_ e) "PERCENT" &&
                         context_has text 40 (start_char e)
                                     ["interest"; "rate"; "coupon"]) ents with
    | Some e => Dict.set terms "interest_rate" (ent_text e)
    | None => terms
    end.

(** Lines 79-83 *)
Definition entity_counterparty (ents : list Ent)
           (terms : Dict.t string) : Dict.t string :=
  if Dict.mem "counterparty" terms then terms
  else
    match find (fun e => String.eqb (label_ e) "ORG") ents with
    | Some e => Dict.set terms "counterparty" (ent_text e)
    | None => terms
    end.

(** Lines 86-92: the loop stops at the first MONEY span whether or not
    its context qualifies. *)
Definition entity_principal (text : string) (ents : list Ent)
           (terms : Dict.t string) : Dict.t string :=
  if Dict.mem "principal" terms || Dict.mem "loan_amount" terms then terms
  else
    match find (fun e => String.eqb (label_ e) "MONEY") ents with
    | Some e =>
        if context_has text 30 (start_char e) ["principal"; "amount"]
        then Dict.set terms "principal" (ent_text e)
        else terms
    | None => terms
    end.

(** Lines 55-92; [doc = nlp(text[:100000])] *)
Definition entity_stage (text : string) (terms : Dict.t string) : Dict.t string :=
  let ents := nlp_ents (take nlp_limit text) in
  entity_principal text ents
    (entity_counterparty ents
       (entity_rate text ents
          (entity_maturity text ents terms))).

(** Line 109: [any(term == key for term in self.financial_terms)] *)
Definition direct_match (key : string) : bool :=
  existsb (fun term => String.eqb term key) financial_terms.

(** Lines 115-119: the first vocabulary entry whose ratio exceeds 65 *)
Definition fuzzy_term (key : string) : option string :=
  find (fun term => (65 <? fuzz_ratio key term)%Z) financial_terms.

Definition underscored (s : string) : string := replace_char " " "_" s.

(** Lines 99-119 for one line and one separator: the assignment it makes,
    if any. *)
Definition line_write (line separator : string) : option (string * string) :=
  if contains separator line then
    match split_once separator line with
    | Some (part0, part1) =>
        let key := lower (strip part0) in
        let value := strip part1 in
        if String.eqb value EmptyString then None
        else if direct_match key then Some (underscored key, value)
        else option_map (fun term => (underscored term, value)) (fuzzy_term key)
    | None => None
    end
  else None.

Definition separators : list string := [":"; "-"; "="].

(** Lines 95-119: the assignments of the line-by-line pass, in order *)
Definition line_writes (text : string) : list (string * string) :=
  flat_map
    (fun line =>
       flat_map (fun separator =>
                   match line_write line separator with
                   | Some w => [w]
                   | None => []
                   end) separators)
    (split LF text).

Definition line_stage (text : string) (terms : Dict.t string) : Dict.t string :=
  Dict.set_all terms (line_writes text).

Definition structure_data (text : string) : Dict.t string :=
  line_stage text (entity_stage text (pattern_stage text)).

(** ** [DataStructurer.normalize_terms]

    The master sheet is taken with its [Term] column in place (lines
    132-142 choose a substitute column otherwise). *)

(** Line 144 *)
Definition master_terms (master_df : list Row) : list string :=
  map (fun r => lower (Term r)) master_df.

(** [master_df[master_df['Term'].str.lower() == l]['Term']] *)
Definition rows_named (master_df : list Row) (l : string) : list string :=
  map Term (filter (fun r => String.eqb (lower (Term r)) l) master_df).

(** Lines 160-167: the running best match and its score *)
Definition fuzzy_step (display_key : string) (best : option string * Z)
           (master_term : string) : option string * Z :=
  let score := fuzz_ratio (lower display_key) (lower master_term) in
  if (snd best <? score)%Z && (60 <? score)%Z
  then (Some master_term, score) else best.

Definition best_fuzzy (display_key : string) (terms : list string)
  : option string * Z :=
  fold_left (fuzzy_step display_key) terms (None, 0%Z).

(** Lines 150-181: the key under which the value of [key] is stored.
    [.iloc[0]] on line 155 always finds a row, see [rows_named_member]. *)
Definition canonical_name (master_df : list Row) (key : string) : string :=
  let display_key := replace_char "_" " " key in
  if existsb (String.eqb (lower display_key)) (master_terms master_df)
  then hd display_key (rows_named master_df (lower display_key))
  else
    match fst (best_fuzzy display_key (master_terms master_df)) with
    | Some best_match =>
        if String.eqb best_match EmptyString
        then title display_key
        else
          match rows_named master_df best_match with
          | original_case_term :: _ => original_case_term
          | [] => title best_match
          end
    | None => title display_key
    end.

Definition normalize_terms (terms : Dict.t string) (master_df : list Row)
  : Dict.t string :=
  fold_left (fun normalized kv =>
               Dict.set normalized (canonical_name master_df (fst kv)) (snd kv))
            terms [].

End Extraction.

(** ** Numbers *)

(** [float(s)] accepts surrounding blanks, a sign, [inf], [infinity], [nan]
    and decimal literals with an optional exponent and single underscores
    between digits. *)
Definition float_syntax : re :=
  let digit := Chr is_digit in
  let digitpart := Seq digit (Star (Seq (Opt (lit "_")) digit)) in
  let sign := Opt (one_of "+-") in
  let exponent := cat [lit "e"; sign; digitpart] in
  let number :=
    Seq (Alt (Seq digitpart (Opt (Seq (lit ".") (Opt digitpart))))
             (Seq (lit ".") digitpart))
        (Opt exponent) in
  Seq sign (Alt (Seq (lit "inf") (Opt (lit "inity"))) (Alt (lit "nan") number)).

(** whether [float(s)] returns *)
Definition float_accepts (s : string) : bool :=
  match run float_syntax (strip s) None
            (fun rest _ => if String.eqb rest EmptyString then Some tt else None) with
  | Some _ => true
  | None => false
  end.

(** the number written by a string of decimal digits, [None] on any other
    character or on the empty string *)
Fixpoint digits_value (s : string) (acc : Z) : option Z :=
  match s with
  | EmptyString => Some acc
  | String c s' =>
      if is_digit c
      then digits_value s' (10 * acc + Z.of_nat (code c - 48))%Z
      else None
  end.

(** [float(s)] for a string [s] made of digits and points, which is what
    the stripping of [_validate_number] leaves: at most one point and at
    least one digit, else [ValueError] ([None]). *)
Definition float_of_decimal (s : string) : option Q :=
  match split_once "." s with
  | None =>
      if String.eqb s EmptyString then None
      else option_map inject_Z (digits_value s 0%Z)
  | Some (int_part, frac_part) =>
      if String.eqb (int_part ++ frac_part) EmptyString then None
      else
        match digits_value (int_part ++ frac_part) 0%Z with
        | Some n =>
            Some (Qmake n (Z.to_pos (10 ^ Z.of_nat (String.length frac_part))))
        | None => None
        end
  end.

(** [re.sub(r'[^0-9\.]', '', s.replace(',', ''))] *)
Definition strip_numeric (s : string) : string :=
  filter_str (fun c => is_digit c || Ascii.eqb c ".") (remove_char "," s).

(** IEEE binary64: 53 bits of precision, infinities at exponent 1024 *)
Definition binary64_prec : Z := 53.
Definition binary64_emax : Z := 1024.

(** The double nearest to a rational, which is what [float] makes of a
    decimal literal: the quotient is taken with more than 1100 bits after
    the binary point, more than any double has, and the position of the
    remainder against one half decides the rounding. *)
Definition double_of_Q (x : Q) : SpecFloat.spec_float :=
  let den := Zpos (Qden x) in
  let shift := (1100 + Z.log2 den)%Z in
  let round (sign : bool) (num : positive) :=
    let (m, r) := Z.div_eucl (Z.shiftl (Zpos num) shift) den in
    let l := if (r =? 0)%Z then SpecFloat.loc_Exact
             else SpecFloat.loc_Inexact (2 * r ?= den)%Z in
    SpecFloat.binary_round_aux binary64_prec binary64_emax sign m (- shift) l in
  match Qnum x with
  | Z0 => SpecFloat.S754_zero false
  | Zpos num => round false num
  | Zneg num => round true num
  end.

(** [np.isfinite] *)
Definition is_finite (x : SpecFloat.spec_float) : bool :=
  match x with
  | SpecFloat.S754_zero _ | SpecFloat.S754_finite _ _ _ => true
  | _ => false
  end.

(** [abs(x - y) <= atol + rtol * abs(y)] in binary64 arithmetic *)
Definition within_tol (x y atol rtol : SpecFloat.spec_float) : bool :=
  SpecFloat.SFleb
    (SpecFloat.SFabs (SpecFloat.SFsub binary64_prec binary64_emax x y))
    (SpecFloat.SFadd binary64_prec binary64_emax atol
       (SpecFloat.SFmul binary64_prec binary64_emax rtol (SpecFloat.SFabs y))).

(** [np.isclose(a, b, rtol=1e-5)] with numpy's default [atol = 1e-8]: the
    tolerance test on two finite numbers, equality when one is infinite. *)
Definition rtol : Q := 1 # 100000.
Definition atol : Q := 1 # 100000000.
Definition isclose (a b : Q) : bool :=
  let x := double_of_Q a in
  let y := double_of_Q b in
  if is_finite x && is_finite y
  then within_tol x y (double_of_Q atol) (double_of_Q rtol)
  else SpecFloat.SFeqb x y.

(** ** Validation records *)

Inductive status : Type := Valid | Invalid | Unknown.

(** The texts of the [Notes] column, one constructor for each message of
    the code; the text of a caught exception is not kept. *)
Inductive note : Type :=
| Empty_note
| Term_not_found_in_master_sheet
| Term_not_found_in_document
| No_validation_rules_specified
| Date_matches_expected_value
| Date_is_after_minimum (min_date : string)
| Date_is_before_minimum (min_date : string)
| Date_is_before_maximum (max_date : string)
| Date_is_after_maximum (max_date : string)
| Date_is_within_range (min_date max_date : string)
| Date_is_outside_range (min_date max_date : string)
| Date_doesnt_match_expected (extracted_date : string) (expected_value : cell)
| No_specific_date_validation_rules
| Date_validation_error
| Number_matches_expected_value
| Number_is_ge_minimum (min_val : Q)
| Number_is_below_minimum (min_val : Q)
| Number_is_le_maximum (max_val : Q)
| Number_is_above_maximum (max_val : Q)
| Number_is_within_range (min_val max_val : Q)
| Number_is_outside_range (min_val max_val : Q)
| Number_doesnt_match_expected (extracted_num : Q) (expected_value : cell)
| No_specific_numeric_validation_rules
| Numeric_validation_error
| Text_matches_expected_value
| Text_matches_with_similarity (similarity : Z)
| Text_doesnt_match_expected (similarity : Z)
| Text_is_in_allowed_values
| Text_is_not_in_allowed_values (valid_values : list string)
| No_specific_text_validation_rules.

Record ValidationRecord : Type := mkRecord {
  rec_Term : string;
  Extracted_Value : string;
  Status : status;
  rec_Expected_Value : cell;
  rec_Allowed_Range : cell;
  Notes : note
}.

Inductive value_type : Type := date | number | text.

Definition ge_sign : string := "≥".
Definition le_sign : string := "≤".
Definition en_dash : string := "–".

(** ** [TermValidator]

    Inside a [try] block a computation is an [option]: [None] stands for a
    raised exception, which the [except Exception] clause turns into a
    verdict.  A range check either returns a verdict or lets control fall
    through to the statements after it ([None] inside [Some]). *)

Notation "x <- e ;; k" :=
  (match e with Some x => k | None => None end)
    (at level 61, e at next level, right associativity).

Section Validation.
Context `{Collaborators}.

(** Lines 93-111 *)
Definition _determine_value_type (value_str : string) : value_type :=
  if date_parse value_str then date
  else
    let numeric_str := remove_lits ["%"; "$"; "£"; "€"; ","] value_str in
    if float_accepts numeric_str then number else text.

(** [a >= b], [a <= b] on what [dateparser.parse] returned: comparing
    with [None] raises [TypeError]. *)
Definition date_le (a b : option datetime) : option bool :=
  x <- a ;; y <- b ;; Some (datetime_le x y).

(** [d.strftime('%Y-%m-%d')]: [AttributeError] on [None] *)
Definition strftime (d : option datetime) : option string :=
  x <- d ;; Some (strftime_ymd x).

(** [extracted_date == expected_date], which never raises *)
Definition date_eq (a b : option datetime) : bool :=
  match a, b with
  | Some x, Some y => datetime_eq x y
  | None, None => true
  | _, _ => false
  end.

(** Lines 125-148 *)
Definition date_range (extracted_date : option datetime) (range_str : string)
  : option (option (bool * note)) :=
  if startswith ge_sign range_str then
    let min_date := dateparser_parse (drop (String.length ge_sign) range_str) in
    ok <- date_le min_date extracted_date ;;
    s <- strftime min_date ;;
    Some (Some (if ok then (true, Date_is_after_minimum s)
                else (false, Date_is_before_minimum s)))
  else if startswith le_sign range_str then
    let max_date := dateparser_parse (drop (String.length le_sign) range_str) in
    ok <- date_le extracted_date max_date ;;
    s <- strftime max_date ;;
    Some (Some (if ok then (true, Date_is_before_maximum s)
                else (false, Date_is_after_maximum s)))
  else if contains en_dash range_str || contains "-" range_str then
    let delimiter := if contains en_dash range_str then en_dash else "-" in
    match split delimiter range_str with
    | [part0; part1] =>
        let min_date := dateparser_parse (strip part0) in
        let max_date := dateparser_parse (strip part1) in
        lo <- date_le min_date extracted_date ;;
        inside <- (if lo then date_le extracted_date max_date else Some false) ;;
        smin <- strftime min_date ;;
        smax <- strftime max_date ;;
        Some (Some (if inside then (true, Date_is_within_range smin smax)
                    else (false, Date_is_outside_range smin smax)))
    | _ => Some None
    end
  else Some None.

(** Lines 116-154, the body of the [try] *)
Definition validate_date_body (extracted_str : string)
           (expected_value allowed_range : cell) : option (bool * note) :=
  let extracted_date := dateparser_parse extracted_str in
  if notna expected_value &&
     date_eq extracted_date (dateparser_parse (cell_str expected_value))
  then Some (true, Date_matches_expected_value)
  else
    verdict <- (if notna allowed_range
                then date_range extracted_date (cell_str allowed_range)
                else Some None) ;;
    match verdict with
    | Some v => Some v
    | None =>
        if notna expected_value then
          s <- strftime extracted_date ;;
          Some (false, Date_doesnt_match_expected s expected_value)
        else Some (true, No_specific_date_validation_rules)
    end.

(** Lines 113-157 *)
Definition _validate_date (extracted_str : string)
           (expected_value allowed_range : cell) : bool * note :=
  match validate_date_body extracted_str expected_value allowed_range with
  | Some v => v
  | None => (false, Date_validation_error)
  end.

(** Lines 171-175 *)
Definition expected_number (expected_value : cell) : option Q :=
  match expected_value with
  | Str s => float_of_decimal (strip_numeric s)
  | Num x => Some x
  | NaN => None
  end.

(** Lines 181-204 *)
Definition number_range (extracted_num : Q) (range_str : string)
  : option (option (bool * note)) :=
  if startswith ge_sign range_str then
    min_val <- float_of_decimal
                 (strip_numeric (drop (String.length ge_sign) range_str)) ;;
    Some (Some (if Qle_bool min_val extracted_num
                then (true, Number_is_ge_minimum min_val)
                else (false, Number_is_below_minimum min_val)))
  else if startswith le_sign range_str then
    max_val <- float_of_decimal
                 (strip_numeric (drop (String.length le_sign) range_str)) ;;
    Some (Some (if Qle_bool extracted_num max_val
                then (true, Number_is_le_maximum max_val)
                else (false, Number_is_above_maximum max_val)))
  else if contains en_dash range_str || contains "-" range_str then
    let delimiter := if contains en_dash range_str then en_dash else "-" in
    match split delimiter range_str with
    | [part0; part1] =>
        min_val <- float_of_decimal (strip_numeric part0) ;;
        max_val <- float_of_decimal (strip_numeric part1) ;;
        Some (Some (if Qle_bool min_val extracted_num &&
                       Qle_bool extracted_num max_val
                    then (true, Number_is_within_range min_val max_val)
                    else (false, Number_is_outside_range min_val max_val)))
    | _ => Some None
    end
  else Some None.

(** Lines 162-210, the body of the [try] *)
Definition validate_number_body (extracted_str : string)
           (expected_value allowed_range : cell) : option (bool * note) :=
  extracted_num <- float_of_decimal (strip_numeric extracted_str) ;;
  matches <- (if notna expected_value
              then expected_num <- expected_number expected_value ;;
                   Some (isclose extracted_num expected_num)
              else Some false) ;;
  if matches then Some (true, Number_matches_expected_value)
  else
    verdict <- (if notna allowed_range
                then number_range extracted_num (cell_str allowed_range)
                else Some None) ;;
    match verdict with
    | Some v => Some v
    | None =>
        if notna expected_value
        then Some (false, Number_doesnt_match_expected extracted_num expected_value)
        else Some (true, No_specific_numeric_validation_rules)
    end.

(** Lines 159-213 *)
Definition _validate_number (extracted_str : string)
           (expected_value allowed_range : cell) : bool * note :=
  match validate_number_body extracted_str expected_value allowed_range with
  | Some v => v
  | None => (false, Numeric_validation_error)
  end.

(** Lines 215-243 *)
Definition _validate_text (extracted_str : string)
           (expected_value allowed_range : cell) : bool * note :=
  if notna expected_value then
    let expected_str := strip (cell_str expected_value) in
    if String.eqb (lower extracted_str) (lower expected_str)
    then (true, Text_matches_expected_value)
    else
      let similarity := fuzz_ratio (lower extracted_str) (lower expected_str) in
      if (90 <=? similarity)%Z
      then (true, Text_matches_with_similarity similarity)
      else (false, Text_doesnt_match_expected similarity)
  else if notna allowed_range && contains "|" (cell_str allowed_range) then
    let valid_values := map strip (split "|" (cell_str allowed_range)) in
    if existsb (String.eqb extracted_str) valid_values ||
       existsb (fun v => String.eqb (lower extracted_str) (lower v)) valid_values
    then (true, Text_is_in_allowed_values)
    else (false, Text_is_not_in_allowed_values valid_values)
  else (true, No_specific_text_validation_rules).

(** Lines 72-91 *)
Definition _validate_value (extracted_value : string)
           (expected_value allowed_range : cell) : bool * note :=
  if isna expected_value && isna allowed_range
  then (true, No_validation_rules_specified)
  else
    let extracted_str := strip extracted_value in
    match _determine_value_type extracted_str with
    | date => _validate_date extracted_str expected_value allowed_range
    | number => _validate_number extracted_str expected_value allowed_range
    | text => _validate_text extracted_str expected_value allowed_range
    end.

(** Lines 22-26: one turn of the loop over the rows; a column that is
    absent gives [None], which [pd.isna] treats like [NaN] *)
Definition add_rule (d : Dict.t (cell * cell)) (row : Row) : Dict.t (cell * cell) :=
  Dict.set d (Term row) (Expected_Value row, Allowed_Range row).

(** Lines 20-26 *)
Definition master_dict (master_df : list Row) : Dict.t (cell * cell) :=
  fold_left add_rule master_df [].

(** Lines 30-56: the record of one extracted term *)
Definition term_record (md : Dict.t (cell * cell)) (kv : string * string)
  : ValidationRecord :=
  let (term, extracted_value) := kv in
  match Dict.get md term with
  | Some (expected_value, allowed_range) =>
      let (is_valid, notes) :=
        _validate_value extracted_value expected_value allowed_range in
      mkRecord term extracted_value (if is_valid then Valid else Invalid)
               expected_value allowed_range notes
  | None =>
      mkRecord term extracted_value Unknown (Str "N/A") (Str "N/A")
               Term_not_found_in_master_sheet
  end.

(** Lines 61-68 *)
Definition missing_record (entry : string * (cell * cell)) : ValidationRecord :=
  mkRecord (fst entry) "Missing" Invalid (fst (snd entry)) (snd (snd entry))
           Term_not_found_in_document.

(** Lines 12-70 *)
Definition validate_terms (extracted_terms : Dict.t string)
           (master_df : list Row) : list ValidationRecord :=
  let md := master_dict master_df in
  map (term_record md) extracted_terms ++
  map missing_record
      (filter (fun entry => negb (Dict.mem (fst entry) extracted_terms)) md).

(** The route [/api/validate], lines 82-89 of [api.py] *)
Definition validate (text : string) (master_df : list Row)
  : list ValidationRecord :=
  validate_terms (normalize_terms (structure_data text) master_df) master_df.

End Validation.

(** ** A reference implementation of the collaborators

    Used to run the code on concrete inputs.
    - [indel_ratio] is the normalised insertion/deletion similarity
      [round(100 * 2 * lcs / (len a + len b))] that [fuzz.ratio] computes
      with python-Levenshtein; before computing, [fuzz.ratio] answers 100
      for two equal strings (two empty ones included) and then 0 when
      either string is empty;
    - dates are read in the forms [YYYY-MM-DD] and [MM-DD], the second one
      completed with the year in progress, as both date libraries do;
    - the entity recogniser is a parameter. *)

Module Reference.

(** one row of the longest-common-subsequence table *)
Fixpoint lcs_row (c : ascii) (b : string) (prev : list nat)
         (diag left : nat) : list nat :=
  match b, prev with
  | String y b', p :: prev' =>
      let v := if Ascii.eqb c y then S diag else Nat.max p left in
      v :: lcs_row c b' prev' p v
  | _, _ => []
  end.

Fixpoint lcs_rows (a b : string) (prev : list nat) : list nat :=
  match a with
  | EmptyString => prev
  | String c a' => lcs_rows a' b (lcs_row c b prev 0 0)
  end.

Definition lcs (a b : string) : nat :=
  last (lcs_rows a b (repeat 0 (String.length b))) 0.

(** [int(round(100 * x))] for [x = num / den], ties to even *)
Definition round_percent (num den : Z) : Z :=
  let q := (100 * num / den)%Z in
  let r := (100 * num mod den)%Z in
  match (2 * r ?= den)%Z with
  | Lt => q
  | Gt => (q + 1)%Z
  | Eq => if Z.even q then q else (q + 1)%Z
  end.

Definition indel_ratio (a b : string) : Z :=
  if String.eqb a b then 100%Z
  else if String.eqb a EmptyString || String.eqb b EmptyString then 0%Z
  else round_percent (2 * Z.of_nat (lcs a b))
                     (Z.of_nat (String.length a + String.length b)).

Definition number_of (width : nat) (s : string) : option Z :=
  if String.length s =? width then digits_value s 0%Z else None.

Definition calendar_day (y m d : Z) : option datetime :=
  if ((1 <=? m) && (m <=? 12) && (1 <=? d) && (d <=? 31))%Z
  then Some (mkDatetime y m d 0) else None.

Definition read_date (this_year : Z) (s : string) : option datetime :=
  match split "-" (strip s) with
  | [y; m; d] =>
      y' <- number_of 4 y ;; m' <- number_of 2 m ;; d' <- number_of 2 d ;;
      calendar_day y' m' d'
  | [m; d] =>
      m' <- number_of 2 m ;; d' <- number_of 2 d ;;
      calendar_day this_year m' d'
  | _ => None
  end.

Fixpoint drop_trailing_zeros (rev_digits : string) : string :=
  match rev_digits with
  | String c s =>
      if Ascii.eqb c "0" && negb (String.eqb s EmptyString)
      then drop_trailing_zeros s else rev_digits
  | EmptyString => rev_digits
  end.

(** a number with up to six decimals, at least one *)
Definition decimal_str (x : Q) : string :=
  let n := Z.abs (Qnum x) in
  let d := Zpos (Qden x) in
  let frac := ((n mod d) * 1000000 / d)%Z in
  (if (Qnum x <? 0)%Z then "-" else "") ++ digits (n / d) ++ "." ++
  rev (drop_trailing_zeros (rev (zero_pad 6 frac))).

Definition collaborators (ents : string -> list Ent) (this_year : Z)
  : Collaborators :=
  {| fuzz_ratio := indel_ratio;
     nlp_ents := ents;
     date_parse := fun s =>
       match read_date this_year s with Some _ => true | None => false end;
     dateparser_parse := read_date this_year;
     float_str := decimal_str |}.

Definition no_ents (text : string) : list Ent := [].

End Reference.

(** ** Notions used to state the properties *)

(** the terms of a column in order, each at its first occurrence; [seen]
    holds the terms met so far, in order *)
Fixpoint first_occurrences (seen terms : list string) : list string :=
  match terms with
  | [] => []
  | t :: terms' =>
      if existsb (String.eqb t) seen then first_occurrences seen terms'
      else t :: first_occurrences (seen ++ [t]) terms'
  end.

(** the records of an output that bear a given term *)
Definition records_for (T : string) (out : list ValidationRecord)
  : list ValidationRecord :=
  filter (fun r => String.eqb (rec_Term r) T) out.

(** The bounds a range designates under the syntaxes the validators
    recognise: what follows a leading [≥] or [≤], or the two sides of an
    interval; [None] for a range in no recognised syntax. *)
Definition range_bounds (range_str : string) : option (list string) :=
  if startswith ge_sign range_str
  then Some [drop (String.length ge_sign) range_str]
  else if startswith le_sign range_str
  then Some [drop (String.length le_sign) range_str]
  else if contains en_dash range_str || contains "-" range_str then
    match split (if contains en_dash range_str then en_dash else "-") range_str with
    | [part0; part1] => Some [part0; part1]
    | _ => None
    end
  else None.

Definition is_none {A} (o : option A) : bool :=
  match o with Some _ => false | None => true end.

(** A numeric range with a bound that [float] rejects. *)
Definition malformed_number_range (range_str : string) : bool :=
  match range_bounds range_str with
  | Some bounds =>
      existsb (fun b => is_none (float_of_decimal (strip_numeric b))) bounds
  | None => false
  end.

(** A date range with a bound in which [dateparser] finds no date. *)
Definition malformed_date_range `{Collaborators} (range_str : string) : bool :=
  match range_bounds range_str with
  | Some [bound] => is_none (dateparser_parse bound)
  | Some bounds =>
      existsb (fun b => is_none (dateparser_parse (strip b))) bounds
  | None => false
  end.

(** whether the strings of a list are pairwise different *)
Fixpoint distinct (l : list string) : bool :=
  match l with
  | [] => true
  | x :: l' => negb (existsb (String.eqb x) l') && distinct l'
  end.

(** the similarity of a display key and a vocabulary entry, compared
    without regard to case *)
Definition score `{Collaborators} (display_key T : string) : Z :=
  fuzz_ratio (lower display_key) (lower T).

(** the assignments of [normalize_terms], in order *)
Definition normalized_writes `{Collaborators} (terms : Dict.t string)
           (master_df : list Row)
  : list (string * string) :=
  map (fun kv => (canonical_name master_df (fst kv), snd kv)) terms.

(** ** Inputs *)

(** the end-to-end scenario of the specification *)
Definition scenario_text : string :=
  "Interest Rate: 5.5%" ++ LF ++ "Maturity Date: 2030-01-01".

Definition scenario_rules : list Row :=
  [ mkRow "Interest Rate" (Str "5.5") (Str "4.0-6.0");
    mkRow "Maturity Date" NaN (Str "≥2025-01-01") ].

Module Inputs.
Import Reference.

(** no entity recognised, dates completed with the year 2026 *)
Definition R26 : Collaborators := collaborators no_ents 2026.

(** the same with the year 2024 *)
Definition R24 : Collaborators := collaborators no_ents 2024.

Definition sample_extracted : Dict.t string := [("Principal", "1,000")].

Definition sample_master : list Row :=
  [ mkRow "Maturity Date" NaN (Str "≥2025-01-01");
    mkRow "Principal" (Str "1000") NaN ].

Definition two_rules : list Row :=
  [ mkRow "Interest Rate" NaN NaN; mkRow "Maturity Date" NaN NaN ].

Definition colliding_terms : Dict.t string :=
  [("interest_rate", "5"); ("interest_rat", "6")].

End Inputs.

(** ** [input_handler.py]: the type of an uploaded file *)

(** [s.rfind(c)] for a character [c]: [last] is the position of the last
    occurrence met so far and [i] the position being read *)
Fixpoint rfind_from (c : ascii) (s : string) (i : nat) (last : option nat)
  : option nat :=
  match s with
  | EmptyString => last
  | String x s' =>
      rfind_from c s' (S i) (if Ascii.eqb x c then Some i else last)
  end.
Definition rfind (c : ascii) (s : string) : option nat := rfind_from c s 0 None.

Fixpoint exists_char (p : ascii -> bool) (s : string) : bool :=
  match s with
  | EmptyString => false
  | String c s' => p c || exists_char p s'
  end.

(** [os.path.splitext(p)[1]] (posixpath): what starts at the last point,
    when that point comes after the last [/] and after a character of the
    file name that is not a point; else the empty string. *)
Definition splitext_ext (p : string) : string :=
  match rfind "." p with
  | None => EmptyString
  | Some dot =>
      let start := match rfind "/" p with Some sep => S sep | None => 0 end in
      if (start <=? dot) &&
         exists_char (fun c => negb (Ascii.eqb c ".")) (slice start dot p)
      then drop dot p else EmptyString
  end.

(** [os.path.basename(p)] (posixpath) *)
Definition basename (p : string) : string :=
  match rfind "/" p with Some sep => drop (S sep) p | None => p end.

(** What the code reads of a file object: the attributes [filename],
    [name] and [content_type] ([None] when the attribute is absent or is
    [None]) and the bytes that [read(8)] returns ([None] when [tell],
    [read] or [seek] raises). *)
Record UploadedFile : Type := mkUpload {
  file_filename : option string;
  file_name : option string;
  file_content_type : option string;
  file_header : option string
}.

(** an attribute that is there and is not the empty string *)
Definition truthy (a : option string) : option string :=
  match a with
  | Some s => if String.eqb s EmptyString then None else Some s
  | None => None
  end.

Definition one_in (x : string) (l : list string) : bool :=
  existsb (String.eqb x) l.

(** Lines 39-46 *)
Definition type_of_extension (ext : string) : option string :=
  if String.eqb ext ".pdf" then Some "pdf"
  else if one_in ext [".doc"; ".docx"] then Some "word"
  else if one_in ext [".xls"; ".xlsx"; ".csv"] then Some "excel"
  else if one_in ext [".png"; ".jpg"; ".jpeg"; ".tif"; ".tiff"] then Some "image"
  else None.

(** Lines 50-57, and again lines 95-102 *)
Definition type_of_mime (mime : string) : option string :=
  if contains "pdf" mime then Some "pdf"
  else if contains "word" mime || contains "document" mime then Some "word"
  else if contains "excel" mime || contains "spreadsheet" mime ||
          contains "csv" mime then Some "excel"
  else if contains "image" mime then Some "image"
  else None.

Definition byte (n : nat) : string := String (ascii_of_nat n) EmptyString.
Definition png_signature : string := byte 137 ++ "PNG".
Definition jpeg_signature : string := byte 255 ++ byte 216.
Definition zip_signature : string := "PK" ++ byte 3 ++ byte 4.

(** Lines 70-84 *)
Definition type_of_header (header : string) (filename : option string)
  : option string :=
  if startswith "%PDF" header then Some "pdf"
  else if startswith png_signature header then Some "image"
  else if startswith jpeg_signature header then Some "image"
  else if contains zip_signature header then
    match filename with
    | Some name =>
        if contains ".docx" (lower name) then Some "word"
        else if contains ".xlsx" (lower name) then Some "excel"
        else Some "excel"
    | None => Some "excel"
    end
  else None.

(** Lines 106-114 *)
Definition type_of_name (lower_filename : string) : option string :=
  if contains ".pdf" lower_filename then Some "pdf"
  else if contains ".doc" lower_filename || contains ".docx" lower_filename
  then Some "word"
  else if contains ".xls" lower_filename || contains ".xlsx" lower_filename ||
          contains ".csv" lower_filename then Some "excel"
  else if existsb (fun img_ext => contains img_ext lower_filename)
                  [".png"; ".jpg"; ".jpeg"; ".tif"; ".tiff"; ".bmp"]
  then Some "image"
  else None.

Definition or_else {A : Type} (first : option A) (next : option A) : option A :=
  match first with Some x => Some x | None => next end.

Definition bind_str {A : Type} (a : option string) (f : string -> option A)
  : option A :=
  match a with Some s => f s | None => None end.

Section FileType.

(** [mimetypes.guess_type(filename)[0]] *)
Variable guess_type : string -> option string.

(** Lines 21-25 *)
Definition detected_filename (file_obj : UploadedFile) : option string :=
  or_else (truthy (file_filename file_obj)) (truthy (file_name file_obj)).

(** Lines 14-118 *)
Definition detect_file_type (file_obj : UploadedFile) : string :=
  let filename := detected_filename file_obj in
  let content_type := truthy (file_content_type file_obj) in
  let found :=
    or_else (bind_str filename
               (fun name => type_of_extension (lower (splitext_ext name))))
   (or_else (bind_str content_type type_of_mime)
   (or_else (bind_str (file_header file_obj)
               (fun header => type_of_header header filename))
   (or_else (bind_str filename
               (fun name => bind_str (truthy (guess_type name)) type_of_mime))
            (bind_str filename (fun name => type_of_name (lower name)))))) in
  match found with
  | Some file_type => file_type
  | None => "excel"
  end.

End FileType.

(** Lines 123-141 of [save_uploaded_file]: the name under which the upload
    is saved.  An attribute [name] that is absent gives ['unknown_file']. *)
Definition upload_filename (file_obj : UploadedFile) : string :=
  let filename :=
    match truthy (file_filename file_obj) with
    | Some s => s
    | None =>
        match file_name file_obj with Some s => s | None => "unknown_file" end
    end in
  if contains "." filename then filename
  else
    let extension :=
      match truthy (file_content_type file_obj) with
      | Some mimetype =>
          if contains "pdf" mimetype then ".pdf"
          else if contains "spreadsheet" mimetype || contains "excel" mimetype
          then ".xlsx"
          else if contains "document" mimetype then ".docx"
          else if contains "image" mimetype then ".jpg"
          else ".dat"
      | None => ".dat"
      end in
    filename ++ extension.

(** Line 145: the suffix of the temporary file *)
Definition upload_suffix (file_obj : UploadedFile) : string :=
  splitext_ext (basename (upload_filename file_obj)).

(** ** [ocr_extractor.py]: the choice of a reader and the text fallback *)

Inductive text_reader : Type :=
| _extract_from_pdf | _extract_from_word | _extract_from_excel
| _extract_from_image.

(** Lines 28-42 of [extract_text]: the reader for a file type, [None] for
    [ValueError("Unsupported file type")] *)
Definition extract_text (file_type : string) : option text_reader :=
  if String.eqb file_type "pdf" then Some _extract_from_pdf
  else if String.eqb file_type "word" then Some _extract_from_word
  else if String.eqb file_type "excel" then Some _extract_from_excel
  else if String.eqb file_type "image" then Some _extract_from_image
  else None.

Inductive master_reader : Type :=
| read_excel
| read_csv
| parsed_text (reader : text_reader).

(** Lines 90-107 of [extract_master_sheet_structure] *)
Definition extract_master_sheet_structure (file_type : string)
  : option master_reader :=
  if String.eqb file_type "excel" then Some read_excel
  else if String.eqb file_type "csv" then Some read_csv
  else option_map parsed_text (extract_text file_type).

(** Lines 109-129 *)
Definition _parse_text_to_dataframe (text : string) : list Row :=
  let lines :=
    filter (fun line => negb (String.eqb line EmptyString))
           (map strip (split LF text)) in
  flat_map
    (fun line =>
       if contains ":" line then
         match split_once ":" line with
         | Some (term, value) => [mkRow (strip term) (Str (strip value)) (Str "")]
         | None => []
         end
       else [])
    lines.

(** ** [api.py] and [reporter.py]: the summary counts *)

Definition status_eqb (a b : status) : bool :=
  match a, b with
  | Valid, Valid | Invalid, Invalid | Unknown, Unknown => true
  | _, _ => false
  end.

(** [len(validation_results[validation_results['Status'] == st])] *)
Definition count_status (st : status) (results : list ValidationRecord) : nat :=
  List.length (filter (fun r => status_eqb (Status r) st) results).

Record Summary : Type := mkSummary {
  total_terms : nat; valid_terms : nat; invalid_terms : nat; unknown_terms : nat
}.

(** Lines 106-109 of [api.py] and 24-27 of [reporter.py].  A frame built
    from no record has no column, so that selecting ['Status'] raises
    [KeyError] ([None]). *)
Definition summary (results : list ValidationRecord) : option Summary :=
  match results with
  | [] => None
  | _ :: _ =>
      Some (mkSummary (List.length results) (count_status Valid results)
                      (count_status Invalid results)
                      (count_status Unknown results))
  end.

(** ** More notions used to state properties *)

(** the keys that [structure_data] can write *)
Definition vocabulary : list string := map underscored financial_terms.

(** a dictionary without repeated keys, all of them in the vocabulary *)
Definition known (d : Dict.t string) : Prop :=
  NoDup (Dict.keys d) /\ forall k, In k (Dict.keys d) -> In k vocabulary.

(** the number of occurrences of a character *)
Fixpoint count_char (c : ascii) (s : string) : nat :=
  match s with
  | EmptyString => 0
  | String x s' => (if Ascii.eqb c x then 1 else 0) + count_char c s'
  end.

(** a string of digits and points *)
Definition decimal_chars (t : string) : Prop :=
  exists_char (fun c => negb (is_digit c || Ascii.eqb c ".")) t = false.

(** the types that the readers of [ocr_extractor.py] support *)
Definition file_types : list string := ["pdf"; "word"; "excel"; "image"].

(** ["\n".join(lines)] *)
Fixpoint join_lines (lines : list string) : string :=
  match lines with
  | [] => EmptyString
  | [line] => line
  | line :: lines' => line ++ LF ++ join_lines lines'
  end.

(** a rule of a master sheet written as the line [Term: Value] *)
Definition master_line (rule : string * string) : string :=
  fst rule ++ ": " ++ snd rule.

(** a text that is not empty, has no blank at either end and no line feed *)
Definition clean_text (s : string) : Prop :=
  s <> EmptyString /\ lstrip s = s /\ lstrip (rev s) = rev s /\
  count_char (ascii_of_nat 10) s = 0.

(** The assignment one master row makes to the rule dictionary
    (validator.py, lines 21-26) *)
Definition rule_entry (row : Row) : string * (cell * cell) :=
  (Term row, (Expected_Value row, Allowed_Range row)).

(** * Properties *)

(** Case analysis on the innermost scrutinee of the goal. *)
Ltac break_match :=
  match goal with
  | |- context [match ?x with _ => _ end] =>
      lazymatch x with
      | context [match _ with _ => _ end] => fail
      | _ => destruct x eqn:?
      end
  end.

(** ** Dictionaries *)

Module DictFacts.
Import Dict.

Section Facts.
Context {V : Type}.
Implicit Types (d : Dict.t V) (k : string) (v : V).

Lemma get_set_same d k v : get (set d k v) k = Some v.
Proof.
  induction d as [|[k' v'] d IH]; simpl.
  - now rewrite String.eqb_refl.
  - destruct (String.eqb k' k) eqn:E; simpl; rewrite E; auto.
Qed.

Lemma get_set_other d k k' v : k <> k' -> get (set d k v) k' = get d k'.
Proof.
  intros Hne. induction d as [|[k0 v0] d IH]; simpl.
  - destruct (String.eqb k k') eqn:E; auto.
    apply String.eqb_eq in E. contradiction.
  - destruct (String.eqb k0 k) eqn:E; simpl.
    + apply String.eqb_eq in E. subst k0.
      destruct (String.eqb k k') eqn:E'; auto.
      apply String.eqb_eq in E'. contradiction.
    + now rewrite IH.
Qed.

Lemma mem_In k d : mem k d = true <-> In k (keys d).
Proof.
  unfold mem. induction d as [|[k' v'] d IH]; simpl.
  - split; [discriminate | tauto].
  - destruct (String.eqb k' k) eqn:E.
    + apply String.eqb_eq in E. tauto.
    + apply String.eqb_neq in E. rewrite IH. tauto.
Qed.

Lemma mem_false k d : mem k d = false <-> ~ In k (keys d).
Proof.
  rewrite <- mem_In. destruct (mem k d); split; intros; congruence.
Qed.

Lemma keys_set d k v :
  keys (set d k v) = if mem k d then keys d else (keys d ++ [k])%list.
Proof.
  unfold mem. induction d as [|[k' v'] d IH]; simpl; auto.
  destruct (String.eqb k' k) eqn:E; simpl; auto.
  rewrite IH. now destruct (get d k).
Qed.

Lemma NoDup_set d k v : NoDup (keys d) -> NoDup (keys (set d k v)).
Proof.
  intros Hd. rewrite keys_set. destruct (mem k d) eqn:E; auto.
  apply mem_false in E.
  apply NoDup_app; auto.
  - repeat constructor. simpl. tauto.
  - intros x Hx [Hk|[]]. subst. contradiction.
Qed.

Lemma NoDup_set_all ws d : NoDup (keys d) -> NoDup (keys (set_all d ws)).
Proof.
  unfold set_all. revert d.
  induction ws as [|w ws IH]; simpl; intros d Hd; auto using NoDup_set.
Qed.

Lemma length_set d k v :
  List.length (set d k v) = if mem k d then List.length d else S (List.length d).
Proof.
  rewrite <- !(length_map fst).
  change (map fst (set d k v)) with (keys (set d k v)).
  change (map fst d) with (keys d).
  rewrite keys_set. destruct (mem k d); auto.
  rewrite length_app. simpl. lia.
Qed.

Lemma get_In d k v : NoDup (keys d) -> In (k, v) d -> get d k = Some v.
Proof.
  induction d as [|[k' v'] d IH]; simpl; intros Hd Hin; [tauto|].
  inversion Hd as [|? ? Hnot Hd']; subst.
  destruct Hin as [E|Hin].
  - inversion E; subst. now rewrite String.eqb_refl.
  - destruct (String.eqb k' k) eqn:E; auto.
    apply String.eqb_eq in E. subst k'.
    exfalso. apply Hnot. unfold keys.
    change k with (fst (k, v)). now apply in_map.
Qed.

(** With distinct keys, a key selects at most one entry. *)
Lemma filter_key d k :
  NoDup (keys d) ->
  filter (fun e => String.eqb (fst e) k) d =
  match get d k with Some v => [(k, v)] | None => [] end.
Proof.
  induction d as [|[k' v'] d IH]; simpl; intros Hd; auto.
  inversion Hd as [|? ? Hnot Hd']; subst.
  destruct (String.eqb k' k) eqn:E.
  - apply String.eqb_eq in E. subst k'.
    rewrite IH by assumption.
    apply mem_false in Hnot. unfold mem in Hnot.
    now destruct (get d k).
  - auto.
Qed.

(** The value a key has after a run of assignments. *)
Lemma get_set_all_last ws d k v ws' :
  (forall w, In w ws' -> fst w <> k) ->
  get (set_all d (ws ++ (k, v) :: ws')%list) k = Some v.
Proof.
  unfold set_all. intros Hlast. rewrite fold_left_app. simpl.
  generalize (fold_left (fun acc w => set acc (fst w) (snd w)) ws d) as d0.
  intros d0.
  assert (Hget : get (set d0 k v) k = Some v) by apply get_set_same.
  revert Hget. generalize (set d0 k v) as d1. clear d0.
  induction ws' as [|w ws' IH]; simpl; intros d1 Hget; auto.
  apply IH.
  - intros w' Hw'. apply Hlast. now right.
  - rewrite get_set_other; auto. apply Hlast. now left.
Qed.

Lemma get_set_all_untouched ws d k :
  (forall w, In w ws -> fst w <> k) ->
  get (set_all d ws) k = get d k.
Proof.
  unfold set_all. revert d.
  induction ws as [|w ws IH]; simpl; intros d Hno; auto.
  rewrite IH.
  - apply get_set_other. apply Hno. now left.
  - intros w' Hw'. apply Hno. now right.
Qed.

Lemma length_set_all ws d :
  List.length (set_all d ws) <= List.length d + List.length ws.
Proof.
  unfold set_all. revert d.
  induction ws as [|w ws IH]; simpl; intros d; [lia|].
  specialize (IH (set d (fst w) (snd w))).
  rewrite length_set in IH. destruct (mem (fst w) d); lia.
Qed.

Lemma mem_set_all ws d k :
  mem k d = true -> mem k (set_all d ws) = true.
Proof.
  unfold set_all. revert d.
  induction ws as [|w ws IH]; simpl; intros d Hk; auto.
  apply IH. apply mem_In. rewrite keys_set.
  apply mem_In in Hk. destruct (mem (fst w) d); auto.
  apply in_or_app. now left.
Qed.
End Facts.

End DictFacts.

(** ** C1: one record for every rule of the master sheet *)

Section ValidateTerms.
Context `{Collaborators}.
Import Dict DictFacts.

Lemma master_dict_NoDup master_df : NoDup (keys (master_dict master_df)).
Proof.
  unfold master_dict.
  assert (G : forall rows d, NoDup (keys d) ->
              NoDup (keys (fold_left add_rule rows d))).
  { induction rows as [|row rows IH]; simpl; intros d Hd; auto.
    apply IH. now apply NoDup_set. }
  apply G. constructor.
Qed.

Lemma existsb_eqb_In t l : existsb (String.eqb t) l = true <-> In t l.
Proof.
  rewrite existsb_exists. split.
  - intros [x [Hx E]]. apply String.eqb_eq in E. now subst.
  - intros Hin. exists t. split; auto. apply String.eqb_refl.
Qed.

Lemma master_dict_keys_from rows d :
  keys (fold_left add_rule rows d) =
  (keys d ++ first_occurrences (keys d) (map Term rows))%list.
Proof.
  revert d. induction rows as [|row rows IH]; simpl; intros d.
  - now rewrite app_nil_r.
  - rewrite IH. unfold add_rule. rewrite keys_set.
    destruct (mem (Term row) d) eqn:E.
    + apply mem_In in E. apply existsb_eqb_In in E. now rewrite E.
    + apply mem_false in E.
      destruct (existsb (String.eqb (Term row)) (keys d)) eqn:E'.
      * apply existsb_eqb_In in E'. contradiction.
      * now rewrite <- app_assoc.
Qed.

(** The keys of [master_dict] are the terms of the sheet in table order,
    a repeated term staying where it first occurred. *)
Lemma master_dict_keys master_df :
  keys (master_dict master_df) = first_occurrences [] (map Term master_df).
Proof. apply (master_dict_keys_from master_df []). Qed.

Lemma master_dict_has master_df T :
  In T (map Term master_df) -> exists rule, get (master_dict master_df) T = Some rule.
Proof.
  intros Hin.
  assert (G : forall rows d,
             In T (map Term rows) \/ mem T d = true ->
             mem T (fold_left add_rule rows d) = true).
  { induction rows as [|row rows IH]; simpl; intros d Hor.
    - destruct Hor as [[]|Hd]. exact Hd.
    - apply IH. destruct Hor as [[E|Hr]|Hd]; [right|now left|right].
      + unfold add_rule, mem. rewrite <- E. now rewrite get_set_same.
      + apply mem_In. unfold add_rule. rewrite keys_set.
        apply mem_In in Hd. destruct (mem (Term row) d); auto.
        apply in_or_app. now left. }
  specialize (G master_df [] (or_introl Hin)).
  change (fold_left add_rule master_df []) with (master_dict master_df) in G.
  unfold mem in G.
  destruct (get (master_dict master_df) T) as [rule|]; [now exists rule|discriminate].
Qed.

(** No verdict of [_validate_value] carries the note of a missing term. *)
Lemma validate_value_note v e r :
  snd (_validate_value v e r) <> Term_not_found_in_document.
Proof.
  unfold _validate_value, _validate_date, validate_date_body, date_range,
    _validate_number, validate_number_body, number_range, _validate_text.
  repeat break_match; simpl; discriminate.
Qed.

Lemma term_record_Term md kv : rec_Term (term_record md kv) = fst kv.
Proof.
  unfold term_record. destruct kv as [k v]. simpl.
  destruct (get md k) as [[e r]|]; auto.
  now destruct (_validate_value v e r).
Qed.

Lemma term_record_note md kv :
  Notes (term_record md kv) <> Term_not_found_in_document.
Proof.
  unfold term_record. destruct kv as [k v].
  destruct (get md k) as [[e r]|]; simpl; [|discriminate].
  pose proof (validate_value_note v e r) as Hn.
  now destruct (_validate_value v e r).
Qed.

Lemma filter_map_comm {A B} (p : B -> bool) (f : A -> B) (l : list A) :
  filter p (map f l) = map f (filter (fun x => p (f x)) l).
Proof.
  induction l as [|x l IH]; simpl; auto.
  destruct (p (f x)); simpl; now rewrite IH.
Qed.

Lemma records_for_matched md extracted T :
  NoDup (keys extracted) ->
  records_for T (map (term_record md) extracted) =
  match get extracted T with
  | Some v => [term_record md (T, v)]
  | None => []
  end.
Proof.
  intros Hd. unfold records_for. rewrite filter_map_comm.
  rewrite (filter_ext _ (fun e => String.eqb (fst e) T)).
  - rewrite filter_key by assumption. now destruct (get extracted T).
  - intros kv. now rewrite term_record_Term.
Qed.

Lemma filter_comm {A} (p q : A -> bool) (l : list A) :
  filter p (filter q l) = filter q (filter p l).
Proof.
  induction l as [|x l IH]; simpl; auto.
  destruct (q x) eqn:Eq, (p x) eqn:Ep; simpl; rewrite ?Eq, ?Ep, IH; auto.
Qed.

Lemma records_for_missing (md : Dict.t (cell * cell))
      (extracted : Dict.t string) T :
  NoDup (keys md) ->
  records_for T
    (map missing_record
         (filter (fun entry => negb (mem (fst entry) extracted)) md)) =
  match get md T with
  | Some rule => if mem T extracted then [] else [missing_record (T, rule)]
  | None => []
  end.
Proof.
  intros Hd. unfold records_for. rewrite filter_map_comm.
  change (fun x => String.eqb (rec_Term (missing_record x)) T)
    with (fun x : string * (cell * cell) => String.eqb (fst x) T).
  rewrite filter_comm, (filter_key md T Hd).
  destruct (get md T) as [rule|]; simpl; auto.
  destruct (mem T extracted); reflexivity.
Qed.

Lemma map_fst_filter {V} (g : string -> bool) (d : Dict.t V) :
  map fst (filter (fun e => g (fst e)) d) = filter g (map fst d).
Proof.
  induction d as [|e d IH]; simpl; auto.
  destruct (g (fst e)); simpl; now rewrite IH.
Qed.

Lemma term_record_status md kv :
  Status (term_record md kv) = Unknown <-> get md (fst kv) = None.
Proof.
  unfold term_record. destruct kv as [k v]. simpl.
  destruct (get md k) as [[e r]|].
  - destruct (_validate_value v e r) as [[|] n]; simpl; split; discriminate.
  - simpl. tauto.
Qed.

(** C1.  For every call of [validate_terms] and every term [T] of the
    master sheet, the output holds exactly one record for [T]: when [T] is
    a key of the normalized terms it is the record of that term, with the
    extracted value and status Valid or Invalid; otherwise it is the
    synthesized record with extracted value "Missing".  The output is the
    records of the normalized terms followed by the Missing records, and
    the Missing records follow the order of the rule table. *)
Theorem validate_terms_one_record_per_rule
        (extracted : Dict.t string) (master_df : list Row) :
  NoDup (keys extracted) ->
  let md := master_dict master_df in
  let out := validate_terms extracted master_df in
  (forall T, In T (map Term master_df) ->
     exists rule, get md T = Some rule /\
       match get extracted T with
       | Some v =>
           exists r, records_for T out = [r] /\
             r = term_record md (T, v) /\
             Extracted_Value r = v /\
             (Status r = Valid \/ Status r = Invalid) /\
             Notes r <> Term_not_found_in_document
       | None =>
           records_for T out =
           [mkRecord T "Missing" Invalid (fst rule) (snd rule)
                     Term_not_found_in_document]
       end) /\
  exists matched missing,
    out = (matched ++ missing)%list /\
    map rec_Term matched = keys extracted /\
    (forall r, In r matched -> Notes r <> Term_not_found_in_document) /\
    (forall r, In r missing ->
       Extracted_Value r = "Missing" /\ Status r = Invalid /\
       Notes r = Term_not_found_in_document) /\
    map rec_Term missing =
    filter (fun t => negb (mem t extracted))
           (first_occurrences [] (map Term master_df)).
Proof.
  intros Hd md out. split.
  - intros T HT.
    destruct (master_dict_has master_df T HT) as [rule Hrule].
    exists rule. split; [exact Hrule|].
    unfold out, validate_terms, records_for. rewrite filter_app.
    fold md.
    change (filter (fun r => String.eqb (rec_Term r) T)
                   (map (term_record md) extracted))
      with (records_for T (map (term_record md) extracted)).
    rewrite (records_for_matched md extracted T Hd).
    match goal with
    | |- context [filter ?p (map missing_record ?l)] =>
        change (filter p (map missing_record l))
          with (records_for T (map missing_record l))
    end.
    rewrite (records_for_missing md extracted T (master_dict_NoDup master_df)).
    fold md in Hrule. rewrite Hrule. unfold mem.
    destruct (get extracted T) as [v|] eqn:Hv.
    + exists (term_record md (T, v)). repeat split.
      * unfold term_record. rewrite Hrule. destruct rule as [e r].
        now destruct (_validate_value v e r).
      * unfold term_record. rewrite Hrule. destruct rule as [e r].
        destruct (_validate_value v e r) as [[|] n]; simpl; auto.
      * apply term_record_note.
    + reflexivity.
  - exists (map (term_record md) extracted).
    exists (map missing_record
                (filter (fun entry => negb (mem (fst entry) extracted)) md)).
    split; [reflexivity|]. split; [|split; [|split]].
    + rewrite map_map. unfold keys. apply map_ext.
      intros kv. apply term_record_Term.
    + intros r Hr. apply in_map_iff in Hr. destruct Hr as [kv [E _]].
      subst r. apply term_record_note.
    + intros r Hr. apply in_map_iff in Hr. destruct Hr as [e [E _]].
      subst r. repeat split.
    + rewrite map_map.
      rewrite (map_ext (fun x => rec_Term (missing_record x)) fst)
        by reflexivity.
      rewrite (map_fst_filter (fun t => negb (mem t extracted)) md).
      change (map fst md) with (keys md). unfold md.
      now rewrite master_dict_keys.
Qed.

End ValidateTerms.

(** ** C2: ranges that do not parse *)

Section MalformedRanges.
Context `{Collaborators}.

Lemma number_range_raises x range_str :
  malformed_number_range range_str = true -> number_range x range_str = None.
Proof.
  unfold malformed_number_range, range_bounds, number_range.
  destruct (startswith ge_sign range_str).
  { simpl. now destruct (float_of_decimal _). }
  destruct (startswith le_sign range_str).
  { simpl. now destruct (float_of_decimal _). }
  destruct (contains en_dash range_str || contains "-" range_str);
    [|discriminate].
  destruct (split _ range_str) as [|p0 [|p1 [|p2 l]]]; try discriminate.
  simpl.
  destruct (float_of_decimal (strip_numeric p0)); simpl; auto.
  destruct (float_of_decimal (strip_numeric p1)); simpl; auto.
  discriminate.
Qed.

Lemma date_range_raises extracted_date range_str :
  malformed_date_range range_str = true ->
  date_range extracted_date range_str = None.
Proof.
  unfold malformed_date_range, range_bounds, date_range, date_le, strftime.
  destruct (startswith ge_sign range_str).
  { now destruct (dateparser_parse _). }
  destruct (startswith le_sign range_str).
  { destruct (dateparser_parse _); [discriminate|].
    now destruct extracted_date. }
  destruct (contains en_dash range_str || contains "-" range_str);
    [|discriminate].
  destruct (split _ range_str) as [|p0 [|p1 [|p2 l]]]; try discriminate.
  simpl.
  destruct (dateparser_parse (strip p0)); simpl; auto.
  destruct (dateparser_parse (strip p1)); simpl; [discriminate|].
  intros _. destruct extracted_date as [ed|]; auto.
  now destruct (datetime_le _ ed).
Qed.

(** C2, amended.  [validate_terms] issues one record for each normalized
    term, in order, whatever the rules are.  When the range check of the
    numeric (resp. date) validator is reached -- the expected value is
    absent or does not match -- and the range has a recognised form ([≥],
    [≤] or a two-sided interval) with a bound that does not parse, the
    verdict is Invalid with the note "Numeric validation error" (resp.
    "Date validation error"). *)
Theorem malformed_bound_gives_error_note :
  (forall extracted_terms master_df,
      map rec_Term (firstn (List.length extracted_terms)
                           (validate_terms extracted_terms master_df)) =
      Dict.keys extracted_terms) /\
  (forall extracted_str expected_value allowed_range x,
      notna allowed_range = true ->
      float_of_decimal (strip_numeric extracted_str) = Some x ->
      (isna expected_value = true \/
       exists y, expected_number expected_value = Some y /\ isclose x y = false) ->
      malformed_number_range (cell_str allowed_range) = true ->
      _validate_number extracted_str expected_value allowed_range =
      (false, Numeric_validation_error)) /\
  (forall extracted_str expected_value allowed_range,
      notna allowed_range = true ->
      (isna expected_value = true \/
       date_eq (dateparser_parse extracted_str)
               (dateparser_parse (cell_str expected_value)) = false) ->
      malformed_date_range (cell_str allowed_range) = true ->
      _validate_date extracted_str expected_value allowed_range =
      (false, Date_validation_error)).
Proof.
  split; [|split].
  - intros extracted_terms master_df. unfold validate_terms.
    rewrite <- (length_map (term_record (master_dict master_df)) extracted_terms).
    rewrite firstn_app, Nat.sub_diag, firstn_all. simpl.
    rewrite app_nil_r, map_map. unfold Dict.keys. apply map_ext.
    intros kv. apply term_record_Term.
  - intros extracted_str expected_value allowed_range x Hr Hx He Hbad.
    unfold _validate_number, validate_number_body.
    rewrite Hx, Hr, (number_range_raises x _ Hbad).
    destruct He as [He|[y [Hy Hclose]]].
    + unfold notna. now rewrite He.
    + rewrite Hy, Hclose. now destruct (notna expected_value).
  - intros extracted_str expected_value allowed_range Hr He Hbad.
    unfold _validate_date, validate_date_body.
    rewrite Hr, (date_range_raises _ _ Hbad).
    destruct He as [He|He].
    + unfold notna. now rewrite He.
    + rewrite He, andb_false_r. reflexivity.
Qed.

End MalformedRanges.

(** ** C3: the three extraction stages *)

Lemma distinct_NoDup l : distinct l = true -> NoDup l.
Proof.
  induction l as [|x l IH]; simpl; intros Hd; constructor.
  - apply andb_prop in Hd. destruct Hd as [Hx _].
    intros Hin. apply negb_true_iff in Hx.
    assert (E : existsb (String.eqb x) l = true).
    { apply existsb_exists. exists x. split; auto. apply String.eqb_refl. }
    congruence.
  - apply IH. apply andb_prop in Hd. tauto.
Qed.

(** the last assignment to a key in a run of assignments *)
Lemma last_write {V} (ws : list (string * V)) k :
  In k (map fst ws) ->
  exists ws1 v ws2,
    ws = (ws1 ++ (k, v) :: ws2)%list /\ forall w, In w ws2 -> fst w <> k.
Proof.
  induction ws as [|[k' v'] ws IH]; simpl; [tauto|].
  intros Hin.
  destruct (in_dec string_dec k (map fst ws)) as [Hlater|Hnot].
  - destruct (IH Hlater) as [ws1 [v [ws2 [E Hlast]]]].
    exists ((k', v') :: ws1), v, ws2. split; auto. simpl. now rewrite E.
  - destruct Hin as [E|Hin]; [|contradiction]. subst k'.
    exists [], v', ws. split; auto.
    intros w Hw E. apply Hnot. rewrite <- E. now apply in_map.
Qed.

Section Stages.
Context `{Collaborators}.
Import Dict DictFacts.

(** All matches of a pattern but the first are without effect. *)
Lemma apply_pattern_first text d kp :
  apply_pattern text d kp =
  if mem (fst kp) d then d
  else match finditer (snd kp) text with
       | [] => d
       | g :: _ => set d (fst kp) (strip g)
       end.
Proof.
  unfold apply_pattern.
  assert (Hkeep : forall gs d0, mem (fst kp) d0 = true ->
            fold_left (fun d1 g => if mem (fst kp) d1 then d1
                                   else set d1 (fst kp) (strip g)) gs d0 = d0).
  { induction gs as [|g gs IH]; simpl; intros d0 Hm; auto.
    rewrite Hm. now apply IH. }
  destruct (mem (fst kp) d) eqn:Hm.
  - now apply Hkeep.
  - destruct (finditer (snd kp) text) as [|g gs]; simpl; auto.
    rewrite Hm. apply Hkeep. unfold mem. now rewrite get_set_same.
Qed.

Lemma apply_pattern_other text d kp k :
  fst kp <> k -> get (apply_pattern text d kp) k = get d k.
Proof.
  intros Hne. rewrite apply_pattern_first.
  destruct (mem (fst kp) d); auto.
  destruct (finditer (snd kp) text); auto.
  now apply get_set_other.
Qed.

Lemma pattern_fold_first text ps : forall d label p,
  NoDup (map fst ps) -> In (label, p) ps -> mem label d = false ->
  get (fold_left (apply_pattern text) ps d) label =
  option_map strip (hd_error (finditer p text)).
Proof.
  induction ps as [|kp ps IH]; simpl; intros d label p Hnd Hin Hm; [tauto|].
  inversion Hnd as [|? ? Hnot Hnd']; subst.
  destruct Hin as [E|Hin].
  - subst kp.
    assert (Hrest : forall qs d0, ~ In label (map fst qs) ->
              get (fold_left (apply_pattern text) qs d0) label = get d0 label).
    { induction qs as [|q qs IHq]; simpl; intros d0 Hq; auto.
      rewrite IHq by tauto. apply apply_pattern_other. tauto. }
    rewrite Hrest by assumption. rewrite apply_pattern_first. simpl.
    rewrite Hm. destruct (finditer p text) as [|g gs]; simpl.
    + unfold mem in Hm. now destruct (get d label).
    + apply get_set_same.
  - apply IH; auto.
    assert (Hne : fst kp <> label).
    { intros E. apply Hnot. rewrite E.
      change label with (fst (label, p)). now apply in_map. }
    unfold mem. rewrite apply_pattern_other by assumption.
    exact Hm.
Qed.

Lemma set_absent_keeps (d : Dict.t string) key x k v :
  mem key d = false -> get d k = Some v -> get (set d key x) k = Some v.
Proof.
  intros Hm Hk. rewrite get_set_other; auto.
  intros E. subst key. unfold mem in Hm. now rewrite Hk in Hm.
Qed.

Lemma entity_stage_keeps text d k v :
  get d k = Some v -> get (entity_stage text d) k = Some v.
Proof.
  unfold entity_stage.
  generalize (nlp_ents (take nlp_limit text)) as ents. intros ents Hk.
  assert (H1 : get (entity_maturity text ents d) k = Some v).
  { unfold entity_maturity.
    destruct (mem "maturity_date" d) eqn:Hm; auto.
    destruct (find _ ents); auto. now apply set_absent_keeps. }
  assert (H2 : get (entity_rate text ents (entity_maturity text ents d)) k
               = Some v).
  { revert H1. generalize (entity_maturity text ents d) as d1. intros d1 H1.
    unfold entity_rate.
    destruct (mem "interest_rate" d1) eqn:Hm; auto.
    destruct (find _ ents); auto. now apply set_absent_keeps. }
  revert H2.
  generalize (entity_rate text ents (entity_maturity text ents d)) as d2.
  intros d2 H2.
  assert (H3 : get (entity_counterparty ents d2) k = Some v).
  { unfold entity_counterparty.
    destruct (mem "counterparty" d2) eqn:Hm; auto.
    destruct (find _ ents); auto. now apply set_absent_keeps. }
  revert H3. generalize (entity_counterparty ents d2) as d3. intros d3 H3.
  unfold entity_principal.
  destruct (mem "principal" d3) eqn:Hm; simpl; auto.
  destruct (mem "loan_amount" d3); auto.
  destruct (find _ ents) as [e|]; auto.
  match goal with |- context [if ?c then _ else _] => destruct c end; auto.
  now apply set_absent_keeps.
Qed.

Lemma line_write_listed text line separator w :
  In line (split LF text) -> In separator separators ->
  line_write line separator = Some w -> In w (line_writes text).
Proof.
  intros Hl Hs Hw. unfold line_writes.
  apply in_flat_map. exists line. split; auto.
  apply in_flat_map. exists separator. split; auto.
  rewrite Hw. now left.
Qed.

(** C3.  [structure_data] runs the pattern stage, then the entity stage,
    then the line-by-line stage.  The pattern stage records under a label
    the first match of its pattern and nothing else; the entity stage
    leaves every value that is already recorded as it is; the line stage
    assigns without looking: when a line and a separator yield a key of
    the vocabulary, the value of that key after [structure_data] is the
    one of the last assignment the line stage makes to it, whatever the
    earlier stages had recorded. *)
Theorem extraction_stage_precedence (text : string) :
  structure_data text = line_stage text (entity_stage text (pattern_stage text)) /\
  (forall label p, In (label, p) patterns ->
     get (pattern_stage text) label =
     option_map strip (hd_error (finditer p text))) /\
  (forall d k v, get d k = Some v -> get (entity_stage text d) k = Some v) /\
  (forall line separator k v,
     In line (split LF text) -> In separator separators ->
     line_write line separator = Some (k, v) ->
     exists ws1 v' ws2,
       line_writes text = (ws1 ++ (k, v') :: ws2)%list /\
       (forall w, In w ws2 -> fst w <> k) /\
       (forall d, get (line_stage text d) k = Some v') /\
       get (structure_data text) k = Some v') /\
  (forall d ws1 k v ws2,
     line_writes text = (ws1 ++ (k, v) :: ws2)%list ->
     (forall w, In w ws2 -> fst w <> k) ->
     get (line_stage text d) k = Some v).
Proof.
  split; [reflexivity|]. split; [|split; [|split]].
  - intros label p Hin. unfold pattern_stage.
    apply pattern_fold_first; auto.
    apply distinct_NoDup. reflexivity.
  - intros d k v. apply entity_stage_keeps.
  - intros line separator k v Hl Hs Hw.
    pose proof (line_write_listed text line separator (k, v) Hl Hs Hw) as Hin.
    assert (Hk : In k (map fst (line_writes text))).
    { change k with (fst (k, v)). now apply in_map. }
    destruct (last_write _ k Hk) as [ws1 [v' [ws2 [E Hlast]]]].
    exists ws1, v', ws2. split; [exact E|]. split; [exact Hlast|].
    assert (Hall : forall d, get (line_stage text d) k = Some v').
    { intros d. unfold line_stage. rewrite E. now apply get_set_all_last. }
    split; [exact Hall|]. apply Hall.
  - intros d ws1 k v ws2 E Hlast. unfold line_stage. rewrite E.
    now apply get_set_all_last.
Qed.

End Stages.

(** ** C5: the fuzzy threshold of [normalize_terms] *)

Lemma lower_ascii_idem c : lower_ascii (lower_ascii c) = lower_ascii c.
Proof. destruct c as [[] [] [] [] [] [] [] []]; reflexivity. Qed.

Lemma lower_idem s : lower (lower s) = lower s.
Proof.
  unfold lower. induction s as [|c s IH]; simpl; auto.
  now rewrite lower_ascii_idem, IH.
Qed.

Section Normalizer.
Context `{Collaborators}.

Lemma fuzzy_step_score dk best mt :
  fuzzy_step dk best mt =
  if (snd best <? score dk mt)%Z && (60 <? score dk mt)%Z
  then (Some mt, score dk mt) else best.
Proof. reflexivity. Qed.

(** entries that do not beat the running score leave it alone *)
Lemma best_fuzzy_keep dk mts best :
  (forall mt, In mt mts -> (score dk mt <= snd best)%Z) ->
  fold_left (fuzzy_step dk) mts best = best.
Proof.
  revert best. induction mts as [|mt mts IH]; simpl; intros best Hle; auto.
  rewrite fuzzy_step_score.
  assert (E : (snd best <? score dk mt)%Z = false).
  { apply Z.ltb_ge. apply Hle. now left. }
  rewrite E. simpl. apply IH. intros u Hu. apply Hle. now right.
Qed.

(** entries at or below the threshold never become the best match *)
Lemma best_fuzzy_below dk mts best :
  (forall mt, In mt mts -> (score dk mt <= 60)%Z) ->
  fold_left (fuzzy_step dk) mts best = best.
Proof.
  revert best. induction mts as [|mt mts IH]; simpl; intros best Hle; auto.
  rewrite fuzzy_step_score.
  assert (E : (60 <? score dk mt)%Z = false).
  { apply Z.ltb_ge. apply Hle. now left. }
  rewrite E, andb_false_r. apply IH. intros u Hu. apply Hle. now right.
Qed.

(** the running score never exceeds a bound on the initial score and on
    the scores met *)
Lemma best_fuzzy_bound dk mts best M :
  (snd best <= M)%Z ->
  (forall mt, In mt mts -> (score dk mt <= M)%Z) ->
  (snd (fold_left (fuzzy_step dk) mts best) <= M)%Z.
Proof.
  revert best. induction mts as [|mt mts IH]; simpl; intros best Hb Hle; auto.
  apply IH.
  - rewrite fuzzy_step_score.
    destruct ((snd best <? score dk mt)%Z && (60 <? score dk mt)%Z); simpl; auto.
  - intros u Hu. apply Hle. now right.
Qed.

(** The first entry that reaches the maximum wins when the maximum
    exceeds 60. *)
Lemma best_fuzzy_first_max dk l1 mt l2 :
  (60 < score dk mt)%Z ->
  (forall u, In u l1 -> (score dk u < score dk mt)%Z) ->
  (forall u, In u l2 -> (score dk u <= score dk mt)%Z) ->
  best_fuzzy dk (l1 ++ mt :: l2) = (Some mt, score dk mt).
Proof.
  intros H60 Hbefore Hafter. unfold best_fuzzy.
  rewrite fold_left_app. simpl.
  assert (Hb : (snd (fold_left (fuzzy_step dk) l1 (None, 0%Z))
                <= score dk mt - 1)%Z).
  { apply best_fuzzy_bound; simpl; [lia|].
    intros u Hu. specialize (Hbefore u Hu). lia. }
  rewrite fuzzy_step_score.
  assert (E1 : (snd (fold_left (fuzzy_step dk) l1 (None, 0%Z))
                <? score dk mt)%Z = true) by (apply Z.ltb_lt; lia).
  assert (E2 : (60 <? score dk mt)%Z = true) by (apply Z.ltb_lt; lia).
  rewrite E1, E2. simpl. now apply best_fuzzy_keep.
Qed.

Lemma exact_match_iff master_df l :
  existsb (String.eqb l) (master_terms master_df) = true <->
  In l (master_terms master_df).
Proof.
  rewrite existsb_exists. split.
  - intros [x [Hx E]]. apply String.eqb_eq in E. now subst.
  - intros Hin. exists l. split; auto. apply String.eqb_refl.
Qed.

(** Line 155 always finds a row: an exact match comes from one. *)
Lemma rows_named_member master_df l :
  In l (master_terms master_df) -> rows_named master_df l <> [].
Proof.
  unfold master_terms, rows_named. intros Hin.
  apply in_map_iff in Hin. destruct Hin as [r [E Hr]].
  intros Hnil.
  assert (Hf : In r (filter (fun r0 => String.eqb (lower (Term r0)) l) master_df)).
  { apply filter_In. split; auto. rewrite E. apply String.eqb_refl. }
  apply (in_map Term) in Hf. rewrite Hnil in Hf. exact Hf.
Qed.

Lemma rows_named_first dk rows1 row rows2 :
  (forall r, In r rows1 -> (score dk (Term r) < score dk (Term row))%Z) ->
  rows_named (rows1 ++ row :: rows2) (lower (Term row)) =
  Term row :: rows_named rows2 (lower (Term row)).
Proof.
  intros Hbefore. unfold rows_named. rewrite filter_app.
  assert (E : filter (fun r => String.eqb (lower (Term r)) (lower (Term row)))
                     rows1 = []).
  { induction rows1 as [|r rows1 IH]; simpl; auto.
    destruct (String.eqb (lower (Term r)) (lower (Term row))) eqn:Er.
    - apply String.eqb_eq in Er.
      assert (Hlt := Hbefore r (or_introl eq_refl)).
      unfold score in Hlt. rewrite Er in Hlt. lia.
    - apply IH. intros r0 Hr0. apply Hbefore. now right. }
  rewrite E. simpl. now rewrite String.eqb_refl.
Qed.

(** C5.  Take an extracted key whose display form has no exact
    case-insensitive match in the vocabulary.  If an entry of the
    vocabulary scores more than 60, scores strictly more than every entry
    before it and at least as much as every entry after it -- the first
    entry to reach the maximum -- the key is mapped to that entry; if no
    entry scores more than 60, the key is mapped to its title-cased display
    form.  So a key that scores 61 on one entry and 0 on the others is
    mapped to that entry, and a key whose best score is 60 falls back.
    Of the similarity this uses one fact: a text that is not empty scores
    at most 60 against the empty text (the library gives 0; two empty texts
    score 100, a case the absence of an exact match excludes). *)
Theorem normalize_fuzzy_threshold (master_df : list Row) (key : string) :
  let display_key := replace_char "_" " " key in
  (forall a, a <> EmptyString -> (fuzz_ratio a EmptyString <= 60)%Z) ->
  ~ In (lower display_key) (master_terms master_df) ->
  (forall rows1 row rows2,
      master_df = (rows1 ++ row :: rows2)%list ->
      (60 < score display_key (Term row))%Z ->
      (forall r, In r rows1 ->
                 (score display_key (Term r) < score display_key (Term row))%Z) ->
      (forall r, In r rows2 ->
                 (score display_key (Term r) <= score display_key (Term row))%Z) ->
      canonical_name master_df key = Term row) /\
  ((forall r, In r master_df -> (score display_key (Term r) <= 60)%Z) ->
   canonical_name master_df key = title display_key) /\
  (forall rows1 row rows2,
      master_df = (rows1 ++ row :: rows2)%list ->
      score display_key (Term row) = 61%Z ->
      (forall r, In r (rows1 ++ rows2) -> score display_key (Term r) = 0%Z) ->
      canonical_name master_df key = Term row).
Proof.
  intros display_key Hempty Hexact.
  assert (Hno : existsb (String.eqb (lower display_key)) (master_terms master_df)
                = false).
  { destruct (existsb _ _) eqn:E; auto.
    apply exact_match_iff in E. contradiction. }
  assert (Hfirst : forall rows1 row rows2,
      master_df = (rows1 ++ row :: rows2)%list ->
      (60 < score display_key (Term row))%Z ->
      (forall r, In r rows1 ->
                 (score display_key (Term r) < score display_key (Term row))%Z) ->
      (forall r, In r rows2 ->
                 (score display_key (Term r) <= score display_key (Term row))%Z) ->
      canonical_name master_df key = Term row).
  { intros rows1 row rows2 E H60 Hbefore Hafter.
    unfold canonical_name. fold display_key. rewrite Hno.
    assert (Hsc : forall T, score display_key (lower T) = score display_key T).
    { intros T. unfold score. now rewrite lower_idem. }
    assert (Hbest : best_fuzzy display_key (master_terms master_df) =
                    (Some (lower (Term row)), score display_key (lower (Term row)))).
    { unfold master_terms. rewrite E, map_app. simpl.
      apply best_fuzzy_first_max.
      - now rewrite Hsc.
      - intros u Hu. apply in_map_iff in Hu. destruct Hu as [r [Eu Hr]].
        subst u. rewrite !Hsc. now apply Hbefore.
      - intros u Hu. apply in_map_iff in Hu. destruct Hu as [r [Eu Hr]].
        subst u. rewrite !Hsc. now apply Hafter. }
    rewrite Hbest. simpl.
    destruct (String.eqb (lower (Term row)) EmptyString) eqn:Ee.
    - apply String.eqb_eq in Ee. exfalso.
      assert (Hne : lower display_key <> EmptyString).
      { intros Hd. apply Hexact. rewrite Hd, <- Ee, E.
        unfold master_terms. apply (in_map (fun r => lower (Term r))).
        apply in_or_app. right. now left. }
      specialize (Hempty (lower display_key) Hne).
      unfold score in H60. rewrite Ee in H60. simpl in H60. lia.
    - rewrite E. now rewrite (rows_named_first display_key). }
  split; [exact Hfirst|]. split.
  - intros Hlow. unfold canonical_name. fold display_key. rewrite Hno.
    unfold best_fuzzy. rewrite best_fuzzy_below; [reflexivity|].
    intros mt Hmt. unfold master_terms in Hmt.
    apply in_map_iff in Hmt. destruct Hmt as [r [E Hr]]. subst mt.
    unfold score. rewrite lower_idem. now apply Hlow.
  - intros rows1 row rows2 E H61 Hzero.
    apply (Hfirst rows1 row rows2 E); rewrite H61; [lia| |].
    + intros r Hr. rewrite (Hzero r); [lia|]. apply in_or_app. now left.
    + intros r Hr. rewrite (Hzero r); [lia|]. apply in_or_app. now right.
Qed.

End Normalizer.

(** ** C6: the fuzzy match of the line stage *)

Section LineHeuristic.
Context `{Collaborators}.

Lemma find_first {A} (p : A -> bool) l1 x l2 :
  p x = true -> (forall u, In u l1 -> p u = false) ->
  find p (l1 ++ x :: l2) = Some x.
Proof.
  intros Hx Hbefore. induction l1 as [|u l1 IH]; simpl.
  - now rewrite Hx.
  - rewrite (Hbefore u) by now left. apply IH.
    intros u' Hu'. apply Hbefore. now right.
Qed.

Lemma find_none {A} (p : A -> bool) l :
  (forall u, In u l -> p u = false) -> find p l = None.
Proof.
  induction l as [|u l IH]; simpl; intros Hall; auto.
  rewrite (Hall u) by now left. apply IH.
  intros u' Hu'. apply Hall. now right.
Qed.

(** A candidate with a value and no direct match is decided by the
    fuzzy search alone. *)
Lemma line_write_unmatched line separator part0 part1 :
  contains separator line = true ->
  split_once separator line = Some (part0, part1) ->
  strip part1 <> EmptyString ->
  direct_match (lower (strip part0)) = false ->
  line_write line separator =
  option_map (fun term => (underscored term, strip part1))
             (fuzzy_term (lower (strip part0))).
Proof.
  intros Hc Hs Hv Hd. unfold line_write. rewrite Hc, Hs, Hd.
  apply String.eqb_neq in Hv. now rewrite Hv.
Qed.

(** C6, amended.  In the line stage, a candidate key with no direct match
    in the vocabulary is recorded under the first entry, in the order of
    the vocabulary, whose similarity to the key is strictly greater than
    65; if no entry exceeds 65 this line and separator write nothing. *)
Theorem line_heuristic_first_above_65
        (line separator part0 part1 : string) :
  let key := lower (strip part0) in
  let value := strip part1 in
  contains separator line = true ->
  split_once separator line = Some (part0, part1) ->
  value <> EmptyString ->
  direct_match key = false ->
  (forall before term after,
      financial_terms = (before ++ term :: after)%list ->
      (65 < fuzz_ratio key term)%Z ->
      (forall u, In u before -> (fuzz_ratio key u <= 65)%Z) ->
      line_write line separator = Some (underscored term, value)) /\
  ((forall u, In u financial_terms -> (fuzz_ratio key u <= 65)%Z) ->
   line_write line separator = None).
Proof.
  intros key value Hc Hs Hv Hd.
  rewrite (line_write_unmatched line separator part0 part1 Hc Hs Hv Hd).
  fold key value. unfold fuzzy_term. split.
  - intros before term after E Hgt Hbefore. rewrite E.
    rewrite (find_first _ before term after); auto.
    + now apply Z.ltb_lt.
    + intros u Hu. apply Z.ltb_ge. now apply Hbefore.
  - intros Hall. rewrite find_none; auto.
    intros u Hu. apply Z.ltb_ge. now apply Hall.
Qed.

End LineHeuristic.

(** ** C7: the text domain *)

Section TextDomain.
Context `{Collaborators}.

(** C7.  In [_validate_text], when the rule has an expected value and the
    extracted value is neither equal to it without regard to case nor
    at least 90 similar to it, the verdict is Invalid with the similarity
    in the note, whatever the allowed range is: the enumeration of allowed
    values is not consulted. *)
Theorem text_mismatch_skips_allowed_values
        (extracted_str : string) (expected_value allowed_range : cell) :
  let expected_str := strip (cell_str expected_value) in
  let similarity := fuzz_ratio (lower extracted_str) (lower expected_str) in
  notna expected_value = true ->
  lower extracted_str <> lower expected_str ->
  (similarity < 90)%Z ->
  _validate_text extracted_str expected_value allowed_range =
  (false, Text_doesnt_match_expected similarity).
Proof.
  intros expected_str similarity Hn Hneq Hsim.
  unfold _validate_text. rewrite Hn. fold expected_str.
  apply String.eqb_neq in Hneq. rewrite Hneq.
  fold similarity.
  assert (E : (90 <=? similarity)%Z = false) by (apply Z.leb_gt; lia).
  now rewrite E.
Qed.

(** Without an expected value the enumeration decides. *)
Lemma text_allowed_values extracted_str allowed_range :
  notna allowed_range = true ->
  contains "|" (cell_str allowed_range) = true ->
  let valid_values := map strip (split "|" (cell_str allowed_range)) in
  _validate_text extracted_str NaN allowed_range =
  if existsb (String.eqb extracted_str) valid_values ||
     existsb (fun v => String.eqb (lower extracted_str) (lower v)) valid_values
  then (true, Text_is_in_allowed_values)
  else (false, Text_is_not_in_allowed_values valid_values).
Proof.
  intros Hn Hc. unfold _validate_text. simpl. now rewrite Hn, Hc.
Qed.

End TextDomain.

(** ** C8 and C10: the numeric domain *)

Section NumericDomain.
Context `{Collaborators}.

Lemma strip_numeric_app a b :
  strip_numeric (a ++ b) = strip_numeric a ++ strip_numeric b.
Proof.
  unfold strip_numeric, remove_char.
  induction a as [|x a IH]; [reflexivity|].
  cbn [append filter_str].
  destruct (negb (Ascii.eqb x ",")); cbn [filter_str]; [|exact IH].
  destruct (is_digit x || Ascii.eqb x "."); cbn [append]; now rewrite IH.
Qed.

(** a character that is neither a digit nor a point leaves no trace *)
Lemma strip_numeric_insert a c b :
  is_digit c = false -> c <> "."%char ->
  strip_numeric (a ++ String c b) = strip_numeric (a ++ b).
Proof.
  intros Hd Hp. rewrite !strip_numeric_app. f_equal.
  unfold strip_numeric, remove_char. cbn [filter_str].
  destruct (negb (Ascii.eqb c ",")); cbn [filter_str]; [|reflexivity].
  apply Ascii.eqb_neq in Hp. now rewrite Hd, Hp.
Qed.

(** C8.  In [_validate_number] the extracted value and an expected value
    given as text are both read through their digits and points only: a
    character that is neither, put anywhere in either of them, changes
    neither the number read nor the verdict.  The two numbers are compared by [np.isclose] with relative
    tolerance 1e-5, computed on doubles: when they are close the verdict is
    Valid, "Number matches expected value"; when they are not, the verdict
    is Valid exactly when the rule has a range and the range check passes,
    and without a range it is Invalid with the note of the mismatch.
    Expected 6.0 with extracted "6.0000001" is Valid, with extracted "6.1"
    it is Invalid unless a range admits 6.1; "6.00006" is the last value of
    this form that is close to 6.0, "6.00006001" is not. *)
Theorem number_expected_value_tolerance :
  (forall a c b expected_value allowed_range,
      is_digit c = false -> c <> "."%char ->
      _validate_number (a ++ String c b) expected_value allowed_range =
      _validate_number (a ++ b) expected_value allowed_range) /\
  (forall extracted_str a c b allowed_range,
      is_digit c = false -> c <> "."%char ->
      expected_number (Str (a ++ String c b)) = expected_number (Str (a ++ b)) /\
      fst (_validate_number extracted_str (Str (a ++ String c b)) allowed_range) =
      fst (_validate_number extracted_str (Str (a ++ b)) allowed_range)) /\
  (forall extracted_str expected_value allowed_range x y,
      float_of_decimal (strip_numeric extracted_str) = Some x ->
      expected_number expected_value = Some y ->
      (isclose x y = true ->
       _validate_number extracted_str expected_value allowed_range =
       (true, Number_matches_expected_value)) /\
      (isclose x y = false ->
       (fst (_validate_number extracted_str expected_value allowed_range) = true
        <-> notna allowed_range = true /\
            exists n, number_range x (cell_str allowed_range)
                      = Some (Some (true, n))) /\
       (isna allowed_range = true ->
        _validate_number extracted_str expected_value allowed_range =
        (false, Number_doesnt_match_expected x expected_value)))) /\
  _validate_number "6.0000001" (Str "6.0") NaN =
    (true, Number_matches_expected_value) /\
  _validate_number "6.0000001" (Num 6) NaN =
    (true, Number_matches_expected_value) /\
  _validate_number "6.0000001%" (Str "$6.0") NaN =
    (true, Number_matches_expected_value) /\
  _validate_number "6.1" (Str "6.0") NaN =
    (false, Number_doesnt_match_expected (61 # 10) (Str "6.0")) /\
  _validate_number "6.1" (Num 6) NaN =
    (false, Number_doesnt_match_expected (61 # 10) (Num 6)) /\
  _validate_number "USD 6.1" (Str "6.0 %") NaN =
    (false, Number_doesnt_match_expected (61 # 10) (Str "6.0 %")) /\
  _validate_number "6.1" (Str "6.0") (Str "4.0-6.0") =
    (false, Number_is_outside_range (40 # 10) (60 # 10)) /\
  _validate_number "6.1" (Str "6.0") (Str "4.0-7.0") =
    (true, Number_is_within_range (40 # 10) (70 # 10)) /\
  _validate_number "6.00006" (Str "6.0") NaN =
    (true, Number_matches_expected_value) /\
  _validate_number "6.00006001" (Str "6.0") NaN =
    (false, Number_doesnt_match_expected (600006001 # 100000000) (Str "6.0")).
Proof.
  split.
  { intros a c b e r Hd Hp. unfold _validate_number, validate_number_body.
    now rewrite (strip_numeric_insert a c b Hd Hp). }
  split.
  { intros s a c b r Hd Hp.
    assert (He : expected_number (Str (a ++ String c b)) =
                 expected_number (Str (a ++ b))).
    { cbn [expected_number]. now rewrite (strip_numeric_insert a c b Hd Hp). }
    split; [exact He|].
    unfold _validate_number, validate_number_body.
    cbn [notna isna negb]. rewrite He.
    destruct (float_of_decimal (strip_numeric s)) as [x|]; [|reflexivity].
    destruct (expected_number (Str (a ++ b))) as [y|]; [|reflexivity].
    destruct (isclose x y); [reflexivity|].
    destruct (notna r); [|reflexivity].
    destruct (number_range x (cell_str r)) as [[v|]|]; reflexivity. }
  split; [|repeat split; vm_compute; reflexivity].
  intros extracted_str expected_value allowed_range x y Hx Hy.
  assert (Hn : notna expected_value = true).
  { destruct expected_value; auto. discriminate. }
  unfold _validate_number, validate_number_body.
  rewrite Hx, Hn, Hy. split.
  - intros Hc. now rewrite Hc.
  - intros Hc. rewrite Hc. split.
    + destruct (notna allowed_range) eqn:Hr.
      * destruct (number_range x (cell_str allowed_range))
          as [[[[|] n]|]|] eqn:Er; cbn [fst].
        -- split; [intros _; split; eauto|reflexivity].
        -- split; [discriminate|].
           intros [_ [n' E]]. discriminate E.
        -- split; [discriminate|].
           intros [_ [n' E]]. discriminate E.
        -- split; [discriminate|].
           intros [_ [n' E]]. discriminate E.
      * cbn [fst]. split; [discriminate|]. intros [E _]. discriminate E.
    + intros Hr. unfold notna. now rewrite Hr.
Qed.

Lemma strip_numeric_minus s :
  strip_numeric (String "-" s) = strip_numeric s.
Proof. reflexivity. Qed.

(** C10.  The stripping of [_validate_number] keeps digits and points
    only, so a minus sign is dropped from the extracted value and from the
    bounds of a range; "-5" is read as 5, and a negative extracted value
    gets the verdict of its absolute value. *)
Theorem number_minus_sign_discarded :
  (forall s, strip_numeric ("-" ++ s) = strip_numeric s) /\
  float_of_decimal (strip_numeric "-5") = Some (inject_Z 5) /\
  (forall s expected_value allowed_range,
      _validate_number ("-" ++ s) expected_value allowed_range =
      _validate_number s expected_value allowed_range) /\
  (forall x bound,
      number_range x (ge_sign ++ "-" ++ bound) = number_range x (ge_sign ++ bound) /\
      number_range x (le_sign ++ "-" ++ bound) = number_range x (le_sign ++ bound)) /\
  _validate_number "-5" NaN (Str "≥3") = (true, Number_is_ge_minimum (inject_Z 3)) /\
  float_accepts (remove_lits ["%"; "$"; "£"; "€"; ","] "-5") = true.
Proof.
  split; [intros s; apply strip_numeric_minus|].
  split; [reflexivity|].
  split.
  { intros s e r. unfold _validate_number, validate_number_body.
    simpl append. now rewrite strip_numeric_minus. }
  split; [|split; reflexivity].
  intros x bound. split; reflexivity.
Qed.

End NumericDomain.

(** ** C9: keys that share a canonical name *)

Section LastWriter.
Context `{Collaborators}.
Import Dict DictFacts.

Lemma normalize_terms_writes terms master_df :
  normalize_terms terms master_df = set_all [] (normalized_writes terms master_df).
Proof.
  unfold normalize_terms, set_all, normalized_writes.
  generalize (@nil (string * string)) as d.
  induction terms as [|kv terms IH]; simpl; intros d; auto.
Qed.

Lemma set_all_app {V} (d : Dict.t V) ws1 ws2 :
  set_all d (ws1 ++ ws2) = set_all (set_all d ws1) ws2.
Proof. unfold set_all. apply fold_left_app. Qed.

Lemma mem_after_write {V} (d : Dict.t V) ws1 k v ws2 :
  mem k (set_all d (ws1 ++ (k, v) :: ws2)) = true.
Proof.
  rewrite set_all_app. change ((k, v) :: ws2) with ([(k, v)] ++ ws2)%list.
  rewrite set_all_app. apply mem_set_all.
  unfold set_all, mem. simpl. now rewrite get_set_same.
Qed.

(** An assignment to a key that is already there does not add an entry. *)
Lemma length_set_all_hit {V} (d : Dict.t V) ws1 k v ws2 :
  mem k (set_all d ws1) = true ->
  List.length (set_all d (ws1 ++ (k, v) :: ws2))
  <= List.length d + List.length ws1 + List.length ws2.
Proof.
  intros Hm. rewrite set_all_app.
  change ((k, v) :: ws2) with ([(k, v)] ++ ws2)%list.
  rewrite set_all_app.
  pose proof (length_set_all ws2 (set_all (set_all d ws1) [(k, v)])) as H2.
  pose proof (length_set_all ws1 d) as H1.
  unfold set_all at 2 in H2. simpl in H2.
  rewrite length_set, Hm in H2.
  unfold set_all at 2. simpl. lia.
Qed.

(** C9.  The normalized mapping has one entry for each canonical name and
    no more entries than the extracted mapping.  When two distinct
    extracted keys have the same canonical name, the entry of that name
    holds the value of the key that comes last among the keys with that
    name, and the normalized mapping has fewer entries than the extracted
    one. *)
Theorem normalize_last_writer_wins (terms : Dict.t string) (master_df : list Row) :
  NoDup (keys (normalize_terms terms master_df)) /\
  List.length (normalize_terms terms master_df) <= List.length terms /\
  (forall l1 k1 v1 l2 k2 v2 l3,
      terms = (l1 ++ (k1, v1) :: l2 ++ (k2, v2) :: l3)%list ->
      k1 <> k2 ->
      canonical_name master_df k1 = canonical_name master_df k2 ->
      (forall kv, In kv l3 ->
                  canonical_name master_df (fst kv) <> canonical_name master_df k2) ->
      get (normalize_terms terms master_df) (canonical_name master_df k2) = Some v2 /\
      List.length (normalize_terms terms master_df) < List.length terms).
Proof.
  rewrite normalize_terms_writes. split; [|split].
  - apply NoDup_set_all. constructor.
  - pose proof (length_set_all (normalized_writes terms master_df)
                               (@nil (string * string))) as Hl.
    unfold normalized_writes in *. rewrite length_map in Hl. simpl in Hl.
    exact Hl.
  - intros l1 k1 v1 l2 k2 v2 l3 E Hdiff Hsame Hlast.
    set (n := canonical_name master_df k2) in *.
    set (f := fun kv : string * string =>
                (canonical_name master_df (fst kv), snd kv)).
    assert (Hw : normalized_writes terms master_df =
                 ((map f l1 ++ (n, v1) :: map f l2) ++ (n, v2) :: map f l3)%list).
    { unfold normalized_writes. fold f. rewrite E.
      rewrite map_app. simpl. rewrite map_app. simpl.
      unfold f at 2 4. simpl. rewrite Hsame. fold n.
      now rewrite <- app_assoc. }
    rewrite Hw. split.
    + apply get_set_all_last. intros w Hin.
      apply in_map_iff in Hin. destruct Hin as [kv [Ew Hkv]]. subst w.
      simpl. now apply Hlast.
    + pose proof (length_set_all_hit (@nil (string * string))
                    (map f l1 ++ (n, v1) :: map f l2)%list n v2 (map f l3)
                    (mem_after_write [] (map f l1) n v1 (map f l2))) as Hl.
      rewrite E. rewrite !length_app in *. simpl in *.
      rewrite !length_app in *. simpl in *. rewrite !length_map in Hl. lia.
Qed.

End LastWriter.

(** ** C4: the end-to-end scenario *)

Lemma drop_all s : forall n, String.length s <= n -> drop n s = EmptyString.
Proof.
  induction s as [|c s IH]; intros [|n] Hn; simpl in *; auto; try lia.
  apply IH. lia.
Qed.

Lemma take_all s : forall n, String.length s <= n -> take n s = s.
Proof.
  induction s as [|c s IH]; intros [|n] Hn; simpl in *; auto; try lia.
  rewrite IH; auto. lia.
Qed.

Lemma take_empty n : take n EmptyString = EmptyString.
Proof. now destruct n. Qed.

Lemma below_bound (P : nat -> bool) (bound : nat) :
  forallb P (seq 0 bound) = true -> forall n, n < bound -> P n = true.
Proof.
  intros Hall n Hn. rewrite forallb_forall in Hall.
  apply Hall. apply in_seq. lia.
Qed.

Section Scenario.
Context `{Collaborators}.
Import Dict DictFacts.

(** No stretch of the scenario text speaks of a principal or an amount. *)
Lemma scenario_no_amount start :
  context_has scenario_text 30 start ["principal"; "amount"] = false.
Proof.
  destruct (Nat.lt_ge_cases start 80) as [Hlt|Hge].
  - apply negb_true_iff.
    apply (below_bound
             (fun n => negb (context_has scenario_text 30 n ["principal"; "amount"]))
             80); [vm_compute; reflexivity|exact Hlt].
  - unfold context_has, slice.
    rewrite (drop_all scenario_text)
      by (change (String.length scenario_text) with 45; lia).
    now rewrite take_empty.
Qed.

Lemma scenario_pattern_stage :
  pattern_stage scenario_text =
  [("interest_rate", "5.5"); ("maturity_date", "2030-01-01")].
Proof. vm_compute. reflexivity. Qed.

Lemma scenario_entity_stage :
  (forall e, In e (nlp_ents (take nlp_limit scenario_text)) -> label_ e <> "ORG") ->
  entity_stage scenario_text (pattern_stage scenario_text) =
  pattern_stage scenario_text.
Proof.
  intros Hents. rewrite scenario_pattern_stage. unfold entity_stage.
  generalize dependent (nlp_ents (take nlp_limit scenario_text)).
  intros ents Hents.
  change (entity_maturity scenario_text ents
            [("interest_rate", "5.5"); ("maturity_date", "2030-01-01")])
    with [("interest_rate", "5.5"); ("maturity_date", "2030-01-01")].
  change (entity_rate scenario_text ents
            [("interest_rate", "5.5"); ("maturity_date", "2030-01-01")])
    with [("interest_rate", "5.5"); ("maturity_date", "2030-01-01")].
  assert (Horg : find (fun e => String.eqb (label_ e) "ORG") ents = None).
  { apply find_none. intros e He. apply String.eqb_neq. now apply Hents. }
  unfold entity_counterparty. rewrite Horg.
  change (mem "counterparty"
              [("interest_rate", "5.5"); ("maturity_date", "2030-01-01")])
    with false. cbv iota.
  unfold entity_principal.
  change (mem "principal"
              [("interest_rate", "5.5"); ("maturity_date", "2030-01-01")] ||
          mem "loan_amount"
              [("interest_rate", "5.5"); ("maturity_date", "2030-01-01")])
    with false. cbv iota.
  clear Horg. destruct (find _ ents) as [e|]; auto.
  now rewrite scenario_no_amount.
Qed.

Lemma scenario_fuzzy_term :
  (fuzz_ratio "maturity date: 2030" "interest rate" <= 65)%Z ->
  (65 < fuzz_ratio "maturity date: 2030" "maturity date")%Z ->
  fuzzy_term "maturity date: 2030" = Some "maturity date".
Proof.
  intros H1 H2. unfold fuzzy_term.
  apply (find_first _ ["interest rate"] "maturity date"
                    (skipn 2 financial_terms)).
  - now apply Z.ltb_lt.
  - intros u [E|[]]. subst u. now apply Z.ltb_ge.
Qed.

(** The second line is split a second time, at the hyphen of its date. *)
Lemma scenario_line_writes :
  (fuzz_ratio "maturity date: 2030" "interest rate" <= 65)%Z ->
  (65 < fuzz_ratio "maturity date: 2030" "maturity date")%Z ->
  line_writes scenario_text =
  [("interest_rate", "5.5%"); ("maturity_date", "2030-01-01");
   ("maturity_date", "01-01")].
Proof.
  intros H1 H2. unfold line_writes.
  change (split LF scenario_text)
    with ["Interest Rate: 5.5%"; "Maturity Date: 2030-01-01"].
  cbn [flat_map separators app].
  change (line_write "Interest Rate: 5.5%" ":")
    with (Some ("interest_rate", "5.5%")).
  change (line_write "Interest Rate: 5.5%" "-") with (@None (string * string)).
  change (line_write "Interest Rate: 5.5%" "=") with (@None (string * string)).
  change (line_write "Maturity Date: 2030-01-01" ":")
    with (Some ("maturity_date", "2030-01-01")).
  change (line_write "Maturity Date: 2030-01-01" "=")
    with (@None (string * string)).
  rewrite (line_write_unmatched "Maturity Date: 2030-01-01" "-"
                                "Maturity Date: 2030" "01-01");
    [|reflexivity|reflexivity|discriminate|reflexivity].
  change (lower (strip "Maturity Date: 2030")) with "maturity date: 2030".
  rewrite (scenario_fuzzy_term H1 H2). reflexivity.
Qed.

Lemma scenario_structure_data :
  (forall e, In e (nlp_ents (take nlp_limit scenario_text)) -> label_ e <> "ORG") ->
  (fuzz_ratio "maturity date: 2030" "interest rate" <= 65)%Z ->
  (65 < fuzz_ratio "maturity date: 2030" "maturity date")%Z ->
  structure_data scenario_text =
  [("interest_rate", "5.5%"); ("maturity_date", "01-01")].
Proof.
  intros Hents H1 H2. unfold structure_data, line_stage.
  rewrite (scenario_entity_stage Hents), scenario_pattern_stage.
  rewrite (scenario_line_writes H1 H2). reflexivity.
Qed.

Lemma scenario_normalize_terms :
  normalize_terms [("interest_rate", "5.5%"); ("maturity_date", "01-01")]
                  scenario_rules =
  [("Interest Rate", "5.5%"); ("Maturity Date", "01-01")].
Proof. reflexivity. Qed.

Lemma term_record_known md k v e r :
  get md k = Some (e, r) ->
  term_record md (k, v) =
  mkRecord k v (if fst (_validate_value v e r) then Valid else Invalid) e r
           (snd (_validate_value v e r)).
Proof.
  intros Hk. unfold term_record. rewrite Hk.
  now destruct (_validate_value v e r).
Qed.

(** The verdict on the value left for the maturity date. *)
Lemma scenario_maturity_verdict :
  _validate_value "01-01" NaN (Str "≥2025-01-01") =
  if date_parse "01-01" then
    match dateparser_parse "2025-01-01", dateparser_parse "01-01" with
    | Some d0, Some d =>
        if datetime_le d0 d
        then (true, Date_is_after_minimum (strftime_ymd d0))
        else (false, Date_is_before_minimum (strftime_ymd d0))
    | _, _ => (false, Date_validation_error)
    end
  else (true, No_specific_text_validation_rules).
Proof.
  unfold _validate_value.
  change (isna NaN && isna (Str "≥2025-01-01")) with false. cbv iota.
  change (strip "01-01") with "01-01".
  unfold _determine_value_type.
  destruct (date_parse "01-01").
  - unfold _validate_date, validate_date_body.
    change (notna NaN) with false. cbn [andb].
    change (notna (Str "≥2025-01-01")) with true. cbv iota.
    cbn [cell_str]. unfold date_range.
    change (startswith ge_sign "≥2025-01-01") with true. cbv iota.
    change (drop (String.length ge_sign) "≥2025-01-01") with "2025-01-01".
    unfold date_le, strftime.
    destruct (dateparser_parse "2025-01-01") as [d0|]; [|reflexivity].
    destruct (dateparser_parse "01-01") as [d|]; [|reflexivity].
    now destruct (datetime_le d0 d).
  - reflexivity.
Qed.

Lemma scenario_interest_verdict :
  date_parse "5.5%" = false ->
  _validate_value "5.5%" (Str "5.5") (Str "4.0-6.0") =
  (true, Number_matches_expected_value).
Proof.
  intros Hdp. unfold _validate_value.
  change (isna (Str "5.5") && isna (Str "4.0-6.0")) with false. cbv iota.
  change (strip "5.5%") with "5.5%".
  unfold _determine_value_type. rewrite Hdp. reflexivity.
Qed.

Lemma scenario_validate :
  (forall e, In e (nlp_ents (take nlp_limit scenario_text)) -> label_ e <> "ORG") ->
  (fuzz_ratio "maturity date: 2030" "interest rate" <= 65)%Z ->
  (65 < fuzz_ratio "maturity date: 2030" "maturity date")%Z ->
  validate scenario_text scenario_rules =
  [ mkRecord "Interest Rate" "5.5%"
      (if fst (_validate_value "5.5%" (Str "5.5") (Str "4.0-6.0"))
       then Valid else Invalid)
      (Str "5.5") (Str "4.0-6.0")
      (snd (_validate_value "5.5%" (Str "5.5") (Str "4.0-6.0")));
    mkRecord "Maturity Date" "01-01"
      (if fst (_validate_value "01-01" NaN (Str "≥2025-01-01"))
       then Valid else Invalid)
      NaN (Str "≥2025-01-01")
      (snd (_validate_value "01-01" NaN (Str "≥2025-01-01"))) ].
Proof.
  intros Hents H1 H2. unfold validate.
  rewrite (scenario_structure_data Hents H1 H2), scenario_normalize_terms.
  set (md := master_dict scenario_rules).
  rewrite <- (term_record_known md "Interest Rate" "5.5%"
                                (Str "5.5") (Str "4.0-6.0") eq_refl).
  rewrite <- (term_record_known md "Maturity Date" "01-01"
                                NaN (Str "≥2025-01-01") eq_refl).
  reflexivity.
Qed.

(** C4.  On the text "Interest Rate: 5.5%" / "Maturity Date: 2030-01-01"
    with the rules (Interest Rate, expected 5.5, range 4.0-6.0) and
    (Maturity Date, range ≥2025-01-01) the run returns exactly two records.
    The first is the Interest Rate record for "5.5%", Valid.  The second,
    for Maturity Date, is not about "2030-01-01": the line stage splits the
    second line again at the first hyphen of its date and overwrites the
    value with "01-01".  That record is Valid exactly when "01-01" is not
    taken for a date by dateutil, or is read by dateparser as a date that
    is not before the one it reads from "2025-01-01"; otherwise it is
    Invalid.  Both records are Valid only under that condition on the date
    libraries, which the year in progress decides.  This holds for
    collaborators such that the entity recogniser reports no organisation
    in the text, the similarity of "maturity date: 2030" is above 65 with
    "maturity date" and not with "interest rate", and dateutil does not
    take "5.5%" for a date. *)
Theorem scenario_maturity_date_resplit :
  (forall e, In e (nlp_ents (take nlp_limit scenario_text)) -> label_ e <> "ORG") ->
  (fuzz_ratio "maturity date: 2030" "interest rate" <= 65)%Z ->
  (65 < fuzz_ratio "maturity date: 2030" "maturity date")%Z ->
  date_parse "5.5%" = false ->
  get (pattern_stage scenario_text) "maturity_date" = Some "2030-01-01" /\
  structure_data scenario_text =
    [("interest_rate", "5.5%"); ("maturity_date", "01-01")] /\
  exists r1 r2,
    validate scenario_text scenario_rules = [r1; r2] /\
    rec_Term r1 = "Interest Rate" /\ Extracted_Value r1 = "5.5%" /\
    Status r1 = Valid /\
    rec_Term r2 = "Maturity Date" /\ Extracted_Value r2 = "01-01" /\
    (Status r2 = Valid \/ Status r2 = Invalid) /\
    (Status r2 = Valid <->
     date_parse "01-01" = false \/
     exists d0 d,
       dateparser_parse "2025-01-01" = Some d0 /\
       dateparser_parse "01-01" = Some d /\
       datetime_le d0 d = true).
Proof.
  intros Hents H1 H2 Hrate.
  split; [now rewrite scenario_pattern_stage|].
  split; [exact (scenario_structure_data Hents H1 H2)|].
  rewrite (scenario_validate Hents H1 H2).
  eexists. eexists. split; [reflexivity|].
  cbn [rec_Term Extracted_Value Status].
  rewrite (scenario_interest_verdict Hrate).
  repeat (split; [reflexivity|]).
  rewrite scenario_maturity_verdict.
  destruct (date_parse "01-01").
  - destruct (dateparser_parse "2025-01-01") as [d0|].
    + destruct (dateparser_parse "01-01") as [d|].
      * destruct (datetime_le d0 d) eqn:Hle; cbn [fst];
          (split; [auto|]); split.
        -- intros _. right. now exists d0, d.
        -- reflexivity.
        -- discriminate.
        -- intros [Hf|[x [y [E1 [E2 Hxy]]]]]; [discriminate|].
           inversion E1; inversion E2; subst. congruence.
      * cbn [fst]. split; [auto|]. split; [discriminate|].
        intros [Hf|[x [y [_ [E2 _]]]]]; discriminate.
    + cbn [fst]. split; [auto|]. split; [discriminate|].
      intros [Hf|[x [y [E1 _]]]]; discriminate.
  - cbn [fst]. split; [auto|]. split; [now left|reflexivity].
Qed.

End Scenario.

(** * The code on concrete inputs *)

Module Runs.
Import Reference Dict Inputs.

Lemma indel_ratio_empty a :
  a <> EmptyString -> (indel_ratio a EmptyString <= 60)%Z.
Proof.
  intros Hne. unfold indel_ratio.
  apply String.eqb_neq in Hne. rewrite Hne, orb_true_r. discriminate.
Qed.

(** The scenario of C4 run in 2026 and in 2024: the Maturity Date record is
    about "01-01" and follows the year in progress; in 2024 it is Invalid. *)
Lemma scenario_run_2026 :
  @validate R26 scenario_text scenario_rules =
  [ mkRecord "Interest Rate" "5.5%" Valid (Str "5.5") (Str "4.0-6.0")
             Number_matches_expected_value;
    mkRecord "Maturity Date" "01-01" Valid NaN (Str "≥2025-01-01")
             (Date_is_after_minimum "2025-01-01") ].
Proof. vm_compute. reflexivity. Qed.

Lemma scenario_run_2024 :
  @validate R24 scenario_text scenario_rules =
  [ mkRecord "Interest Rate" "5.5%" Valid (Str "5.5") (Str "4.0-6.0")
             Number_matches_expected_value;
    mkRecord "Maturity Date" "01-01" Invalid NaN (Str "≥2025-01-01")
             (Date_is_before_minimum "2025-01-01") ].
Proof. vm_compute. reflexivity. Qed.

(** C1 on a sheet with the terms Maturity Date and Principal when only
    Principal was extracted. *)
Lemma validate_terms_one_record_per_rule_witness :
  NoDup (keys sample_extracted) /\
  exists rule,
    get (master_dict sample_master) "Maturity Date" = Some rule /\
    records_for "Maturity Date" (@validate_terms R26 sample_extracted sample_master) =
    [mkRecord "Maturity Date" "Missing" Invalid (fst rule) (snd rule)
              Term_not_found_in_document].
Proof.
  split.
  - apply distinct_NoDup. reflexivity.
  - exact (proj1 (@validate_terms_one_record_per_rule
                    R26 sample_extracted sample_master
                    (distinct_NoDup (keys sample_extracted) eq_refl))
                 "Maturity Date" (or_introl eq_refl)).
Defined.

(** C2 as stated fails: an interval of two ISO dates written with a hyphen
    splits into six parts, the range is passed over and the record is Valid
    without any note of an error, for a date outside the interval; a
    numeric range in words is passed over in the same way; and a bound that
    does not parse goes unnoticed when the expected value matches. *)
Lemma unparsed_range_is_ignored :
  @validate_terms R26 [("Maturity Date", "2030-01-01")]
                  [mkRow "Maturity Date" NaN (Str "2023-01-01-2025-12-31")] =
  [mkRecord "Maturity Date" "2030-01-01" Valid NaN (Str "2023-01-01-2025-12-31")
            No_specific_date_validation_rules] /\
  @validate_terms R26 [("Interest Rate", "9.9%")]
                  [mkRow "Interest Rate" NaN (Str "4.0 to 6.0")] =
  [mkRecord "Interest Rate" "9.9%" Valid NaN (Str "4.0 to 6.0")
            No_specific_numeric_validation_rules] /\
  @validate_terms R26 [("Interest Rate", "5%")]
                  [mkRow "Interest Rate" (Str "5") (Str "≥abc")] =
  [mkRecord "Interest Rate" "5%" Valid (Str "5") (Str "≥abc")
            Number_matches_expected_value].
Proof. repeat split; vm_compute; reflexivity. Qed.

Lemma malformed_bound_gives_error_note_witness :
  @_validate_number R26 "5%" NaN (Str "≥abc") = (false, Numeric_validation_error).
Proof.
  apply (proj1 (proj2 (@malformed_bound_gives_error_note R26)))
    with (x := inject_Z 5).
  - reflexivity.
  - reflexivity.
  - left. reflexivity.
  - reflexivity.
Defined.

Lemma extraction_stage_precedence_witness :
  exists ws1 v' ws2,
    @line_writes R26 scenario_text =
      (ws1 ++ ("interest_rate", v') :: ws2)%list /\
    (forall w, In w ws2 -> fst w <> "interest_rate") /\
    (forall d, get (@line_stage R26 scenario_text d) "interest_rate" = Some v') /\
    get (@structure_data R26 scenario_text) "interest_rate" = Some v'.
Proof.
  apply (proj1 (proj2 (proj2 (proj2
                 (@extraction_stage_precedence R26 scenario_text))))
               "Interest Rate: 5.5%" ":" "interest_rate" "5.5%").
  - left. reflexivity.
  - left. reflexivity.
  - reflexivity.
Defined.

(** The year written in the document plays no part: with 2020 in place of
    2030 the date is before the minimum of the rule, and the record of 2026
    is Valid all the same. *)
Lemma scenario_year_is_not_read :
  @structure_data R26 ("Interest Rate: 5.5%" ++ LF ++ "Maturity Date: 2020-01-01")
  = [("interest_rate", "5.5%"); ("maturity_date", "01-01")] /\
  @validate R26 ("Interest Rate: 5.5%" ++ LF ++ "Maturity Date: 2020-01-01")
            scenario_rules =
  [ mkRecord "Interest Rate" "5.5%" Valid (Str "5.5") (Str "4.0-6.0")
             Number_matches_expected_value;
    mkRecord "Maturity Date" "01-01" Valid NaN (Str "≥2025-01-01")
             (Date_is_after_minimum "2025-01-01") ].
Proof. split; vm_compute; reflexivity. Qed.

Lemma scenario_maturity_date_resplit_witness :
  exists r1 r2,
    @validate R24 scenario_text scenario_rules = [r1; r2] /\
    rec_Term r1 = "Interest Rate" /\ Extracted_Value r1 = "5.5%" /\
    Status r1 = Valid /\
    rec_Term r2 = "Maturity Date" /\ Extracted_Value r2 = "01-01" /\
    (Status r2 = Valid \/ Status r2 = Invalid) /\
    (Status r2 = Valid <->
     @date_parse R24 "01-01" = false \/
     exists d0 d,
       @dateparser_parse R24 "2025-01-01" = Some d0 /\
       @dateparser_parse R24 "01-01" = Some d /\
       datetime_le d0 d = true).
Proof.
  apply (@scenario_maturity_date_resplit R24).
  - intros e [].
  - vm_compute. discriminate.
  - vm_compute. reflexivity.
  - reflexivity.
Defined.

Lemma normalize_fuzzy_threshold_witness :
  @canonical_name R26 two_rules "interest_rat" = "Interest Rate".
Proof.
  assert (Hnot : ~ In (lower (replace_char "_" " " "interest_rat"))
                      (master_terms two_rules)).
  { simpl. intuition discriminate. }
  apply (proj1 (@normalize_fuzzy_threshold R26 two_rules "interest_rat"
                  indel_ratio_empty Hnot)
               [] (mkRow "Interest Rate" NaN NaN) [mkRow "Maturity Date" NaN NaN]).
  - reflexivity.
  - vm_compute. reflexivity.
  - intros r [].
  - intros r [E|[]]. subst r. vm_compute. discriminate.
Defined.

(** C6 as stated fails: "defaults" is recorded under "default rate", the
    first entry above 65 (similarity 70), although "default" further down
    the vocabulary scores 93; and a key whose best similarity is exactly 65
    is not recorded at all. *)
Lemma line_heuristic_not_best_score :
  @line_write R26 "Defaults: 3" ":" = Some ("default_rate", "3") /\
  @fuzz_ratio R26 "defaults" "default rate" = 70%Z /\
  @fuzz_ratio R26 "defaults" "default" = 93%Z /\
  @line_write R26 "interest rxxxxxxxx: 5" ":" = None /\
  @fuzz_ratio R26 "interest rxxxxxxxx" "interest rate" = 65%Z.
Proof. repeat split; vm_compute; reflexivity. Qed.

Lemma line_heuristic_first_above_65_witness :
  @line_write R26 "Defaults: 3" ":" = Some ("default_rate", "3").
Proof.
  assert (Hv : strip " 3" <> EmptyString) by discriminate.
  apply (proj1 (@line_heuristic_first_above_65 R26 "Defaults: 3" ":"
                  "Defaults" " 3" eq_refl eq_refl Hv eq_refl)
               (firstn 8 financial_terms) "default rate"
               (skipn 9 financial_terms)).
  - reflexivity.
  - vm_compute. reflexivity.
  - intros u Hu. apply Z.leb_le. revert u Hu. apply forallb_forall.
    vm_compute. reflexivity.
Defined.

(** C7 at a value of the enumeration that is not the expected value. *)
Lemma text_mismatch_skips_allowed_values_witness :
  @_validate_text R26 "Delaware" (Str "New York") (Str "New York|Delaware") =
  (false, Text_doesnt_match_expected 38).
Proof.
  apply (@text_mismatch_skips_allowed_values R26 "Delaware" (Str "New York")
           (Str "New York|Delaware")).
  - reflexivity.
  - discriminate.
  - vm_compute. reflexivity.
Defined.

(** The same input through [validate_terms]. *)
Lemma governing_law_run :
  @validate_terms R26 [("Governing Law", "Delaware")]
                  [mkRow "Governing Law" (Str "New York") (Str "New York|Delaware")] =
  [mkRecord "Governing Law" "Delaware" Invalid (Str "New York")
            (Str "New York|Delaware") (Text_doesnt_match_expected 38)].
Proof. vm_compute. reflexivity. Qed.

(** The same value without an expected value in the rule. *)
Lemma text_allowed_without_expected :
  @_validate_text R26 "Delaware" NaN (Str "New York|Delaware") =
  (true, Text_is_in_allowed_values).
Proof. vm_compute. reflexivity. Qed.

Lemma number_expected_value_tolerance_witness :
  @_validate_number R26 "6.0000001" (Str "6.0") NaN =
  (true, Number_matches_expected_value).
Proof.
  apply (proj1 (proj2 (proj2 (@number_expected_value_tolerance R26))))
    with (x := 60000001 # 10000000) (y := 60 # 10).
  - reflexivity.
  - reflexivity.
  - vm_compute. reflexivity.
Defined.

Lemma normalize_last_writer_wins_witness :
  get (@normalize_terms R26 colliding_terms two_rules) "Interest Rate" = Some "6" /\
  List.length (@normalize_terms R26 colliding_terms two_rules)
  < List.length colliding_terms.
Proof.
  apply (proj2 (proj2 (@normalize_last_writer_wins R26 colliding_terms two_rules))
               [] "interest_rate" "5" [] "interest_rat" "6" []).
  - reflexivity.
  - discriminate.
  - vm_compute. reflexivity.
  - intros kv [].
Defined.

End Runs.


(** * Further properties of the code *)

(** ** Strings *)

Module PyStrFacts.

Lemma append_nil_r s : s ++ EmptyString = s.
Proof. induction s as [|c s IH]; simpl; congruence. Qed.

Lemma append_assoc a b c : (a ++ b) ++ c = a ++ (b ++ c).
Proof. induction a as [|x a IH]; simpl; congruence. Qed.

Lemma rev_app_spec s : forall acc, rev_app s acc = rev s ++ acc.
Proof.
  unfold rev. induction s as [|c s IH]; simpl; intros acc; auto.
  rewrite IH, (IH (String c EmptyString)), append_assoc. reflexivity.
Qed.

Lemma rev_cons c s : rev (String c s) = rev s ++ String c EmptyString.
Proof. unfold rev at 1. simpl. apply rev_app_spec. Qed.

Lemma rev_append a b : rev (a ++ b) = rev b ++ rev a.
Proof.
  induction a as [|c a IH]; simpl.
  - now rewrite append_nil_r.
  - now rewrite !rev_cons, IH, append_assoc.
Qed.

Lemma rev_involutive s : rev (rev s) = s.
Proof.
  induction s as [|c s IH]; auto.
  rewrite rev_cons, rev_append, IH. reflexivity.
Qed.

Lemma map_str_append f a b : map_str f (a ++ b) = map_str f a ++ map_str f b.
Proof. induction a as [|c a IH]; simpl; congruence. Qed.

Lemma filter_str_append f a b :
  filter_str f (a ++ b) = filter_str f a ++ filter_str f b.
Proof.
  induction a as [|c a IH]; simpl; auto.
  destruct (f c); simpl; congruence.
Qed.

Lemma lower_upper_ascii c : lower_ascii (upper_ascii c) = lower_ascii c.
Proof. destruct c as [[] [] [] [] [] [] [] []]; reflexivity. Qed.

Lemma alpha_lower_ascii c : is_alpha (lower_ascii c) = is_alpha c.
Proof. destruct c as [[] [] [] [] [] [] [] []]; reflexivity. Qed.

Lemma alpha_upper_ascii c : is_alpha (upper_ascii c) = is_alpha c.
Proof. destruct c as [[] [] [] [] [] [] [] []]; reflexivity. Qed.

Lemma upper_upper_ascii c : upper_ascii (upper_ascii c) = upper_ascii c.
Proof. destruct c as [[] [] [] [] [] [] [] []]; reflexivity. Qed.

(** Title-casing changes the case of letters and nothing else. *)
Lemma lower_title_aux s : forall b, lower (title_aux b s) = lower s.
Proof.
  unfold lower. induction s as [|c s IH]; simpl; intros b; auto.
  destruct (is_alpha c); simpl; rewrite IH; auto.
  destruct b; now rewrite ?lower_ascii_idem, ?lower_upper_ascii.
Qed.

Lemma lower_title s : lower (title s) = lower s.
Proof. apply lower_title_aux. Qed.

Lemma title_aux_idem s : forall b, title_aux b (title_aux b s) = title_aux b s.
Proof.
  induction s as [|c s IH]; simpl; intros b; auto.
  destruct (is_alpha c) eqn:Ea; simpl.
  - destruct b.
    + rewrite alpha_lower_ascii, Ea, lower_ascii_idem, IH. reflexivity.
    + rewrite alpha_upper_ascii, Ea, upper_upper_ascii, IH. reflexivity.
  - now rewrite Ea, IH.
Qed.

Lemma title_idem s : title (title s) = title s.
Proof. apply title_aux_idem. Qed.

Lemma replace_underscore_idem s :
  replace_char "_" " " (replace_char "_" " " s) = replace_char "_" " " s.
Proof.
  unfold replace_char. induction s as [|c s IH]; simpl; auto.
  rewrite IH. destruct (Ascii.eqb c "_") eqn:E; auto. now rewrite E.
Qed.

Lemma replace_underscore_title_aux s : forall b,
  replace_char "_" " " s = s ->
  replace_char "_" " " (title_aux b s) = title_aux b s.
Proof.
  unfold replace_char. induction s as [|c s IH]; simpl; intros b E; auto.
  injection E as Ec Es.
  destruct (is_alpha c) eqn:Ea; simpl; f_equal; auto.
  destruct c as [[] [] [] [] [] [] [] []]; destruct b;
    try discriminate Ea; reflexivity.
Qed.

Lemma replace_underscore_absent s :
  contains "_" s = false -> replace_char "_" " " s = s.
Proof.
  unfold replace_char. induction s as [|c s IH]; intros Hc; auto.
  change (contains "_" (String c s))
    with (startswith "_" (String c s) || contains "_" s) in Hc.
  apply orb_false_iff in Hc. destruct Hc as [Hc Hs].
  simpl. rewrite (IH Hs).
  destruct (Ascii.eqb c "_") eqn:E; auto.
  apply Ascii.eqb_eq in E. subst c. simpl in Hc. discriminate.
Qed.

End PyStrFacts.

(** ** Dictionaries built by runs of assignments *)

Section Assignments.
Import Dict DictFacts.
Context {V : Type}.

Lemma first_occurrences_sound seen l x :
  In x (first_occurrences seen l) -> In x l /\ ~ In x seen.
Proof.
  revert seen. induction l as [|t l IH]; simpl; intros seen Hin; [tauto|].
  destruct (existsb (String.eqb t) seen) eqn:E.
  - destruct (IH _ Hin). tauto.
  - destruct Hin as [Ex|Hin].
    + subst x. split; [now left|].
      intros Hs. apply existsb_eqb_In in Hs. congruence.
    + destruct (IH _ Hin) as [Hl Hs]. split; [now right|].
      intros Hx. apply Hs. apply in_or_app. now left.
Qed.

(** The keys after a run of assignments: the keys before, then the new
    keys in the order of their first assignment. *)
Lemma keys_set_all (ws : list (string * V)) : forall d : Dict.t V,
  keys (set_all d ws) =
  (keys d ++ first_occurrences (keys d) (map fst ws))%list.
Proof.
  unfold set_all.
  induction ws as [|w ws IH]; simpl; intros d.
  - now rewrite app_nil_r.
  - rewrite IH, keys_set.
    destruct (mem (fst w) d) eqn:E.
    + apply mem_In in E. apply existsb_eqb_In in E. now rewrite E.
    + apply mem_false in E.
      destruct (existsb (String.eqb (fst w)) (keys d)) eqn:E'.
      * apply existsb_eqb_In in E'. contradiction.
      * now rewrite <- app_assoc.
Qed.

Lemma get_Some_In (d : Dict.t V) k v : get d k = Some v -> In (k, v) d.
Proof.
  induction d as [|[k' v'] d IH]; simpl; [discriminate|].
  destruct (String.eqb k' k) eqn:E; auto.
  apply String.eqb_eq in E. subst k'. intros Hv. left. congruence.
Qed.

Lemma set_absent (d : Dict.t V) k v :
  mem k d = false -> set d k v = (d ++ [(k, v)])%list.
Proof.
  unfold mem. induction d as [|[k' v'] d IH]; simpl; auto.
  destruct (String.eqb k' k); [discriminate|].
  intros Hm. now rewrite IH.
Qed.

(** Assigning the entries of a dictionary one by one rebuilds it. *)
Lemma set_all_rebuild (d : Dict.t V) : forall acc : Dict.t V,
  NoDup (keys (acc ++ d)%list) -> set_all acc d = (acc ++ d)%list.
Proof.
  unfold set_all. induction d as [|[k v] d IH]; simpl; intros acc Hnd.
  - now rewrite app_nil_r.
  - assert (Hm : mem k acc = false).
    { apply mem_false. intros Hin. unfold keys in Hnd.
      rewrite map_app in Hnd. simpl in Hnd.
      apply NoDup_remove_2 in Hnd. apply Hnd.
      apply in_or_app. now left. }
    rewrite (set_absent acc k v Hm), IH.
    + now rewrite <- app_assoc.
    + now rewrite <- app_assoc.
Qed.

End Assignments.

(** ** The rule table as the validator reads it *)

Section RuleTable.
Context `{Collaborators}.
Import Dict DictFacts.

Lemma master_dict_writes master_df :
  master_dict master_df = set_all [] (map rule_entry master_df).
Proof.
  unfold master_dict, set_all.
  generalize (@nil (string * (cell * cell))) as d.
  induction master_df as [|row rows IH]; simpl; intros d; auto.
Qed.

Lemma master_dict_mem master_df T :
  In T (keys (master_dict master_df)) <-> In T (map Term master_df).
Proof.
  split.
  - rewrite master_dict_keys. intros Hin.
    now apply first_occurrences_sound in Hin.
  - intros Hin. destruct (master_dict_has master_df T Hin) as [rule Hr].
    apply mem_In. unfold mem. now rewrite Hr.
Qed.

Lemma master_dict_no_rule master_df T :
  get (master_dict master_df) T = None <-> ~ In T (map Term master_df).
Proof.
  rewrite <- master_dict_mem, <- mem_false. unfold mem.
  destruct (get (master_dict master_df) T); split; congruence.
Qed.

(** No verdict of [_validate_value] carries the note of a term without a
    rule. *)
Lemma validate_value_not_unknown v e r :
  snd (_validate_value v e r) <> Term_not_found_in_master_sheet.
Proof.
  unfold _validate_value, _validate_date, validate_date_body, date_range,
    _validate_number, validate_number_body, number_range, _validate_text.
  repeat break_match; simpl; discriminate.
Qed.

(** X1.  In the output of [validate_terms] a record has status Unknown
    exactly when its term is not a term of the master sheet, and exactly
    when its note is "Term not found in master sheet"; such a record shows
    "N/A" for the expected value and for the allowed range. *)
Theorem unknown_iff_no_rule (extracted_terms : Dict.t string)
        (master_df : list Row) (r : ValidationRecord) :
  In r (validate_terms extracted_terms master_df) ->
  (Status r = Unknown <-> ~ In (rec_Term r) (map Term master_df)) /\
  (Status r = Unknown <-> Notes r = Term_not_found_in_master_sheet) /\
  (Status r = Unknown ->
   rec_Expected_Value r = Str "N/A" /\ rec_Allowed_Range r = Str "N/A").
Proof.
  unfold validate_terms. intros Hin. apply in_app_or in Hin.
  destruct Hin as [Hin|Hin]; apply in_map_iff in Hin.
  - destruct Hin as [[k v] [E _]]. subst r.
    rewrite <- master_dict_no_rule. unfold term_record.
    destruct (get (master_dict master_df) k) as [[e a]|] eqn:Hk.
    + pose proof (validate_value_not_unknown v e a) as Hn.
      destruct (_validate_value v e a) as [[|] n]; simpl in *;
        repeat split; intros; try discriminate; try contradiction;
        congruence.
    + simpl. rewrite Hk. repeat split; auto; discriminate.
  - destruct Hin as [[k rule] [E Hk]]. subst r. simpl.
    apply filter_In in Hk. destruct Hk as [Hk _].
    assert (Hterm : In k (map Term master_df)).
    { apply master_dict_mem. unfold keys.
      change k with (fst (k, rule)). now apply in_map. }
    repeat split; intros; try discriminate; contradiction.
Qed.

(** X2.  When a term is written on several rows of the master sheet, the
    rule that validates it is the one of the last of these rows. *)
Theorem repeated_term_last_row_wins (rows_before rows_after : list Row)
        (row : Row) (extracted_value : string) :
  (forall r, In r rows_after -> Term r <> Term row) ->
  let master_df := (rows_before ++ row :: rows_after)%list in
  get (master_dict master_df) (Term row) =
    Some (Expected_Value row, Allowed_Range row) /\
  term_record (master_dict master_df) (Term row, extracted_value) =
    mkRecord (Term row) extracted_value
      (if fst (_validate_value extracted_value (Expected_Value row)
                               (Allowed_Range row))
       then Valid else Invalid)
      (Expected_Value row) (Allowed_Range row)
      (snd (_validate_value extracted_value (Expected_Value row)
                            (Allowed_Range row))).
Proof.
  intros Hlast master_df.
  assert (Hget : get (master_dict master_df) (Term row) =
                 Some (Expected_Value row, Allowed_Range row)).
  { unfold master_df. rewrite master_dict_writes, map_app. simpl.
    apply get_set_all_last. intros w Hw.
    apply in_map_iff in Hw. destruct Hw as [r [E Hr]]. subst w.
    simpl. now apply Hlast. }
  split; [exact Hget|]. now apply term_record_known.
Qed.

End RuleTable.

(** ** The normalizer: order, shadowed rows, idempotence *)

Section NormalizerNames.
Context `{Collaborators}.
Import Dict DictFacts PyStrFacts.

Lemma best_fuzzy_from dk l : forall best bm,
  fst (fold_left (fuzzy_step dk) l best) = Some bm ->
  In bm l \/ fst best = Some bm.
Proof.
  induction l as [|mt l IH]; simpl; intros best bm Hb; auto.
  destruct (IH _ _ Hb) as [Hin|Hs]; auto.
  rewrite fuzzy_step_score in Hs.
  destruct ((snd best <? score dk mt)%Z && (60 <? score dk mt)%Z);
    simpl in Hs; auto.
  left. left. congruence.
Qed.

(** the fuzzy match is one of the lowercased master terms *)
Lemma best_fuzzy_In dk l bm : fst (best_fuzzy dk l) = Some bm -> In bm l.
Proof.
  intros Hb. destruct (best_fuzzy_from dk l _ _ Hb) as [Hin|Hs]; auto.
  discriminate.
Qed.

(** the fuzzy match reads the key in lower case only *)
Lemma best_fuzzy_lower a b l : lower a = lower b -> best_fuzzy a l = best_fuzzy b l.
Proof.
  intros Hab. unfold best_fuzzy.
  generalize (@None string, 0%Z) as best.
  induction l as [|mt l IH]; simpl; intros best; auto.
  unfold fuzzy_step at 2 4. rewrite Hab. apply IH.
Qed.

Lemma rows_named_head master_df l t rest :
  rows_named master_df l = t :: rest ->
  In t (map Term master_df) /\ lower t = l.
Proof.
  intros Hr.
  assert (Hin : In t (rows_named master_df l)) by (rewrite Hr; now left).
  unfold rows_named in Hin. apply in_map_iff in Hin.
  destruct Hin as [r [E Hf]]. apply filter_In in Hf.
  destruct Hf as [Hm Hl]. apply String.eqb_eq in Hl. subst t.
  split; auto. now apply in_map.
Qed.

(** The name chosen for a key is either the spelling of the first master
    row of some lowercased name, or the key in title case when no master
    term equals it. *)
Lemma canonical_name_cases master_df key :
  let display_key := replace_char "_" " " key in
  (exists l rest,
      rows_named master_df l = canonical_name master_df key :: rest) \/
  (existsb (String.eqb (lower display_key)) (master_terms master_df) = false /\
   canonical_name master_df key = title display_key).
Proof.
  intros display_key. unfold canonical_name. fold display_key.
  destruct (existsb (String.eqb (lower display_key)) (master_terms master_df))
    eqn:E.
  - left. apply exact_match_iff in E. apply rows_named_member in E.
    destruct (rows_named master_df (lower display_key)) as [|t rest] eqn:Er;
      [contradiction|].
    exists (lower display_key), rest. exact Er.
  - destruct (fst (best_fuzzy display_key (master_terms master_df)))
      as [bm|] eqn:Eb; [|right; auto].
    destruct (String.eqb bm EmptyString); [right; auto|].
    apply best_fuzzy_In in Eb. apply rows_named_member in Eb.
    destruct (rows_named master_df bm) as [|t rest] eqn:Er; [contradiction|].
    left. exists bm, rest. exact Er.
Qed.

(** X3.  [normalize_terms] keeps the order of extraction: the keys of its
    result are the names chosen for the extracted keys, each at the place
    of its first occurrence. *)
Theorem normalize_keeps_extraction_order (terms : Dict.t string)
        (master_df : list Row) :
  keys (normalize_terms terms master_df) =
  first_occurrences [] (map (canonical_name master_df) (keys terms)).
Proof.
  rewrite normalize_terms_writes, keys_set_all. simpl.
  unfold normalized_writes, keys. now rewrite !map_map.
Qed.

(** the first master row of a lowercased name, when an earlier part of the
    sheet has such a row *)
Lemma rows_named_earlier rows1 rows2 r0 l t rest :
  In r0 rows1 -> lower (Term r0) = l ->
  rows_named (rows1 ++ rows2) l = t :: rest ->
  In t (map Term rows1).
Proof.
  intros Hin Hl. unfold rows_named. rewrite filter_app, map_app.
  assert (Hf : In (Term r0)
                 (map Term (filter (fun r => String.eqb (lower (Term r)) l) rows1))).
  { apply in_map. apply filter_In. split; auto.
    rewrite Hl. apply String.eqb_refl. }
  destruct (map Term (filter (fun r => String.eqb (lower (Term r)) l) rows1))
    as [|t' rest'] eqn:E; [contradiction|].
  simpl. intros Ht. injection Ht as Ht _. subst t'.
  assert (Hin' : In t (map Term (filter (fun r => String.eqb (lower (Term r)) l)
                                        rows1))).
  { rewrite E. now left. }
  apply in_map_iff in Hin'. destruct Hin' as [r [Er Hr]].
  apply filter_In in Hr. subst t. apply in_map. tauto.
Qed.

(** X4.  A master row whose term differs only by letter case from the term
    of an earlier row is never matched: no extracted key is stored under
    its spelling, whatever was extracted, and [validate_terms] reports its
    term as missing from the document. *)
Theorem shadowed_row_always_missing (rows_before rows_after : list Row)
        (earlier row : Row) (extracted : Dict.t string) :
  In earlier rows_before ->
  lower (Term earlier) = lower (Term row) ->
  (forall r, In r rows_before -> Term r <> Term row) ->
  let master_df := (rows_before ++ row :: rows_after)%list in
  let normalized := normalize_terms extracted master_df in
  ~ In (Term row) (keys normalized) /\
  exists rule,
    In (mkRecord (Term row) "Missing" Invalid (fst rule) (snd rule)
                 Term_not_found_in_document)
       (validate_terms normalized master_df).
Proof.
  intros Hearlier Hlower Hspelling master_df normalized.
  assert (Hname : forall key, canonical_name master_df key <> Term row).
  { intros key Heq.
    destruct (canonical_name_cases master_df key) as [[l [rest Hr]]|[E Ht]].
    - rewrite Heq in Hr.
      destruct (rows_named_head _ _ _ _ Hr) as [_ Hl]. subst l.
      unfold master_df in Hr.
      apply (rows_named_earlier _ _ earlier) in Hr; auto.
      apply in_map_iff in Hr. destruct Hr as [r [Er Hin]].
      now apply (Hspelling r).
    - assert (Hin : In (lower (replace_char "_" " " key))
                       (master_terms master_df)).
      { rewrite <- (lower_title (replace_char "_" " " key)), <- Ht, Heq.
        unfold master_terms, master_df.
        apply (in_map (fun r => lower (Term r))).
        apply in_or_app. right. now left. }
      apply exact_match_iff in Hin. congruence. }
  assert (Habsent : ~ In (Term row) (keys normalized)).
  { unfold normalized. rewrite normalize_terms_writes, keys_set_all. simpl.
    intros Hin. apply first_occurrences_sound in Hin.
    destruct Hin as [Hin _]. unfold normalized_writes in Hin.
    rewrite map_map in Hin. apply in_map_iff in Hin.
    destruct Hin as [kv [E _]]. now apply (Hname (fst kv)). }
  split; [exact Habsent|].
  assert (Hrow : In (Term row) (map Term master_df)).
  { unfold master_df. apply in_map. apply in_or_app. right. now left. }
  destruct (master_dict_has master_df (Term row) Hrow) as [rule Hrule].
  exists rule. unfold validate_terms. apply in_or_app. right.
  change (mkRecord (Term row) "Missing" Invalid (fst rule) (snd rule)
                   Term_not_found_in_document)
    with (missing_record (Term row, rule)).
  apply in_map. apply filter_In. split.
  - now apply get_Some_In.
  - simpl. apply mem_false in Habsent. now rewrite Habsent.
Qed.

End NormalizerNames.

Section NormalizerTwice.
Context `{Collaborators}.
Import Dict DictFacts PyStrFacts.

Variable master_df : list Row.
Hypothesis no_underscore :
  forall r, In r master_df -> contains "_" (Term r) = false.

(** a master term that heads the rows of its lowercased name is its own
    canonical name *)
Lemma canonical_name_of_term l t rest :
  rows_named master_df l = t :: rest -> canonical_name master_df t = t.
Proof.
  intros Hr. destruct (rows_named_head _ _ _ _ Hr) as [Hin Hl].
  apply in_map_iff in Hin. destruct Hin as [r [Er Hin]].
  pose proof (no_underscore r Hin) as Hu. rewrite Er in Hu.
  unfold canonical_name. rewrite (replace_underscore_absent t Hu), Hl.
  assert (Hm : In l (master_terms master_df)).
  { rewrite <- Hl, <- Er. unfold master_terms.
    now apply (in_map (fun r => lower (Term r))). }
  apply exact_match_iff in Hm. rewrite Hm, Hr. reflexivity.
Qed.

Lemma canonical_name_idem key :
  canonical_name master_df (canonical_name master_df key) =
  canonical_name master_df key.
Proof.
  destruct (canonical_name_cases master_df key) as [[l [rest Hr]]|[E Ht]].
  - now apply (canonical_name_of_term l _ rest).
  - rewrite Ht. set (dk := replace_char "_" " " key) in *.
    assert (Hd : replace_char "_" " " (title dk) = title dk).
    { unfold title. apply replace_underscore_title_aux.
      unfold dk. apply replace_underscore_idem. }
    unfold canonical_name in Ht |- *. fold dk in Ht.
    rewrite Hd, lower_title, E in *.
    rewrite (best_fuzzy_lower (title dk) dk) by apply lower_title.
    destruct (fst (best_fuzzy dk (master_terms master_df))) as [bm|] eqn:Eb;
      [|apply title_idem].
    destruct (String.eqb bm EmptyString) eqn:Ebm; [apply title_idem|].
    apply best_fuzzy_In in Eb. apply rows_named_member in Eb.
    destruct (rows_named master_df bm) as [|t rest] eqn:Er; [contradiction|].
    exact Ht.
Qed.

(** X5.  When no term of the master sheet contains an underscore,
    normalizing is idempotent: every stored key is its own canonical name,
    and normalizing a normalized dictionary returns it unchanged. *)
Theorem normalize_terms_idempotent (terms : Dict.t string) :
  (forall k, In k (keys (normalize_terms terms master_df)) ->
             canonical_name master_df k = k) /\
  normalize_terms (normalize_terms terms master_df) master_df =
  normalize_terms terms master_df.
Proof.
  assert (Hkeys : forall k, In k (keys (normalize_terms terms master_df)) ->
                            canonical_name master_df k = k).
  { intros k Hin. rewrite normalize_terms_writes, keys_set_all in Hin.
    simpl in Hin. apply first_occurrences_sound in Hin.
    destruct Hin as [Hin _]. unfold normalized_writes in Hin.
    rewrite map_map in Hin. apply in_map_iff in Hin.
    destruct Hin as [kv [E _]]. simpl in E. subst k.
    apply canonical_name_idem. }
  split; [exact Hkeys|].
  set (d := normalize_terms terms master_df) in *.
  rewrite (normalize_terms_writes d). unfold normalized_writes.
  rewrite (map_ext_in _ (fun kv => kv)).
  - rewrite map_id. apply (set_all_rebuild d []). simpl.
    unfold d. rewrite normalize_terms_writes.
    apply NoDup_set_all. constructor.
  - intros [k v] Hin. simpl. f_equal. apply Hkeys.
    unfold keys. change k with (fst (k, v)). now apply in_map.
Qed.

End NormalizerTwice.

(** ** The keys that extraction can produce *)

Section Vocabulary.
Context `{Collaborators}.
Import Dict DictFacts.

Lemma known_set d k v : known d -> In k vocabulary -> known (set d k v).
Proof.
  intros [Hnd Hin] Hk. split; [now apply NoDup_set|].
  intros k'. rewrite keys_set. destruct (mem k d); auto.
  intros Hk'. apply in_app_or in Hk'. destruct Hk' as [Hk'|[E|[]]]; auto.
  now subst k'.
Qed.

Lemma pattern_labels_known kp : In kp patterns -> In (fst kp) vocabulary.
Proof.
  intros Hin. apply (in_map fst) in Hin. revert Hin.
  generalize (fst kp) as label. intros label Hin.
  apply existsb_eqb_In.
  assert (Hall : forallb (fun l => existsb (String.eqb l) vocabulary)
                         (map fst patterns) = true) by (vm_compute; reflexivity).
  rewrite forallb_forall in Hall. exact (Hall label Hin).
Qed.

Lemma pattern_stage_known text : known (pattern_stage text).
Proof.
  unfold pattern_stage.
  assert (G : forall ps d, (forall kp, In kp ps -> In (fst kp) vocabulary) ->
                           known d -> known (fold_left (apply_pattern text) ps d)).
  { induction ps as [|kp ps IH]; simpl; intros d Hps Hd; auto.
    apply IH; [intros kp' Hkp'; apply Hps; now right|].
    rewrite apply_pattern_first. destruct (mem (fst kp) d); auto.
    destruct (finditer (snd kp) text); auto.
    apply known_set; auto. apply Hps. now left. }
  apply G; [apply pattern_labels_known|].
  split; [constructor|intros k []].
Qed.

Lemma entity_stage_known text d : known d -> known (entity_stage text d).
Proof.
  assert (Hk : forall k, existsb (String.eqb k) vocabulary = true ->
                         In k vocabulary)
    by (intros k; apply existsb_eqb_In).
  intros Hd. unfold entity_stage, entity_principal, entity_counterparty,
               entity_rate, entity_maturity.
  repeat break_match; repeat apply known_set; auto;
    apply Hk; vm_compute; reflexivity.
Qed.

Lemma line_write_known line separator w :
  line_write line separator = Some w -> In (fst w) vocabulary.
Proof.
  unfold line_write.
  destruct (contains separator line); [|discriminate].
  destruct (split_once separator line) as [[part0 part1]|]; [|discriminate].
  destruct (String.eqb (strip part1) EmptyString); [discriminate|].
  destruct (direct_match (lower (strip part0))) eqn:Ed.
  - intros E. injection E as E. subst w. cbn [fst].
    unfold direct_match in Ed. apply existsb_exists in Ed.
    destruct Ed as [term [Hin E]]. apply String.eqb_eq in E. subst term.
    exact (in_map underscored financial_terms _ Hin).
  - destruct (fuzzy_term (lower (strip part0))) as [term|] eqn:Ef;
      [|discriminate].
    intros E. injection E as E. subst w. cbn [fst].
    unfold fuzzy_term in Ef. apply find_some in Ef.
    exact (in_map underscored financial_terms _ (proj1 Ef)).
Qed.

Lemma line_stage_known text d : known d -> known (line_stage text d).
Proof.
  intros [Hnd Hin]. unfold line_stage. split; [now apply NoDup_set_all|].
  intros k. rewrite keys_set_all. intros Hk.
  apply in_app_or in Hk. destruct Hk as [Hk|Hk]; auto.
  apply first_occurrences_sound in Hk. destruct Hk as [Hk _].
  apply in_map_iff in Hk. destruct Hk as [w [E Hw]]. subst k.
  unfold line_writes in Hw. apply in_flat_map in Hw.
  destruct Hw as [line [_ Hw]]. apply in_flat_map in Hw.
  destruct Hw as [separator [_ Hw]].
  destruct (line_write line separator) as [w'|] eqn:E; [|destruct Hw].
  destruct Hw as [Ew|[]]. subst w'. now apply (line_write_known line separator).
Qed.

(** X6.  Whatever the document and whatever the entity recogniser returns,
    every key that [structure_data] produces is a term of the vocabulary
    [financial_terms] with its spaces replaced by underscores; the result
    therefore has at most 29 entries. *)
Theorem extracted_keys_in_vocabulary (text : string) :
  (forall k, In k (keys (structure_data text)) ->
             exists term, In term financial_terms /\ k = underscored term) /\
  List.length (structure_data text) <= 29.
Proof.
  assert (Hk : known (structure_data text)).
  { unfold structure_data. apply line_stage_known, entity_stage_known,
      pattern_stage_known. }
  destruct Hk as [Hnd Hin]. split.
  - intros k Hk. apply Hin in Hk. unfold vocabulary in Hk.
    apply in_map_iff in Hk. destruct Hk as [term [E Ht]]. now exists term.
  - assert (Hle : List.length (keys (structure_data text))
                  <= List.length vocabulary).
    { apply NoDup_incl_length; auto. }
    unfold keys in Hle. now rewrite length_map in Hle.
Qed.

End Vocabulary.

(** ** Numbers as [_validate_number] reads them *)

Module NumberFacts.
Import PyStrFacts.

Lemma exists_char_append p a b :
  exists_char p (a ++ b) = exists_char p a || exists_char p b.
Proof.
  induction a as [|c a IH]; simpl; auto. now rewrite IH, orb_assoc.
Qed.

Lemma count_char_append c a b :
  count_char c (a ++ b) = count_char c a + count_char c b.
Proof. induction a as [|x a IH]; simpl; auto. rewrite IH. lia. Qed.

Lemma count_char_cons c x s :
  count_char c (String x s) = (if Ascii.eqb c x then 1 else 0) + count_char c s.
Proof. reflexivity. Qed.

Lemma exists_char_cons p x s :
  exists_char p (String x s) = p x || exists_char p s.
Proof. reflexivity. Qed.

Lemma split_once_char a c s :
  split_once (String a EmptyString) (String c s) =
  if Ascii.eqb a c then Some (EmptyString, s)
  else match split_once (String a EmptyString) s with
       | Some (x, y) => Some (String c x, y)
       | None => None
       end.
Proof.
  change (split_once (String a EmptyString) (String c s))
    with (if Ascii.eqb a c && true then Some (EmptyString, s)
          else match split_once (String a EmptyString) s with
               | Some (x, y) => Some (String c x, y)
               | None => None
               end).
  now rewrite andb_true_r.
Qed.

Lemma digits_value_none t : forall acc,
  digits_value t acc = None <->
  exists_char (fun c => negb (is_digit c)) t = true.
Proof.
  induction t as [|c t IH]; simpl; intros acc.
  - split; discriminate.
  - destruct (is_digit c); simpl; [apply IH|tauto].
Qed.

Lemma split_once_char_spec a t :
  match split_once (String a EmptyString) t with
  | None => count_char a t = 0
  | Some (x, y) => t = x ++ String a y /\ count_char a x = 0
  end.
Proof.
  induction t as [|c t IH]; [reflexivity|].
  rewrite split_once_char, count_char_cons.
  destruct (Ascii.eqb_spec a c) as [E|E].
  - subst c. split; reflexivity.
  - destruct (split_once (String a EmptyString) t) as [[x y]|]; auto.
    destruct IH as [Et Hx]. subst t. split; auto.
    rewrite count_char_cons.
    destruct (Ascii.eqb_spec a c); [contradiction|auto].
Qed.

Lemma decimal_chars_nondigit t :
  decimal_chars t ->
  (exists_char (fun c => negb (is_digit c)) t = true <-> 1 <= count_char "." t).
Proof.
  unfold decimal_chars. induction t as [|c t IH].
  - intros _. split; [discriminate|cbn; lia].
  - rewrite !exists_char_cons, count_char_cons. cbv beta.
    intros Hd. apply orb_false_iff in Hd. destruct Hd as [Hc Ht].
    apply negb_false_iff in Hc.
    destruct (Ascii.eqb_spec "." c) as [E|E].
    + subst c. split; [lia|reflexivity].
    + destruct (Ascii.eqb_spec c ".") as [E'|_]; [now subst c|].
      rewrite orb_false_r in Hc. rewrite Hc.
      cbn [negb orb plus]. now apply IH.
Qed.

Lemma decimal_chars_append a b :
  decimal_chars (a ++ b) <-> decimal_chars a /\ decimal_chars b.
Proof.
  unfold decimal_chars. rewrite exists_char_append. apply orb_false_iff.
Qed.

(** [float] raises on a string of digits and points exactly when the
    string has no digit or more than one point. *)
Lemma float_of_decimal_none t :
  decimal_chars t ->
  (float_of_decimal t = None <->
   exists_char is_digit t = false \/ 2 <= count_char "." t).
Proof.
  intros Hd. unfold float_of_decimal.
  pose proof (split_once_char_spec "." t) as Hs.
  destruct (split_once "." t) as [[a b]|].
  - destruct Hs as [Et Ha]. subst t.
    apply decimal_chars_append in Hd. destruct Hd as [Hda Hdb].
    assert (Hdb' : decimal_chars b).
    { exact Hdb. }
    assert (Hab : decimal_chars (a ++ b)) by now apply decimal_chars_append.
    pose proof (decimal_chars_nondigit _ Hab) as Hn.
    rewrite count_char_append, Ha in Hn. simpl in Hn.
    rewrite !exists_char_append, count_char_append, Ha. simpl.
    rewrite exists_char_append in Hn.
    destruct (String.eqb_spec (a ++ b) EmptyString) as [E|E].
    + destruct a; [|discriminate E]. simpl in E. subst b. simpl. tauto.
    + destruct (digits_value (a ++ b) 0) as [n|] eqn:En.
      * split; [discriminate|].
        assert (Hall : exists_char (fun c => negb (is_digit c)) (a ++ b) = false).
        { destruct (exists_char (fun c => negb (is_digit c)) (a ++ b)) eqn:Ex;
            auto.
          apply (digits_value_none _ 0%Z) in Ex. congruence. }
        rewrite exists_char_append in Hall.
        intros [Hno|Htwo].
        -- exfalso. apply E.
           apply orb_false_iff in Hall. destruct Hall as [Hxa Hxb].
           apply orb_false_iff in Hno. destruct Hno as [Hna Hnb].
           destruct a as [|c a]; simpl in *.
           ++ destruct b as [|c b]; auto. simpl in *.
              destruct (is_digit c); discriminate.
           ++ destruct (is_digit c); discriminate.
        -- assert (Hone : 1 <= count_char "." b) by lia.
           apply Hn in Hone. congruence.
      * split; auto. intros _. right.
        apply digits_value_none in En. rewrite exists_char_append in En.
        apply Hn in En. lia.
  - assert (Hn := decimal_chars_nondigit _ Hd). rewrite Hs in Hn.
    assert (Hall : exists_char (fun c => negb (is_digit c)) t = false).
    { destruct (exists_char (fun c => negb (is_digit c)) t); auto.
      destruct Hn as [Hn _]. specialize (Hn eq_refl). lia. }
    rewrite Hs.
    destruct (String.eqb_spec t EmptyString) as [E|E].
    + subst t. simpl. tauto.
    + destruct (digits_value t 0) as [n|] eqn:En.
      * simpl. split; [discriminate|]. intros [Hno|Htwo]; [|lia].
        exfalso. apply E. destruct t as [|c t]; auto. simpl in *.
        destruct (is_digit c); discriminate.
      * apply digits_value_none in En. congruence.
Qed.

Lemma filter_str_cons keep c s :
  filter_str keep (String c s) =
  if keep c then String c (filter_str keep s) else filter_str keep s.
Proof. reflexivity. Qed.

Lemma strip_numeric_chars s :
  decimal_chars (strip_numeric s) /\
  exists_char is_digit (strip_numeric s) = exists_char is_digit s /\
  count_char "." (strip_numeric s) = count_char "." s.
Proof.
  unfold decimal_chars, strip_numeric, remove_char.
  induction s as [|c s [IH1 [IH2 IH3]]]; [repeat split|].
  rewrite filter_str_cons, exists_char_cons, count_char_cons. cbv beta.
  destruct (Ascii.eqb_spec c ",") as [E|E]; cbn [negb].
  - subst c. auto.
  - rewrite filter_str_cons. cbv beta.
    destruct (is_digit c) eqn:Ed; cbn [orb].
    + rewrite !exists_char_cons, count_char_cons. cbv beta.
      rewrite Ed, IH2, IH3. auto.
    + destruct (Ascii.eqb_spec c ".") as [E'|E'].
      * subst c. rewrite !exists_char_cons, count_char_cons. cbv beta.
        rewrite IH2, IH3. auto.
      * destruct (Ascii.eqb_spec "." c); [now subst c|auto].
Qed.

(** the pieces of [s.split(c)] for a one-character separator *)
Lemma split_char_length c s : forall cur,
  List.length (split_aux (String c EmptyString) s 0 cur) = S (count_char c s).
Proof.
  induction s as [|x s IH]; intros cur; [reflexivity|].
  rewrite count_char_cons.
  change (split_aux (String c EmptyString) (String x s) 0 cur)
    with (if Ascii.eqb c x && true
          then rev cur :: split_aux (String c EmptyString) s 0 EmptyString
          else split_aux (String c EmptyString) s 0 (String x cur)).
  rewrite andb_true_r.
  destruct (Ascii.eqb c x); cbn [List.length plus]; now rewrite IH.
Qed.

End NumberFacts.

(** ** Verdicts on values: errors, ignored ranges, precedence *)

Section ValueVerdicts.
Context `{Collaborators}.
Import NumberFacts.

(** X7.  [_validate_number] cannot read the extracted value exactly when
    the value has no digit or more than one point; the verdict is then
    Invalid with a numeric validation error, whatever the rule is. *)
Theorem unreadable_number_is_error (extracted_str : string) :
  (float_of_decimal (strip_numeric extracted_str) = None <->
   exists_char is_digit extracted_str = false \/
   2 <= count_char "." extracted_str) /\
  (forall expected_value allowed_range,
      exists_char is_digit extracted_str = false \/
      2 <= count_char "." extracted_str ->
      _validate_number extracted_str expected_value allowed_range =
      (false, Numeric_validation_error)).
Proof.
  destruct (strip_numeric_chars extracted_str) as [Hd [Hdig Hcount]].
  pose proof (float_of_decimal_none _ Hd) as Hnone.
  rewrite Hdig, Hcount in Hnone.
  split; [exact Hnone|].
  intros e r Hbad. apply Hnone in Hbad.
  unfold _validate_number, validate_number_body. now rewrite Hbad.
Qed.

(** X8.  A range that starts with neither [≥] nor [≤] and has no en dash is
    read as an interval only when it has exactly one hyphen.  With any
    other number of hyphens (two ISO dates joined by a hyphen, a negative
    bound) the range is passed over without a note: the verdict on a date
    or a number is the one given for an empty range cell. *)
Theorem hyphen_range_needs_one_hyphen (range_str : string) :
  startswith ge_sign range_str = false ->
  startswith le_sign range_str = false ->
  contains en_dash range_str = false ->
  count_char "-" range_str <> 1 ->
  (forall d, date_range d range_str = Some None) /\
  (forall x, number_range x range_str = Some None) /\
  (forall s e, _validate_date s e (Str range_str) = _validate_date s e NaN) /\
  (forall s e, _validate_number s e (Str range_str) = _validate_number s e NaN).
Proof.
  intros Hge Hle Hdash Hcount.
  assert (Hlen : List.length (split "-" range_str) <> 2).
  { unfold split. rewrite split_char_length. lia. }
  assert (Hd : forall d, date_range d range_str = Some None).
  { intros d. unfold date_range. rewrite Hge, Hle, Hdash.
    destruct (contains "-" range_str); auto. cbn [orb].
    destruct (split "-" range_str) as [|p0 [|p1 [|p2 l]]]; auto.
    now contradiction Hlen. }
  assert (Hn : forall x, number_range x range_str = Some None).
  { intros x. unfold number_range. rewrite Hge, Hle, Hdash.
    destruct (contains "-" range_str); auto. cbn [orb].
    destruct (split "-" range_str) as [|p0 [|p1 [|p2 l]]]; auto.
    now contradiction Hlen. }
  repeat split; auto.
  - intros s e. unfold _validate_date, validate_date_body.
    cbn [notna isna negb cell_str]. now rewrite Hd.
  - intros s e. unfold _validate_number, validate_number_body.
    cbn [notna isna negb cell_str].
    destruct (float_of_decimal (strip_numeric s)); auto. now rewrite Hn.
Qed.

(** X9.  When [dateparser] finds no date in the extracted value,
    [_validate_date] with an expected value gives Valid, "Date matches
    expected value", if it finds no date in the expected value either, and
    a date validation error otherwise, whatever the allowed range is. *)
Theorem undated_value_verdict (extracted_str : string)
        (expected_value allowed_range : cell) :
  dateparser_parse extracted_str = None ->
  notna expected_value = true ->
  _validate_date extracted_str expected_value allowed_range =
  if is_none (dateparser_parse (cell_str expected_value))
  then (true, Date_matches_expected_value)
  else (false, Date_validation_error).
Proof.
  intros Hex Hn. unfold _validate_date, validate_date_body.
  rewrite Hex, Hn.
  destruct (dateparser_parse (cell_str expected_value)) as [d|]; simpl; auto.
  unfold date_range, date_le, strftime.
  repeat break_match; try reflexivity; try discriminate.
Qed.

(** X10.  Without an expected value, a text is in the list of allowed
    values exactly when it equals one of the listed values once that value
    is trimmed and letter case is ignored. *)
Theorem text_enumeration_ignores_case (extracted_str : string)
        (allowed_range : cell) :
  notna allowed_range = true ->
  contains "|" (cell_str allowed_range) = true ->
  (fst (_validate_text extracted_str NaN allowed_range) = true <->
   exists v, In v (split "|" (cell_str allowed_range)) /\
             lower extracted_str = lower (strip v)).
Proof.
  intros Hn Hc. unfold _validate_text. cbn [notna isna negb].
  rewrite Hn, Hc. cbn [andb].
  set (valid_values := map strip (split "|" (cell_str allowed_range))).
  assert (Hiff : existsb (fun v => String.eqb (lower extracted_str) (lower v))
                         valid_values = true <->
                 exists v, In v (split "|" (cell_str allowed_range)) /\
                           lower extracted_str = lower (strip v)).
  { rewrite existsb_exists. unfold valid_values. split.
    - intros [x [Hx E]]. apply in_map_iff in Hx. destruct Hx as [v [Ev Hv]].
      subst x. apply String.eqb_eq in E. now exists v.
    - intros [v [Hv E]]. exists (strip v). split; [now apply in_map|].
      now apply String.eqb_eq. }
  destruct (existsb (String.eqb extracted_str) valid_values) eqn:Eexact.
  - cbn [orb fst]. split; auto. intros _. apply Hiff.
    apply existsb_exists in Eexact. destruct Eexact as [x [Hx E]].
    apply String.eqb_eq in E. subst x.
    apply existsb_exists. exists extracted_str. split; auto.
    apply String.eqb_refl.
  - cbn [orb].
    destruct (existsb (fun v => String.eqb (lower extracted_str) (lower v))
                      valid_values); cbn [fst]; rewrite <- Hiff; tauto.
Qed.


End ValueVerdicts.

(** ** Uploaded files: their type and their reader *)

Section FileTypes.
Import PyStrFacts NumberFacts.

Variable guess_type : string -> option string.

Lemma type_of_extension_supported ext t :
  type_of_extension ext = Some t -> In t file_types.
Proof.
  unfold type_of_extension, file_types.
  repeat break_match; intros E; inversion E; subst; simpl; tauto.
Qed.

Lemma type_of_mime_supported mime t :
  type_of_mime mime = Some t -> In t file_types.
Proof.
  unfold type_of_mime, file_types.
  repeat break_match; intros E; inversion E; subst; simpl; tauto.
Qed.

Lemma type_of_header_supported header filename t :
  type_of_header header filename = Some t -> In t file_types.
Proof.
  unfold type_of_header, file_types.
  repeat break_match; intros E; inversion E; subst; simpl; tauto.
Qed.

Lemma type_of_name_supported name t :
  type_of_name name = Some t -> In t file_types.
Proof.
  unfold type_of_name, file_types.
  repeat break_match; intros E; inversion E; subst; simpl; tauto.
Qed.

(** X12.  Whatever the upload is, [detect_file_type] returns one of
    'pdf', 'word', 'excel' and 'image'.  Hence [extract_text] never raises
    "Unsupported file type" on a detected type, and
    [extract_master_sheet_structure] never reads a master sheet with
    [read_csv]: its branch for the type 'csv' cannot be reached. *)
Theorem detected_type_is_supported (file_obj : UploadedFile) :
  In (detect_file_type guess_type file_obj) file_types /\
  extract_text (detect_file_type guess_type file_obj) <> None /\
  extract_master_sheet_structure (detect_file_type guess_type file_obj)
    <> Some read_csv.
Proof.
  assert (Hin : In (detect_file_type guess_type file_obj) file_types).
  { unfold detect_file_type.
    set (filename := detected_filename file_obj).
    destruct (bind_str filename
                (fun name => type_of_extension (lower (splitext_ext name))))
      as [t|] eqn:E1; cbn [or_else].
    { destruct filename as [name|]; [|discriminate].
      now apply type_of_extension_supported in E1. }
    destruct (bind_str (truthy (file_content_type file_obj)) type_of_mime)
      as [t|] eqn:E2; cbn [or_else].
    { destruct (truthy (file_content_type file_obj)); [|discriminate].
      now apply type_of_mime_supported in E2. }
    destruct (bind_str (file_header file_obj)
                (fun header => type_of_header header filename))
      as [t|] eqn:E3; cbn [or_else].
    { destruct (file_header file_obj); [|discriminate].
      now apply type_of_header_supported in E3. }
    destruct (bind_str filename
                (fun name => bind_str (truthy (guess_type name)) type_of_mime))
      as [t|] eqn:E4; cbn [or_else].
    { destruct filename as [name|]; [|discriminate]. cbn [bind_str] in E4.
      destruct (truthy (guess_type name)); [|discriminate].
      now apply type_of_mime_supported in E4. }
    destruct (bind_str filename (fun name => type_of_name (lower name)))
      as [t|] eqn:E5.
    { destruct filename as [name|]; [|discriminate].
      now apply type_of_name_supported in E5. }
    unfold file_types. simpl. tauto. }
  split; [exact Hin|].
  unfold file_types in Hin. simpl in Hin.
  destruct Hin as [E|[E|[E|[E|[]]]]]; rewrite <- E; split; discriminate.
Qed.

(** X13.  A master sheet whose file name ends in [.csv] is typed 'excel'
    whatever its content type and content are, and is therefore read with
    [read_excel]. *)
Theorem csv_master_is_read_as_excel (file_obj : UploadedFile) (name : string) :
  file_filename file_obj = Some name ->
  lower (splitext_ext name) = ".csv" ->
  detect_file_type guess_type file_obj = "excel" /\
  extract_master_sheet_structure (detect_file_type guess_type file_obj) =
    Some read_excel.
Proof.
  intros Hname Hext.
  assert (Hne : String.eqb name EmptyString = false).
  { destruct name; [discriminate Hext|reflexivity]. }
  assert (Hd : detect_file_type guess_type file_obj = "excel").
  { unfold detect_file_type, detected_filename.
    rewrite Hname. cbn [truthy]. rewrite Hne. cbn [or_else bind_str].
    rewrite Hext. reflexivity. }
  split; [exact Hd|]. now rewrite Hd.
Qed.

Lemma rfind_from_absent c s : forall i last,
  count_char c s = 0 -> rfind_from c s i last = last.
Proof.
  induction s as [|x s IH]; intros i last; [reflexivity|].
  rewrite count_char_cons. cbn [rfind_from].
  rewrite (Ascii.eqb_sym x c).
  destruct (Ascii.eqb c x); [discriminate|]. intros Hc. now apply IH.
Qed.

Lemma rfind_from_append c a b : forall i last,
  count_char c a = 0 ->
  rfind_from c (a ++ b) i last = rfind_from c b (i + String.length a) last.
Proof.
  induction a as [|x a IH]; intros i last.
  - intros _. simpl. now rewrite Nat.add_0_r.
  - rewrite count_char_cons. cbn [append rfind_from String.length].
    rewrite (Ascii.eqb_sym x c).
    destruct (Ascii.eqb c x); [discriminate|]. intros Hc.
    rewrite IH by exact Hc. f_equal. lia.
Qed.

Lemma contains_char c s :
  contains (String c EmptyString) s = false <-> count_char c s = 0.
Proof.
  induction s as [|x s IH]; [split; reflexivity|].
  rewrite count_char_cons.
  change (contains (String c EmptyString) (String x s))
    with ((Ascii.eqb c x && true) || contains (String c EmptyString) s).
  rewrite andb_true_r.
  destruct (Ascii.eqb c x); cbn [orb plus]; [split; discriminate|exact IH].
Qed.

Lemma take_append a b : take (String.length a) (a ++ b) = a.
Proof. induction a as [|x a IH]; simpl; [now destruct b|now rewrite IH]. Qed.

Lemma drop_append a b : drop (String.length a) (a ++ b) = b.
Proof. induction a as [|x a IH]; simpl; auto. Qed.

(** the extension of [stem ++ ext] when [stem] is a plain name *)
Lemma splitext_plain stem ext :
  stem <> EmptyString ->
  count_char "." stem = 0 -> count_char "/" stem = 0 ->
  rfind_from "." ext (String.length stem) None = Some (String.length stem) ->
  rfind_from "/" ext (String.length stem) None = None ->
  splitext_ext (basename (stem ++ ext)) = drop 0 ext.
Proof.
  intros Hne Hdot Hsep Hext Hnosep.
  assert (Hb : basename (stem ++ ext) = stem ++ ext).
  { unfold basename, rfind. rewrite rfind_from_append by exact Hsep.
    cbn [plus]. now rewrite Hnosep. }
  rewrite Hb. unfold splitext_ext, rfind.
  rewrite !rfind_from_append by assumption. cbn [plus].
  rewrite Hext, Hnosep. cbn [Nat.leb andb].
  unfold slice. rewrite Nat.sub_0_r. cbn [drop]. rewrite take_append.
  assert (Hx : exists_char (fun c => negb (Ascii.eqb c ".")) stem = true).
  { destruct stem as [|x stem]; [contradiction|].
    rewrite exists_char_cons. rewrite count_char_cons in Hdot.
    rewrite (Ascii.eqb_sym x ".").
    destruct (Ascii.eqb "." x); [discriminate|reflexivity]. }
  rewrite Hx. apply drop_append.
Qed.

(** X14.  An upload without an extension whose content type contains
    both "spreadsheet" and "document" (as the content type of an [.xlsx]
    file does) and not "pdf" is saved under a name that ends in [.xlsx]
    but is typed 'word': its text is read with the Word reader, and as a
    master sheet it goes through the text fallback, not [read_excel]. *)
Theorem extensionless_spreadsheet_is_typed_word
        (file_obj : UploadedFile) (name mime : string) :
  file_filename file_obj = Some name ->
  name <> EmptyString ->
  contains "." name = false ->
  contains "/" name = false ->
  file_content_type file_obj = Some mime ->
  contains "pdf" mime = false ->
  contains "spreadsheet" mime = true ->
  contains "document" mime = true ->
  upload_filename file_obj = name ++ ".xlsx" /\
  upload_suffix file_obj = ".xlsx" /\
  detect_file_type guess_type file_obj = "word" /\
  extract_text (detect_file_type guess_type file_obj) =
    Some _extract_from_word /\
  extract_master_sheet_structure (detect_file_type guess_type file_obj) =
    Some (parsed_text _extract_from_word).
Proof.
  intros Hname Hne Hdot Hsep Hmime Hpdf Hsheet Hdoc.
  assert (Hne' : String.eqb name EmptyString = false)
    by now apply String.eqb_neq.
  assert (Hm : String.eqb mime EmptyString = false).
  { destruct mime; [discriminate Hdoc|reflexivity]. }
  apply contains_char in Hdot. apply contains_char in Hsep.
  assert (Hup : upload_filename file_obj = name ++ ".xlsx").
  { unfold upload_filename. rewrite Hname, Hmime. cbn [truthy].
    rewrite Hne', Hm.
    assert (Hc : contains "." name = false) by now apply contains_char.
    now rewrite Hc, Hpdf, Hsheet. }
  assert (Hd : detect_file_type guess_type file_obj = "word").
  { unfold detect_file_type, detected_filename.
    rewrite Hname, Hmime. cbn [truthy]. rewrite Hne', Hm.
    cbn [or_else bind_str].
    assert (Hext : splitext_ext name = EmptyString).
    { unfold splitext_ext, rfind. now rewrite rfind_from_absent. }
    rewrite Hext. cbn [lower map_str type_of_extension].
    change (type_of_extension EmptyString) with (@None string).
    cbn [or_else]. unfold type_of_mime.
    now rewrite Hpdf, Hdoc, orb_true_r. }
  split; [exact Hup|]. split.
  { unfold upload_suffix. rewrite Hup.
    now rewrite (splitext_plain name ".xlsx") by auto. }
  rewrite Hd. repeat split; reflexivity.
Qed.

End FileTypes.

(** ** Master sheets read from text *)

Module TextFacts.
Import PyStrFacts NumberFacts.

Lemma length_lstrip s : String.length (lstrip s) <= String.length s.
Proof.
  induction s as [|c s IH]; simpl; auto.
  destruct (is_space c); simpl; lia.
Qed.

Lemma count_char_lstrip c s : count_char c (lstrip s) <= count_char c s.
Proof.
  induction s as [|x s IH]; [auto|].
  cbn [lstrip]. destruct (is_space x); [|auto].
  rewrite count_char_cons. lia.
Qed.

Lemma count_char_rev c s : count_char c (rev s) = count_char c s.
Proof.
  induction s as [|x s IH]; [reflexivity|].
  rewrite rev_cons, count_char_append, IH, !count_char_cons.
  change (count_char c EmptyString) with 0. lia.
Qed.

Lemma count_char_strip c s : count_char c (strip s) <= count_char c s.
Proof.
  unfold strip. rewrite count_char_rev.
  etransitivity; [apply count_char_lstrip|].
  rewrite count_char_rev. apply count_char_lstrip.
Qed.

(** a text with no blank at either end is left alone by [strip] *)
Lemma strip_fixed s : lstrip s = s -> lstrip (rev s) = rev s -> strip s = s.
Proof.
  intros Hl Hr. unfold strip. rewrite Hl, Hr. apply rev_involutive.
Qed.

Lemma lstrip_append a b :
  a <> EmptyString -> lstrip a = a -> lstrip (a ++ b) = a ++ b.
Proof.
  destruct a as [|c a]; [contradiction|]. intros _.
  cbn [lstrip append]. destruct (is_space c); auto.
  intros Hl. pose proof (length_lstrip a) as Hlen.
  rewrite Hl in Hlen. simpl in Hlen. lia.
Qed.

Lemma rev_nonempty s : s <> EmptyString -> rev s <> EmptyString.
Proof.
  intros Hne Hr. apply Hne. rewrite <- (rev_involutive s), Hr. reflexivity.
Qed.

Lemma contains_char_append c a b :
  contains (String c EmptyString) (a ++ String c b) = true.
Proof.
  destruct (contains (String c EmptyString) (a ++ String c b)) eqn:E; auto.
  apply contains_char in E. rewrite count_char_append, count_char_cons in E.
  rewrite Ascii.eqb_refl in E. lia.
Qed.

Lemma split_once_first c a b :
  count_char c a = 0 ->
  split_once (String c EmptyString) (a ++ String c b) = Some (a, b).
Proof.
  induction a as [|x a IH].
  - intros _. cbn [append]. rewrite split_once_char.
    now rewrite Ascii.eqb_refl.
  - rewrite count_char_cons. cbn [append]. rewrite split_once_char.
    destruct (Ascii.eqb c x); [discriminate|]. intros Hc.
    now rewrite IH.
Qed.

Lemma split_aux_char_cons c x s cur :
  split_aux (String c EmptyString) (String x s) 0 cur =
  if Ascii.eqb c x
  then rev cur :: split_aux (String c EmptyString) s 0 EmptyString
  else split_aux (String c EmptyString) s 0 (String x cur).
Proof.
  change (split_aux (String c EmptyString) (String x s) 0 cur)
    with (if Ascii.eqb c x && true
          then rev cur :: split_aux (String c EmptyString) s 0 EmptyString
          else split_aux (String c EmptyString) s 0 (String x cur)).
  now rewrite andb_true_r.
Qed.

Lemma split_aux_last c a : forall cur,
  count_char c a = 0 ->
  split_aux (String c EmptyString) a 0 cur = [rev cur ++ a].
Proof.
  induction a as [|x a IH]; intros cur.
  - intros _. cbn [split_aux]. now rewrite append_nil_r.
  - rewrite count_char_cons, split_aux_char_cons.
    destruct (Ascii.eqb c x); [discriminate|]. intros Hc.
    rewrite IH by exact Hc. rewrite rev_cons, append_assoc. reflexivity.
Qed.

Lemma split_aux_first c a b : forall cur,
  count_char c a = 0 ->
  split_aux (String c EmptyString) (a ++ String c b) 0 cur =
  (rev cur ++ a) :: split_aux (String c EmptyString) b 0 EmptyString.
Proof.
  induction a as [|x a IH]; intros cur.
  - intros _. cbn [append]. rewrite split_aux_char_cons, Ascii.eqb_refl.
    now rewrite append_nil_r.
  - rewrite count_char_cons. cbn [append]. rewrite split_aux_char_cons.
    destruct (Ascii.eqb c x); [discriminate|]. intros Hc.
    rewrite IH by exact Hc. rewrite rev_cons, append_assoc. reflexivity.
Qed.

(** the lines of a text joined by line feeds *)
Lemma split_join_lines lines :
  lines <> [] ->
  (forall line, In line lines -> count_char (ascii_of_nat 10) line = 0) ->
  split LF (join_lines lines) = lines.
Proof.
  unfold split, LF.
  induction lines as [|line lines IH]; [contradiction|]. intros _ Hall.
  destruct lines as [|line' lines].
  - cbn [join_lines]. rewrite split_aux_last by (apply Hall; now left).
    reflexivity.
  - change (join_lines (line :: line' :: lines))
      with (line ++ String (ascii_of_nat 10) (join_lines (line' :: lines))).
    rewrite split_aux_first by (apply Hall; now left).
    cbn [rev rev_app append]. f_equal. apply IH; [discriminate|].
    intros l Hl. apply Hall. now right.
Qed.

(** what [_parse_text_to_dataframe] makes of one line [Term: Value] *)
Lemma parse_master_line term value :
  clean_text term -> clean_text value -> count_char ":" term = 0 ->
  let line := master_line (term, value) in
  strip line = line /\ line <> EmptyString /\
  contains ":" line = true /\
  split_once ":" line = Some (term, String " " value) /\
  strip term = term /\ strip (String " " value) = value.
Proof.
  intros [Hnt [Hlt [Hrt _]]] [Hnv [Hlv [Hrv _]]] Hcolon line.
  unfold line, master_line. cbn [fst snd].
  change (term ++ ": " ++ value) with (term ++ String ":" (String " " value)).
  split; [|split; [|split; [|split; [|split]]]].
  - apply strip_fixed.
    + now apply lstrip_append.
    + rewrite rev_append. rewrite !rev_cons, !append_assoc.
      apply lstrip_append; [now apply rev_nonempty|exact Hrv].
  - destruct term; [contradiction|discriminate].
  - apply contains_char_append.
  - now apply split_once_first.
  - now apply strip_fixed.
  - unfold strip. change (lstrip (String " " value)) with (lstrip value).
    rewrite Hlv, Hrv. apply rev_involutive.
Qed.

End TextFacts.

Section TextMasterSheet.
Context `{Collaborators}.
Import PyStrFacts NumberFacts TextFacts.

(** X15.  Every row that [_parse_text_to_dataframe] builds has a term
    without a colon, a text as expected value and the empty text as allowed
    range; validating any value against such a row gives the verdict of
    the expected value alone, as if the range cell were empty. *)
Theorem text_master_rows_have_no_range (text : string) (row : Row) :
  In row (_parse_text_to_dataframe text) ->
  count_char ":" (Term row) = 0 /\
  (exists expected, Expected_Value row = Str expected) /\
  Allowed_Range row = Str EmptyString /\
  forall value,
    _validate_value value (Expected_Value row) (Allowed_Range row) =
    _validate_value value (Expected_Value row) NaN.
Proof.
  unfold _parse_text_to_dataframe. intros Hin.
  apply in_flat_map in Hin. destruct Hin as [line [_ Hin]].
  destruct (contains ":" line); [|destruct Hin].
  pose proof (split_once_char_spec ":" line) as Hs.
  destruct (split_once ":" line) as [[term value]|]; [|destruct Hin].
  destruct Hin as [E|[]]. subst row. cbn [Term Expected_Value Allowed_Range].
  destruct Hs as [_ Hterm].
  split; [|split; [eauto|split; [reflexivity|]]].
  - pose proof (count_char_strip ":" term). lia.
  - intros v. unfold _validate_value. cbn [isna andb].
    destruct (_determine_value_type (strip v)).
    + unfold _validate_date, validate_date_body.
      cbn [notna isna negb cell_str]. reflexivity.
    + unfold _validate_number, validate_number_body.
      cbn [notna isna negb cell_str].
      destruct (float_of_decimal (strip_numeric (strip v))); reflexivity.
    + reflexivity.
Qed.

(** X16.  Rules written one on a line as [Term: Value], with terms and
    values that are not empty, have no blank at either end and no line
    feed, and terms without a colon, are read back by
    [_parse_text_to_dataframe] in the same order, the value as expected
    value and the empty text as allowed range. *)
Theorem text_master_sheet_round_trip (rules : list (string * string)) :
  (forall rule, In rule rules ->
     clean_text (fst rule) /\ clean_text (snd rule) /\
     count_char ":" (fst rule) = 0) ->
  _parse_text_to_dataframe (join_lines (map master_line rules)) =
  map (fun rule => mkRow (fst rule) (Str (snd rule)) (Str EmptyString)) rules.
Proof.
  intros Hall. unfold _parse_text_to_dataframe.
  destruct rules as [|rule0 rules0]; [reflexivity|].
  set (rules := rule0 :: rules0) in *.
  rewrite split_join_lines.
  - clearbody rules. clear rule0 rules0.
    induction rules as [|[term value] rules IH]; [reflexivity|].
    destruct (Hall (term, value) (or_introl eq_refl)) as [Ht [Hv Hc]].
    destruct (parse_master_line term value Ht Hv Hc)
      as [Hstrip [Hne [Hcol [Hsplit [Hst Hsv]]]]].
    cbn [map]. rewrite Hstrip. cbn [filter].
    apply String.eqb_neq in Hne. rewrite Hne. cbn [negb flat_map].
    rewrite Hcol, Hsplit, Hst, Hsv. cbn [app fst snd]. f_equal.
    apply IH. intros rule Hrule. apply Hall. now right.
  - discriminate.
  - intros line Hline. apply in_map_iff in Hline.
    destruct Hline as [[term value] [E Hrule]]. subst line.
    destruct (Hall _ Hrule) as [[_ [_ [_ Ht]]] [[_ [_ [_ Hv]]] _]].
    cbn [fst snd] in *. unfold master_line. cbn [fst snd].
    rewrite !count_char_append, Ht, Hv. reflexivity.
Qed.

End TextMasterSheet.

(** ** The summary counts *)

Section SummaryCounts.
Context `{Collaborators}.
Import Dict DictFacts.

Lemma count_status_app st a b :
  count_status st (a ++ b) = count_status st a + count_status st b.
Proof. unfold count_status. now rewrite filter_app, length_app. Qed.

Lemma count_status_partition results :
  count_status Valid results + count_status Invalid results +
  count_status Unknown results = List.length results.
Proof.
  unfold count_status. induction results as [|r results IH]; simpl; auto.
  destruct (Status r); simpl; lia.
Qed.

Lemma count_unknown_records md (extracted : Dict.t string) :
  count_status Unknown (map (term_record md) extracted) =
  List.length (filter (fun kv => negb (mem (fst kv) md)) extracted).
Proof.
  unfold count_status.
  induction extracted as [|kv extracted IH]; simpl; auto.
  pose proof (term_record_status md kv) as Hs. unfold mem.
  destruct (get md (fst kv)) as [rule|].
  - destruct (Status (term_record md kv)); simpl; auto.
    destruct Hs as [Hs _]. now specialize (Hs eq_refl).
  - destruct Hs as [_ Hs]. rewrite (Hs eq_refl). simpl. now rewrite IH.
Qed.

Lemma count_missing_records st (entries : Dict.t (cell * cell)) :
  count_status st (map missing_record entries) =
  if status_eqb st Invalid then List.length entries else 0.
Proof.
  unfold count_status.
  induction entries as [|entry entries IH]; simpl.
  - now destruct (status_eqb st Invalid).
  - destruct st; simpl in *; now rewrite IH.
Qed.

Lemma master_dict_empty master_df : master_dict master_df = [] -> master_df = [].
Proof.
  destruct master_df as [|row rows]; auto. intros Hd.
  assert (Hin : In (Term row) (map Term (row :: rows))) by now left.
  destruct (master_dict_has _ _ Hin) as [rule Hr].
  rewrite Hd in Hr. discriminate.
Qed.

(** X17.  The summary of a validation fails only when nothing was
    extracted and the master sheet has no row; otherwise the total is
    positive, so that the percentages divide by a number that is not
    zero.  The total is the number of extracted terms plus the number of
    master terms that were not extracted, it is the sum of the three
    counts, and the Unknown count is the number of extracted terms that
    are not terms of the master sheet. *)
Theorem summary_counts (extracted_terms : Dict.t string) (master_df : list Row) :
  (summary (validate_terms extracted_terms master_df) = None <->
   extracted_terms = [] /\ master_df = []) /\
  forall s, summary (validate_terms extracted_terms master_df) = Some s ->
    0 < total_terms s /\
    total_terms s = valid_terms s + invalid_terms s + unknown_terms s /\
    total_terms s =
      List.length extracted_terms +
      List.length (filter (fun entry => negb (mem (fst entry) extracted_terms))
                          (master_dict master_df)) /\
    unknown_terms s =
      List.length (filter (fun kv => negb (existsb (String.eqb (fst kv))
                                                   (map Term master_df)))
                          extracted_terms).
Proof.
  split.
  - unfold summary.
    destruct (validate_terms extracted_terms master_df) as [|r results] eqn:E.
    + split; auto. intros _. unfold validate_terms in E.
      apply app_eq_nil in E. destruct E as [E1 E2].
      apply map_eq_nil in E1. subst extracted_terms. split; auto.
      apply map_eq_nil in E2. simpl in E2.
      apply master_dict_empty.
      induction (master_dict master_df) as [|entry md IH]; auto.
      discriminate E2.
    + split; [discriminate|]. intros [He Hm]. subst. discriminate E.
  - intros s Hs. unfold summary in Hs.
    destruct (validate_terms extracted_terms master_df) as [|r results] eqn:E;
      [discriminate|].
    injection Hs as Hs. subst s. cbn [total_terms valid_terms invalid_terms
                                      unknown_terms].
    split; [simpl; lia|].
    change (S (List.length results)) with (List.length (r :: results)).
    rewrite <- E. clear E r results.
    split; [|split].
    + symmetry. apply count_status_partition.
    + unfold validate_terms. now rewrite length_app, !length_map.
    + unfold validate_terms. rewrite count_status_app, count_unknown_records,
        count_missing_records. cbn [status_eqb]. rewrite Nat.add_0_r.
      f_equal. apply filter_ext. intros kv. f_equal.
      unfold mem.
      destruct (get (master_dict master_df) (fst kv)) eqn:Eg.
      * symmetry. apply existsb_eqb_In. apply master_dict_mem.
        apply mem_In. unfold mem. now rewrite Eg.
      * symmetry. apply master_dict_no_rule in Eg.
        destruct (existsb (String.eqb (fst kv)) (map Term master_df)) eqn:Ex;
          auto.
        apply existsb_eqb_In in Ex. contradiction.
Qed.

End SummaryCounts.

(** ** From the normalizer to the verdict Unknown *)

Section UnmatchedKeys.
Context `{Collaborators}.
Import Dict DictFacts PyStrFacts.

(** The name chosen for a key is a term of the master sheet unless the
    normalizer found no match for the key. *)
Lemma canonical_name_unmatched master_df key :
  let display_key := replace_char "_" " " key in
  ~ In (canonical_name master_df key) (map Term master_df) <->
  existsb (String.eqb (lower display_key)) (master_terms master_df) = false /\
  forall best_match,
    fst (best_fuzzy display_key (master_terms master_df)) = Some best_match ->
    best_match = EmptyString.
Proof.
  intros display_key.
  assert (Htitle : existsb (String.eqb (lower display_key))
                           (master_terms master_df) = false ->
                   ~ In (title display_key) (map Term master_df)).
  { intros E Hin. apply in_map_iff in Hin. destruct Hin as [r [Er Hr]].
    assert (Hm : In (lower display_key) (master_terms master_df)).
    { rewrite <- (lower_title display_key), <- Er. unfold master_terms.
      now apply (in_map (fun r => lower (Term r))). }
    apply exact_match_iff in Hm. congruence. }
  unfold canonical_name. fold display_key.
  destruct (existsb (String.eqb (lower display_key)) (master_terms master_df))
    eqn:E.
  - split; [|intros [E' _]; discriminate E'].
    intros Hnot. exfalso. apply Hnot.
    apply exact_match_iff in E. apply rows_named_member in E.
    destruct (rows_named master_df (lower display_key)) as [|t rest] eqn:Er;
      [contradiction|].
    simpl. now apply (rows_named_head _ _ _ _ Er).
  - destruct (fst (best_fuzzy display_key (master_terms master_df)))
      as [bm|] eqn:Eb.
    + destruct (String.eqb_spec bm EmptyString) as [Ebm|Ebm].
      * split; [|intros _; now apply Htitle].
        intros _. split; auto. intros bm' Ebm'. congruence.
      * split.
        -- intros Hnot. exfalso. apply Hnot.
           apply best_fuzzy_In in Eb. apply rows_named_member in Eb.
           destruct (rows_named master_df bm) as [|t rest] eqn:Er;
             [contradiction|].
           now apply (rows_named_head _ _ _ _ Er).
        -- intros [_ Hall]. exfalso. apply Ebm. now apply Hall.
    + split; [|intros _; now apply Htitle].
      intros _. split; auto. discriminate.
Qed.

(** X18.  After normalization every extracted key has a record in the
    output of [validate_terms], under the name the normalizer chose for
    it; that record is Unknown exactly when the normalizer found no match:
    no master term equals the key without regard to case, and no master
    term was kept by the fuzzy comparison. *)
Theorem unknown_iff_normalizer_found_no_match
        (extracted : Dict.t string) (master_df : list Row)
        (key value : string) :
  In (key, value) extracted ->
  let display_key := replace_char "_" " " key in
  exists r,
    In r (validate_terms (normalize_terms extracted master_df) master_df) /\
    rec_Term r = canonical_name master_df key /\
    (Status r = Unknown <->
     existsb (String.eqb (lower display_key)) (master_terms master_df) = false /\
     forall best_match,
       fst (best_fuzzy display_key (master_terms master_df)) = Some best_match ->
       best_match = EmptyString).
Proof.
  intros Hin display_key.
  set (name := canonical_name master_df key).
  assert (Hkey : In name (keys (normalize_terms extracted master_df))).
  { apply mem_In. rewrite normalize_terms_writes.
    assert (Hw : In (name, value) (normalized_writes extracted master_df)).
    { unfold normalized_writes.
      change (name, value)
        with ((fun kv : string * string =>
                 (canonical_name master_df (fst kv), snd kv)) (key, value)).
      now apply in_map. }
    apply in_split in Hw. destruct Hw as [ws1 [ws2 Hw]]. rewrite Hw.
    apply mem_after_write. }
  unfold keys in Hkey. apply in_map_iff in Hkey.
  destruct Hkey as [[name' value'] [E Hentry]]. simpl in E. subst name'.
  exists (term_record (master_dict master_df) (name, value')).
  split; [|split].
  - unfold validate_terms. apply in_or_app. left. now apply in_map.
  - apply term_record_Term.
  - rewrite term_record_status. cbn [fst].
    rewrite master_dict_no_rule. apply canonical_name_unmatched.
Qed.

End UnmatchedKeys.


(** ** The money entity that is looked at *)

Section MoneyEntity.
Context `{Collaborators}.
Import Dict DictFacts.

Lemma mem_set_other (d : Dict.t string) k k' v :
  k <> k' -> mem k' (set d k v) = mem k' d.
Proof. intros Hne. unfold mem. now rewrite get_set_other. Qed.

(** X19.  Among the entities only the first one labelled MONEY is looked
    at for the principal: when the text before it names neither
    "principal" nor "amount", the entity pass stores no principal, whatever
    the MONEY entities after it are and whatever precedes them. *)
Theorem first_money_entity_decides
        (text : string) (terms : Dict.t string)
        (ents_before ents_after : list Ent) (e : Ent) :
  nlp_ents (take nlp_limit text) = (ents_before ++ e :: ents_after)%list ->
  (forall x, In x ents_before -> label_ x <> "MONEY") ->
  label_ e = "MONEY" ->
  context_has text 30 (start_char e) ["principal"; "amount"] = false ->
  mem "principal" terms = false ->
  mem "principal" (entity_stage text terms) = false.
Proof.
  intros Hents Hbefore Hlabel Hctx Hmem. unfold entity_stage. rewrite Hents.
  set (ents := (ents_before ++ e :: ents_after)%list).
  assert (H1 : mem "principal" (entity_maturity text ents terms) = false).
  { unfold entity_maturity. repeat break_match; auto;
      rewrite mem_set_other; auto; discriminate. }
  assert (H2 : mem "principal"
                   (entity_rate text ents (entity_maturity text ents terms))
               = false).
  { unfold entity_rate. repeat break_match; auto.
    rewrite mem_set_other; auto; discriminate. }
  assert (H3 : mem "principal"
                   (entity_counterparty ents
                      (entity_rate text ents
                         (entity_maturity text ents terms))) = false).
  { unfold entity_counterparty. repeat break_match; auto.
    rewrite mem_set_other; auto; discriminate. }
  unfold entity_principal.
  destruct (mem "principal" _ || mem "loan_amount" _); [exact H3|].
  unfold ents. rewrite find_first.
  - rewrite Hctx. exact H3.
  - rewrite Hlabel. reflexivity.
  - intros x Hx. apply String.eqb_neq. now apply Hbefore.
Qed.

End MoneyEntity.
(** * Runs of the further properties *)

Module MoreRuns.
Import Reference Dict Inputs.

(** a key that is no master term gets an Unknown record *)
Lemma unknown_iff_no_rule_witness :
  let r := mkRecord "Coupon" "5" Unknown (Str "N/A") (Str "N/A")
                    Term_not_found_in_master_sheet in
  In r (@validate_terms R26 [("Coupon", "5")] two_rules) /\
  (Status r = Unknown <-> ~ In (rec_Term r) (map Term two_rules)).
Proof.
  intros r.
  assert (Hin : In r (@validate_terms R26 [("Coupon", "5")] two_rules))
    by (left; reflexivity).
  split; [exact Hin|].
  exact (proj1 (@unknown_iff_no_rule R26 [("Coupon", "5")] two_rules r Hin)).
Defined.

(** of two rows for "Rate" the second one validates *)
Lemma repeated_term_last_row_wins_witness :
  get (@master_dict
         [mkRow "Rate" (Str "1") NaN; mkRow "Rate" (Str "5") NaN;
          mkRow "Other" NaN NaN]) "Rate" = Some (Str "5", NaN).
Proof.
  apply (proj1 (@repeated_term_last_row_wins R26
                  [mkRow "Rate" (Str "1") NaN] [mkRow "Other" NaN NaN]
                  (mkRow "Rate" (Str "5") NaN) "5"
                  ltac:(intros r [E|[]]; rewrite <- E; discriminate))).
Defined.

(** "interest rate" after "Interest Rate" is reported missing even though
    the document has the term *)
Lemma shadowed_row_always_missing_witness :
  let master_df := [mkRow "Interest Rate" (Str "5") NaN;
                    mkRow "interest rate" (Str "6") NaN] in
  let normalized := @normalize_terms R26 [("interest_rate", "6")] master_df in
  ~ In "interest rate" (keys normalized) /\
  exists rule,
    In (mkRecord "interest rate" "Missing" Invalid (fst rule) (snd rule)
                 Term_not_found_in_document)
       (@validate_terms R26 normalized master_df).
Proof.
  apply (@shadowed_row_always_missing R26
           [mkRow "Interest Rate" (Str "5") NaN] []
           (mkRow "Interest Rate" (Str "5") NaN)
           (mkRow "interest rate" (Str "6") NaN)
           [("interest_rate", "6")]).
  - left. reflexivity.
  - reflexivity.
  - intros r [E|[]]. rewrite <- E. discriminate.
Defined.

Lemma normalize_terms_idempotent_witness :
  @normalize_terms R26 (@normalize_terms R26 colliding_terms two_rules)
                   two_rules =
  @normalize_terms R26 colliding_terms two_rules.
Proof.
  apply (proj2 (@normalize_terms_idempotent R26 two_rules
                  ltac:(intros r [E|[E|[]]]; rewrite <- E; reflexivity)
                  colliding_terms)).
Defined.

(** two ISO dates joined by a hyphen: five hyphens, no interval *)
Lemma hyphen_range_needs_one_hyphen_witness :
  count_char "-" "2023-01-01-2025-12-31" = 5 /\
  forall s e,
    @_validate_date R26 s e (Str "2023-01-01-2025-12-31") =
    @_validate_date R26 s e NaN.
Proof.
  split; [reflexivity|].
  apply (@hyphen_range_needs_one_hyphen R26 "2023-01-01-2025-12-31").
  - reflexivity.
  - reflexivity.
  - reflexivity.
  - vm_compute. discriminate.
Defined.

(** neither text holds a date: the two "dates" are equal *)
Lemma undated_value_verdict_witness :
  @dateparser_parse R26 "soon" = None /\
  @_validate_date R26 "soon" (Str "later") (Str "≥2025-01-01") =
  (true, Date_matches_expected_value).
Proof.
  split; [reflexivity|].
  exact (@undated_value_verdict R26 "soon" (Str "later") (Str "≥2025-01-01")
           eq_refl eq_refl).
Defined.

Lemma text_enumeration_ignores_case_witness :
  fst (@_validate_text R26 "delaware" NaN (Str "New York | Delaware")) = true.
Proof.
  apply (proj2 (@text_enumeration_ignores_case R26 "delaware"
                  (Str "New York | Delaware") eq_refl eq_refl)).
  exists " Delaware". split; [right; left; reflexivity|reflexivity].
Defined.


(** the extension decides before the content type is looked at *)
Lemma csv_master_is_read_as_excel_witness :
  let upload := mkUpload (Some "rules.CSV") None (Some "application/pdf") None in
  detect_file_type (fun _ => None) upload = "excel" /\
  extract_master_sheet_structure (detect_file_type (fun _ => None) upload) =
    Some read_excel.
Proof.
  exact (csv_master_is_read_as_excel (fun _ => None)
           (mkUpload (Some "rules.CSV") None (Some "application/pdf") None)
           "rules.CSV" eq_refl eq_refl).
Defined.

(** an upload named "master" with the content type of an .xlsx file *)
Lemma extensionless_spreadsheet_is_typed_word_witness :
  let upload :=
    mkUpload (Some "master") None
      (Some "application/vnd.openxmlformats-officedocument.spreadsheetml.sheet")
      None in
  upload_filename upload = "master.xlsx" /\
  upload_suffix upload = ".xlsx" /\
  detect_file_type (fun _ => None) upload = "word" /\
  extract_text (detect_file_type (fun _ => None) upload) =
    Some _extract_from_word /\
  extract_master_sheet_structure (detect_file_type (fun _ => None) upload) =
    Some (parsed_text _extract_from_word).
Proof.
  apply (extensionless_spreadsheet_is_typed_word (fun _ => None)
           (mkUpload (Some "master") None
              (Some "application/vnd.openxmlformats-officedocument.spreadsheetml.sheet")
              None)
           "master"
           "application/vnd.openxmlformats-officedocument.spreadsheetml.sheet").
  - reflexivity.
  - discriminate.
  - reflexivity.
  - reflexivity.
  - reflexivity.
  - reflexivity.
  - reflexivity.
  - reflexivity.
Defined.

Lemma text_master_rows_have_no_range_witness :
  let text := "Interest Rate: 5.5" ++ LF ++ "no rule on this line" in
  let row := mkRow "Interest Rate" (Str "5.5") (Str EmptyString) in
  In row (_parse_text_to_dataframe text) /\
  forall value,
    @_validate_value R26 value (Expected_Value row) (Allowed_Range row) =
    @_validate_value R26 value (Expected_Value row) NaN.
Proof.
  intros text row.
  assert (Hin : In row (_parse_text_to_dataframe text)) by (left; reflexivity).
  split; [exact Hin|].
  exact (proj2 (proj2 (proj2
           (@text_master_rows_have_no_range R26 text row Hin)))).
Defined.

Lemma text_master_sheet_round_trip_witness :
  _parse_text_to_dataframe
    ("Interest Rate: 5.5" ++ LF ++ "Governing Law: New York") =
  [ mkRow "Interest Rate" (Str "5.5") (Str EmptyString);
    mkRow "Governing Law" (Str "New York") (Str EmptyString) ].
Proof.
  apply (text_master_sheet_round_trip
           [("Interest Rate", "5.5"); ("Governing Law", "New York")]).
  intros rule [E|[E|[]]]; rewrite <- E;
    repeat split; try reflexivity; discriminate.
Defined.

(** "coupon" resembles no master term: its record is Unknown *)
Lemma unknown_iff_normalizer_found_no_match_witness :
  exists r,
    In r (@validate_terms R26
            (@normalize_terms R26 [("coupon", "3")] two_rules) two_rules) /\
    rec_Term r = @canonical_name R26 two_rules "coupon" /\
    (Status r = Unknown <->
     existsb (String.eqb (lower (replace_char "_" " " "coupon")))
             (master_terms two_rules) = false /\
     forall best_match,
       fst (@best_fuzzy R26 (replace_char "_" " " "coupon")
                        (master_terms two_rules)) = Some best_match ->
       best_match = EmptyString).
Proof.
  exact (@unknown_iff_normalizer_found_no_match R26 [("coupon", "3")]
           two_rules "coupon" "3" (or_introl eq_refl)).
Defined.

(** the first amount is a fee; the principal that follows is not read *)
Lemma first_money_entity_decides_witness :
  let text := "Fee of $5 then principal of $1,000,000" in
  let ents := [mkEnt "MONEY" "$5" 7; mkEnt "MONEY" "$1,000,000" 28] in
  let C := collaborators (fun _ => ents) 2026 in
  context_has text 30 28 ["principal"; "amount"] = true /\
  mem "principal" (@entity_stage C text []) = false.
Proof.
  intros text ents C. split; [reflexivity|].
  apply (@first_money_entity_decides C text [] []
           [mkEnt "MONEY" "$1,000,000" 28] (mkEnt "MONEY" "$5" 7)).
  - reflexivity.
  - intros x [].
  - reflexivity.
  - reflexivity.
  - reflexivity.
Defined.

End MoreRuns.
